(** * Browser Review Tool: the review execution pipeline of [src/index.mjs]

    A shallow embedding of the parts of [src/index.mjs] that decide the
    behaviour of a review run: configuration validation, the media
    transcoder adapter, the description cache, the description generator and
    the step loop of [runReview] with its three recording strategies;
    then the command line, the phase of [runReview] after the capture and
    the grouping of artifacts in the report.

    Conventions of the embedding.
    - A JavaScript value read from a configuration file is a [json] value;
      a missing property ([undefined]) is [None].
    - JavaScript numbers are modelled by exact rationals ([Q]): every
      arithmetic identity below is one of real arithmetic, which the
      IEEE-754 doubles of the runtime follow up to rounding.
    - A thrown exception is the [Throw] case of [result].
    - The file system is a finite map from paths to contents; the browser
      page is an abstract state behind the [PageApi] interface. *)

From Stdlib Require Import ZArith QArith String Ascii List Bool Lia.
From Stdlib Require Import DecimalString Qminmax Lqa.
From Stdlib Require OrderedTypeEx.
From stdpp Require Import gmap strings.

Import ListNotations.
Local Open Scope string_scope.
Local Open Scope Z_scope.

(** ** Results of fallible code *)

Inductive result (E A : Type) : Type :=
| Ok (a : A)
| Throw (e : E).
Arguments Ok {E A} a.
Arguments Throw {E A} e.

Definition rbind {E A B} (r : result E A) (k : A → result E B) : result E B :=
  match r with
  | Ok a => k a
  | Throw e => Throw e
  end.

(** A JavaScript exception: an [Error] with its message, or the [TypeError]
    the runtime raises when a property of [null]/[undefined] is read. *)
Inductive exn : Type :=
| Error (message : string)
| TypeError.

(** ** Strings as the source uses them *)

Module Str.

Definition dquote : string := String "034"%char EmptyString.

Definition isEmpty (s : string) : bool :=
  match s with EmptyString => true | String _ _ => false end.

(** [s.startsWith(p)] *)
Fixpoint startsWith (p s : string) : bool :=
  match p, s with
  | EmptyString, _ => true
  | String _ _, EmptyString => false
  | String a p', String b s' => Ascii.eqb a b && startsWith p' s'
  end.

(** [s.includes(m)]: [m] occurs at some position of [s]. *)
Fixpoint includes (m s : string) : bool :=
  startsWith m s ||
  match s with
  | EmptyString => false
  | String _ s' => includes m s'
  end.

(** [s.endsWith(p)] *)
Fixpoint endsWith (p s : string) : bool :=
  String.eqb p s ||
  match s with
  | EmptyString => false
  | String _ s' => endsWith p s'
  end.

Fixpoint occurs (c : ascii) (s : string) : bool :=
  match s with
  | EmptyString => false
  | String a s' => Ascii.eqb c a || occurs c s'
  end.

(** White space recognised by [\s] and [trim] within ASCII: tab, line
    feed, vertical tab, form feed, carriage return, space. *)
Definition isSpace (c : ascii) : bool :=
  let n := nat_of_ascii c in
  ((9 <=? n)%nat && (n <=? 13)%nat) || (n =? 32)%nat.

Fixpoint trimStart (s : string) : string :=
  match s with
  | EmptyString => EmptyString
  | String c s' => if isSpace c then trimStart s' else s
  end.

Fixpoint rev_append (s acc : string) : string :=
  match s with
  | EmptyString => acc
  | String c s' => rev_append s' (String c acc)
  end.

Definition rev (s : string) : string := rev_append s EmptyString.

(** [s.trim()] *)
Definition trim (s : string) : string := rev (trimStart (rev (trimStart s))).

Definition lowerChar (c : ascii) : ascii :=
  let n := nat_of_ascii c in
  if ((65 <=? n)%nat && (n <=? 90)%nat)%bool then ascii_of_nat (n + 32) else c.

(** [s.toLowerCase()] on ASCII letters. *)
Fixpoint toLowerCase (s : string) : string :=
  match s with
  | EmptyString => EmptyString
  | String c s' => String (lowerChar c) (toLowerCase s')
  end.

(** [s.replace(/\s+/g, '-')]: every maximal run of white space becomes
    one dash. [inRun] tells whether the previous character was white. *)
Fixpoint dashSpaces (inRun : bool) (s : string) : string :=
  match s with
  | EmptyString => EmptyString
  | String c s' =>
      if isSpace c
      then (if inRun then dashSpaces true s' else String "-"%char (dashSpaces true s'))
      else String c (dashSpaces false s')
  end.

(** [String(n)] for a non-negative integer. *)
Definition ofNat (n : nat) : string := NilZero.string_of_uint (Nat.to_uint n).

Fixpoint repeat (c : ascii) (n : nat) : string :=
  match n with
  | O => EmptyString
  | S n' => String c (repeat c n')
  end.

(** [s.padStart(w, c)] *)
Definition padStart (w : nat) (c : ascii) (s : string) : string :=
  repeat c (w - String.length s) ++ s.

End Str.

(** ** JSON values and the JavaScript tests made on them *)

Module Js.

#[local] Set Warnings "-register-all".
Inductive json : Type :=
| JNull
| JBool (b : bool)
| JNum (q : Q)
| JStr (s : string)
| JArr (items : list json)
| JObj (fields : list (string * json)).

(** An object is its list of own properties, without duplicate keys. *)
Abbreviation obj := (list (string * json)).

Fixpoint field (k : string) (o : obj) : option json :=
  match o with
  | [] => None
  | (k', v) :: o' => if String.eqb k k' then Some v else field k o'
  end.

(** [o.k = v] / a later entry of an object literal: the property keeps
    its place when it exists and is appended otherwise. *)
Fixpoint setField (k : string) (v : json) (o : obj) : obj :=
  match o with
  | [] => [(k, v)]
  | (k', v') :: o' =>
      if String.eqb k k' then (k, v) :: o' else (k', v') :: setField k v o'
  end.

(** [Object.assign(o, src)] and object spread. *)
Definition assign (o src : obj) : obj :=
  fold_left (fun acc kv => setField (fst kv) (snd kv) acc) src o.

(** [x.k] for a value [x] that may be [undefined]; reading a property of
    [null] or [undefined] raises [TypeError]. Strings, numbers, booleans
    and arrays have none of the properties the program reads by name. *)
Definition prop (k : string) (x : option json) : result exn (option json) :=
  match x with
  | None | Some JNull => Throw TypeError
  | Some (JObj o) => Ok (field k o)
  | Some _ => Ok None
  end.

(** Truthiness: [undefined], [null], [false], [0] and the empty string
    are falsy. *)
Definition truthy (x : option json) : bool :=
  match x with
  | None | Some JNull => false
  | Some (JBool b) => b
  | Some (JNum q) => negb (Qeq_bool q 0)
  | Some (JStr s) => negb (Str.isEmpty s)
  | Some (JArr _) | Some (JObj _) => true
  end.

Definition isString (x : option json) : bool :=
  match x with Some (JStr _) => true | _ => false end.

Definition isNumber (x : option json) : bool :=
  match x with Some (JNum _) => true | _ => false end.

Definition isBoolean (x : option json) : bool :=
  match x with Some (JBool _) => true | _ => false end.

Definition isUndefined (x : option json) : bool :=
  match x with None => true | Some _ => false end.

(** [Array.isArray(x)] *)
Definition isArray (x : option json) : bool :=
  match x with Some (JArr _) => true | _ => false end.

(** [[a, b, ...].includes(x)] for string literals [a, b, ...]. *)
Definition oneOf (choices : list string) (x : option json) : bool :=
  match x with
  | Some (JStr s) => existsb (String.eqb s) choices
  | _ => false
  end.

End Js.

(** ** Configuration: [DEFAULT_CONFIG] and [validateConfig] *)

Module Config.
Import Js.

Definition num (z : Z) : json := JNum (inject_Z z).

(** [DEFAULT_CONFIG]; [baseUrl] and [outputDir] come from the process
    environment and the working directory. *)
Definition DEFAULT_CONFIG (baseUrl outputDir : string) : obj :=
  [ ("baseUrl", JStr baseUrl);
    ("outputDir", JStr outputDir);
    ("viewport", JObj [("width", num 1920); ("height", num 1080)]);
    ("videoFormat", JStr "slideshow");
    ("slideshowFps", num 2);
    ("gifQuality", JStr "medium");
    ("screenshotFormat", JStr "png");
    ("useAI", JBool true);
    ("aiProvider", JStr "openai");
    ("aiModel", JStr "gpt-4o");
    ("maxScreenshotsPerStep", num 10) ].

Definition check (bad : bool) (message : string) : result exn unit :=
  if bad then Throw (Error message) else Ok tt.

Definition isPositive (x : option json) : bool :=
  match x with
  | Some (JNum q) => negb (Qle_bool q 0)
  | _ => false
  end.

Definition nameOf (x : option json) : string :=
  match x with Some (JStr s) => s | _ => EmptyString end.

Definition titleIsBlank (x : option json) : bool :=
  match x with
  | Some (JStr s) => Str.isEmpty (Str.trim s)
  | _ => true
  end.

(** The body of the loop over [config.steps], for the step at index [i]. *)
Definition validateStep (i : nat) (step : json) : result exn unit :=
  rbind (prop "name" (Some step)) (fun name =>
  rbind (check (negb (truthy name) || negb (isString name))
           ("Step " ++ Str.ofNat (i + 1) ++ ": name is required")) (fun _ =>
  rbind (prop "actions" (Some step)) (fun actions =>
  check (truthy actions && negb (isArray actions))
    ("Step " ++ Str.dquote ++ nameOf name ++ Str.dquote
       ++ ": actions must be an array")))).

Fixpoint validateSteps (i : nat) (steps : list json) : result exn unit :=
  match steps with
  | [] => Ok tt
  | step :: rest => rbind (validateStep i step) (fun _ => validateSteps (S i) rest)
  end.

Definition videoFormatMessage : string :=
  "videoFormat must be either " ++ Str.dquote ++ "gif" ++ Str.dquote
    ++ " or " ++ Str.dquote ++ "webm" ++ Str.dquote.

Definition gifQualityMessage : string :=
  "gifQuality must be " ++ Str.dquote ++ "low" ++ Str.dquote ++ ", "
    ++ Str.dquote ++ "medium" ++ Str.dquote ++ ", or "
    ++ Str.dquote ++ "high" ++ Str.dquote.

Section Validation.

(** Whether [new URL(x)] accepts the value; the URL parser belongs to
    the runtime. *)
Variable urlParses : json → bool.

Definition urlRejected (x : option json) : bool :=
  match x with
  | Some v => negb (urlParses v)
  | None => false
  end.

(** The first four tests of [validateConfig]: title, url-or-steps, and
    the shape of [steps]. *)
Definition validateShape (config : obj) : result exn unit :=
  let title := field "title" config in
  let url := field "url" config in
  let steps := field "steps" config in
  rbind (check (negb (truthy title) || negb (isString title) || titleIsBlank title)
           "--title is required and cannot be empty") (fun _ =>
  rbind (check (negb (truthy url) && negb (truthy steps))
           "Either --url or --config with steps is required") (fun _ =>
  rbind (check (truthy steps && negb (isArray steps))
           "Config.steps must be an array") (fun _ =>
  match steps with
  | Some (JArr items) => validateSteps 0 items
  | _ => Ok tt
  end))).

(** The tests of [validateConfig] from [videoFormat] on. *)
Definition validateOptions (config : obj) : result exn unit :=
  let videoFormat := field "videoFormat" config in
  let gifQuality := field "gifQuality" config in
  let useAI := field "useAI" config in
  let aiModel := field "aiModel" config in
  let aiProvider := field "aiProvider" config in
  let taskUrl := field "clientflowTaskUrl" config in
  let maxShots := field "maxScreenshotsPerStep" config in
  let description := field "description" config in
  let clientRequest := field "clientRequest" config in
  rbind (check (truthy videoFormat && negb (oneOf ["gif"; "webm"] videoFormat))
           videoFormatMessage) (fun _ =>
  rbind (check (truthy gifQuality && negb (oneOf ["low"; "medium"; "high"] gifQuality))
           gifQualityMessage) (fun _ =>
  rbind (check (negb (isUndefined useAI) && negb (isBoolean useAI))
           "useAI must be a boolean") (fun _ =>
  rbind (check (truthy aiModel && negb (isString aiModel))
           "aiModel must be a string") (fun _ =>
  rbind (check (truthy aiProvider && negb (isString aiProvider))
           "aiProvider must be a string") (fun _ =>
  rbind (check (truthy taskUrl && urlRejected taskUrl)
           "clientflowTaskUrl must be a valid URL") (fun _ =>
  rbind (check (negb (isUndefined maxShots)
                  && (negb (isNumber maxShots) || negb (isPositive maxShots)))
           "maxScreenshotsPerStep must be a positive number") (fun _ =>
  rbind (check (truthy description && negb (isString description))
           "description must be a string") (fun _ =>
  check (truthy clientRequest && negb (isString clientRequest))
    "clientRequest must be a string")))))))).

Definition validateConfig (config : obj) : result exn unit :=
  rbind (validateShape config) (fun _ => validateOptions config).

End Validation.

End Config.

(** ** Paths and the file system *)

Module Fs.

(** [path.join(dir, file)] for a normalised directory and a plain file
    name (no separator, no dot segment): the two joined by a slash. *)
Definition join (dir file : string) : string := dir ++ "/" ++ file.

(** What a file holds: the serialisation of a JSON value (what
    [JSON.stringify] writes and [JSON.parse] reads back), or any other
    data - an image, a video, text that is not JSON. *)
Inductive content : Type :=
| Json (v : Js.json)
| Raw.

Abbreviation files := (gmap string content).

Definition exists_ (p : string) (fs : files) : bool :=
  match fs !! p with Some _ => true | None => false end.

(** [fs.unlink(p).catch(() => {})]: a missing file is not an error. *)
Definition unlink (p : string) (fs : files) : files := delete p fs.

(** A tool or the browser writes a media file. *)
Definition writeRaw (p : string) (fs : files) : files := <[p := Raw]> fs.

(** Media files written one after the other. *)
Definition writeAll (paths : list string) (fs : files) : files :=
  fold_left (fun acc p => writeRaw p acc) paths fs.

End Fs.

(** ** Process environment: [getAPIKey] *)

Module Env.

Record ProcessEnv : Type := {
  OPENAI_API_KEY : option string;
  AI_GATEWAY_API_KEY : option string
}.

Inductive KeyType : Type := direct | gateway.

Record ApiKeyInfo : Type := { key : string; type : KeyType }.

Definition nonEmpty (v : option string) : option string :=
  match v with
  | Some s => if Str.isEmpty s then None else Some s
  | None => None
  end.

Definition getAPIKey (env : ProcessEnv) : option ApiKeyInfo :=
  match nonEmpty (OPENAI_API_KEY env) with
  | Some k => Some {| key := k; type := direct |}
  | None =>
      match nonEmpty (AI_GATEWAY_API_KEY env) with
      | Some k => Some {| key := k; type := gateway |}
      | None => None
      end
  end.

Definition keyTypeName (t : KeyType) : string :=
  match t with direct => "direct" | gateway => "gateway" end.

End Env.

(** ** Media transcoder adapter *)

Module Transcoder.

(** The external transcoder: whether [which ffmpeg] succeeds, and the
    outcome of each invocation the adapter makes. *)
Record Tool : Type := {
  available : bool;
  (* palette generation for a video, written to a palette path *)
  paletteRuns : string → string → bool;
  (* palette application: video, palette, output *)
  gifRuns : string → string → string → bool;
  (* concatenation of the listed frames into the output *)
  concatRuns : list string → string → bool;
  (* [parseFloat] of the probed duration; [None] when the probe fails or
     prints no number *)
  probe : string → option Q;
  (* extraction of one frame at a time stamp *)
  grabRuns : string → Q → bool
}.

(** [checkFFmpeg] *)
Definition checkFFmpeg (tool : Tool) : bool := available tool.

(** [gifPath.replace('.gif', '-palette.png')]: the first occurrence. *)
Fixpoint replaceFirst (old new s : string) : string :=
  if Str.startsWith old s
  then new ++ String.substring (String.length old) (String.length s - String.length old) s
  else match s with
       | EmptyString => EmptyString
       | String c s' => String c (replaceFirst old new s')
       end.

(** [convertVideoToGif(videoPath, gifPath, quality)]: the success flag
    and the files afterwards. The quality tier only selects the filter
    text handed to the tool. *)
Definition convertVideoToGif (tool : Tool) (videoPath gifPath : string)
    (fs : Fs.files) : bool * Fs.files :=
  if negb (checkFFmpeg tool) then (false, fs)
  else
    let palettePath := replaceFirst ".gif" "-palette.png" gifPath in
    if negb (paletteRuns tool videoPath palettePath) then (false, fs)
    else
      let fs1 := Fs.writeRaw palettePath fs in
      if negb (gifRuns tool videoPath palettePath gifPath) then (false, fs1)
      else (true, Fs.unlink palettePath (Fs.writeRaw gifPath fs1)).

(** [createSlideshowFromScreenshots(screenshotPaths, outputPath, fps)].
    The concat list is written next to the output and removed only after
    a successful run. *)
Definition createSlideshowFromScreenshots (tool : Tool) (screenshotPaths : list string)
    (outputDir outputPath : string) (fs : Fs.files) : bool * Fs.files :=
  if negb (checkFFmpeg tool) then (false, fs)
  else
    match screenshotPaths with
    | [] => (false, fs)
    | _ :: _ =>
        let concatFilePath := Fs.join outputDir "slideshow-concat.txt" in
        let fs1 := Fs.writeRaw concatFilePath fs in
        if negb (concatRuns tool screenshotPaths outputPath) then (false, fs1)
        else (true, Fs.unlink concatFilePath (Fs.writeRaw outputPath fs1))
    end.

(** A loop counter as a number. *)
Definition count (n : nat) : Q := inject_Z (Z.of_nat n).

(** The time stamps [extractVideoFrames] computes into [frameTimes]. *)
Definition frameTimes (duration : Q) (maxFrames : nat) : list Q :=
  if Qle_bool duration 3
  then map (fun i : nat => (duration / (count maxFrames + 1)) * (count i + 1))%Q
           (seq 0 maxFrames)
  else [ (1 # 2)%Q; (duration / 2)%Q; Qmax (1 # 2) (duration - 1) ].

(** The time stamps the extraction loop visits: the first
    [Math.min(frameTimes.length, maxFrames)] of them. *)
Definition sampleTimes (duration : Q) (maxFrames : nat) : list Q :=
  let times := frameTimes duration maxFrames in
  firstn (Nat.min (length times) maxFrames) times.

Record Frame : Type := { path : string; time : Q; index : nat }.

Fixpoint grabFrames (tool : Tool) (videoPath outputDir baseName : string)
    (i : nat) (times : list Q) (fs : Fs.files) : list Frame * Fs.files :=
  match times with
  | [] => ([], fs)
  | t :: rest =>
      let framePath :=
        Fs.join outputDir (baseName ++ "-frame-" ++ Str.ofNat (i + 1) ++ ".png") in
      if grabRuns tool videoPath t
      then
        let '(frames, fs') :=
          grabFrames tool videoPath outputDir baseName (S i) rest (Fs.writeRaw framePath fs) in
        ({| path := framePath; time := t; index := (i + 1)%nat |} :: frames, fs')
      else grabFrames tool videoPath outputDir baseName (S i) rest fs
  end.

(** [extractVideoFrames(videoPath, outputDir, maxFrames)]; [baseName] is
    the video's file name without directory and extension. *)
Definition extractVideoFrames (tool : Tool) (videoPath outputDir baseName : string)
    (maxFrames : nat) (fs : Fs.files) : list Frame * Fs.files :=
  if negb (checkFFmpeg tool) then ([], fs)
  else
    match probe tool videoPath with
    | None => ([], fs)
    | Some duration =>
        if Qle_bool duration 0 then ([], fs)
        else grabFrames tool videoPath outputDir baseName 0
               (sampleTimes duration maxFrames) fs
    end.

End Transcoder.

(** ** Description cache: [loadCachedDescriptions], [saveCachedDescriptions] *)

Module Cache.
Import Js.

Definition configPath (outputDir : string) : string := Fs.join outputDir "config.json".

(** The cached value, or [null] when the file is missing or is not JSON. *)
Definition loadCachedDescriptions (fs : Fs.files) (outputDir : string) : json :=
  match fs !! configPath outputDir with
  | Some (Fs.Json v) => v
  | Some Fs.Raw => JNull
  | None => JNull
  end.

(** [descriptions.model || 'gpt-4o'] *)
Definition modelOrDefault (descriptions : obj) : json :=
  match field "model" descriptions with
  | Some v => if truthy (Some v) then v else JStr "gpt-4o"
  | None => JStr "gpt-4o"
  end.

(** [apiKeyInfo?.type || 'unknown'] *)
Definition apiKeyType (env : Env.ProcessEnv) : json :=
  match Env.getAPIKey env with
  | Some info => JStr (Env.keyTypeName (Env.type info))
  | None => JStr "unknown"
  end.

Definition cacheData (env : Env.ProcessEnv) (nowIso : string) (descriptions : obj) : obj :=
  setField "apiKeyType" (apiKeyType env)
    (setField "model" (modelOrDefault descriptions)
       (setField "generatedAt" (JStr nowIso) descriptions)).

(** [nowIso] is [new Date().toISOString()]; [writable] tells whether the
    write succeeds - a failed write is only warned about. *)
Definition saveCachedDescriptions (env : Env.ProcessEnv) (nowIso : string) (writable : bool)
    (fs : Fs.files) (outputDir : string) (descriptions : obj) : Fs.files :=
  if writable
  then <[configPath outputDir := Fs.Json (JObj (cacheData env nowIso descriptions))]> fs
  else fs.

End Cache.

(** ** Review data: actions, steps, artifacts, the validated configuration *)

Module Action.
Record t : Type := {
  type : string;
  name : option string;
  fullPage : option bool;
  selector : option string;
  text : option string;
  waitAfter : option Z;
  ms : option Z;
  url : option string;
  x : option Z;
  y : option Z
}.
End Action.

Module Step.
Record t : Type := {
  name : string;
  url : option string;
  record : bool;
  actions : option (list Action.t);
  description : option string
}.
End Step.

Module Artifact.
Inductive kind : Type := screenshot | video | gif | slideshow.

Record t : Type := {
  type : kind;
  name : string;
  path : string;
  timestamp : Z;
  stepIndex : Z;
  stepName : option string;
  frameCount : option nat
}.
End Artifact.

Module Review.
Record Config : Type := {
  title : string;
  baseUrl : string;
  outputDir : string;
  videoFormat : string;
  gifQuality : option string;
  useAI : option bool;
  forceAI : bool;
  aiModel : option string;
  maxScreenshotsPerStep : option nat;
  description : option string;
  clientRequest : option string;
  clientflowTaskUrl : option string;
  steps : option (list Step.t)
}.

(** [v || d] on an optional string, an optional count, an optional delay. *)
Definition strOr (v : option string) (d : string) : string :=
  match Env.nonEmpty v with Some s => s | None => d end.

Definition natOr (v : option nat) (d : nat) : nat :=
  match v with
  | Some O | None => d
  | Some n => n
  end.

Definition msOr (v : option Z) (d : Z) : Z :=
  match v with
  | Some 0 | None => d
  | Some n => n
  end.

(** [u.startsWith('http') ? u : `${config.baseUrl}${u}`] *)
Definition resolve (baseUrl u : string) : string :=
  if Str.startsWith "http" u then u else baseUrl ++ u.

End Review.

(** ** The action interpreter and the capture orchestrator of [runReview] *)

Module Capture.
Import Fs Review.

(** The operations of a browser page the program relies on. [goto] waits
    for network idle; [screenshot] takes the [fullPage] flag and only
    observes the page; [recording] names the video file that closing the
    page's recording context leaves in the artifacts directory;
    [scrollPosition] is the document scroll offset. *)
Class PageApi (P : Type) : Type := {
  newPage : P;
  goto : string → P → result exn P;
  click : option string → P → result exn P;
  fill : option string → option string → P → result exn P;
  waitForTimeout : Z → P → P;
  screenshot : bool → P → result exn unit;
  pageUrl : P → string;
  recording : P → option string;
  scrollPosition : P → Z * Z
}.

(** What a run acts on: the files, the page in use, the clock read by
    [Date.now()] (advanced by the waits the program asks for), and the
    [artifacts] array. *)
Record World (P : Type) : Type := mkWorld {
  fs : files;
  page : P;
  now : Z;
  artifacts : list Artifact.t
}.
Arguments mkWorld {P} _ _ _ _.
Arguments fs {P} _.
Arguments page {P} _.
Arguments now {P} _.
Arguments artifacts {P} _.

(** Computations on the world that may throw; the world reached so far
    survives the exception. *)
Definition M (P A : Type) : Type := World P → result exn A * World P.

#[global] Instance M_ret {P} : MRet (M P) := λ A a w, (Ok a, w).

#[global] Instance M_bind {P} : MBind (M P) := λ A B k m w,
  match m w with
  | (Ok a, w') => k a w'
  | (Throw e, w') => (Throw e, w')
  end.

Section Interpreter.
Context {P : Type} `{PageApi P}.

Definition throw {A} (e : exn) : M P A := λ w, (Throw e, w).

Definition gets {A} (f : World P → A) : M P A := λ w, (Ok (f w), w).

Definition setPage (p : P) : M P unit :=
  λ w, (Ok tt, mkWorld (fs w) p (now w) (artifacts w)).

Definition onPage (f : P → result exn P) : M P unit := λ w,
  match f (page w) with
  | Ok p => (Ok tt, mkWorld (fs w) p (now w) (artifacts w))
  | Throw e => (Throw e, w)
  end.

(** [await page.waitForTimeout(ms)] *)
Definition wait (ms : Z) : M P unit :=
  λ w, (Ok tt, mkWorld (fs w) (waitForTimeout ms (page w)) (now w + ms) (artifacts w)).

(** [await page.screenshot({ path, fullPage })] *)
Definition capture (path : string) (full : bool) : M P unit := λ w,
  match screenshot full (page w) with
  | Ok _ => (Ok tt, mkWorld (writeRaw path (fs w)) (page w) (now w) (artifacts w))
  | Throw e => (Throw e, w)
  end.

(** [artifacts.push({ ..., timestamp: Date.now() })] *)
Definition push (mk : Z → Artifact.t) : M P unit :=
  λ w, (Ok tt, mkWorld (fs w) (page w) (now w) (artifacts w ++ [mk (now w)])%list).

Definition onFiles {A} (f : files → A * files) : M P A := λ w,
  let '(a, fs') := f (fs w) in (Ok a, mkWorld fs' (page w) (now w) (artifacts w)).

Definition modifyFiles (f : files → files) : M P unit :=
  λ w, (Ok tt, mkWorld (f (fs w)) (page w) (now w) (artifacts w)).

Variable config : Config.
Variable tool : Transcoder.Tool.
Variable artifactsDir : string.

Definition artifactOf (k : Artifact.kind) (name path : string) (stepIndex : Z)
    (step : Step.t) (frames : option nat) (t : Z) : Artifact.t :=
  {| Artifact.type := k; Artifact.name := name; Artifact.path := path;
     Artifact.timestamp := t; Artifact.stepIndex := stepIndex;
     Artifact.stepName := Some (Step.name step); Artifact.frameCount := frames |}.

Definition screenshotPath (action : Action.t) : string :=
  join artifactsDir (strOr (Action.name action) "screenshot" ++ ".png").

(** The type tags the [switch] below has a [case] for. *)
Definition handled (tag : string) : bool :=
  existsb (String.eqb tag) ["screenshot"; "click"; "type"; "wait"; "navigate"].

(** The [switch (action.type)] that each of the three recording strategies
    contains. The three copies read alike, up to the page they drive and
    one more statement in the slideshow copy, which also pushes the path of
    an explicit screenshot on its frame list: the path is returned here for
    that purpose. There is no [default] case. *)
Definition switchAction (stepIndex : Z) (step : Step.t) (action : Action.t)
    : M P (option string) :=
  let tag := Action.type action in
  if String.eqb tag "screenshot" then
    let ssPath := screenshotPath action in
    capture ssPath (match Action.fullPage action with Some false => false | _ => true end);;
    push (artifactOf Artifact.screenshot (strOr (Action.name action) "Screenshot")
            ssPath stepIndex step None);;
    mret (Some ssPath)
  else if String.eqb tag "click" then
    onPage (click (Action.selector action));;
    wait (msOr (Action.waitAfter action) 500);;
    mret None
  else if String.eqb tag "type" then
    onPage (fill (Action.selector action) (Action.text action));;
    wait (msOr (Action.waitAfter action) 300);;
    mret None
  else if String.eqb tag "wait" then
    wait (msOr (Action.ms action) 1000);;
    mret None
  else if String.eqb tag "navigate" then
    match Action.url action with
    | None => throw TypeError
    | Some u =>
        onPage (goto (resolve (baseUrl config) u));;
        wait 500;;
        mret None
    end
  else mret None.

(** The action loop of the strategies without a frame list. *)
Fixpoint runActions (stepIndex : Z) (step : Step.t) (actions : list Action.t) : M P unit :=
  match actions with
  | [] => mret tt
  | action :: rest =>
      switchAction stepIndex step action;;
      runActions stepIndex step rest
  end.

(** [step.name.replace(/\s+/g, '-').toLowerCase()] *)
Definition fileStepName (step : Step.t) : string :=
  Str.toLowerCase (Str.dashSpaces false (Step.name step)).

Definition slidePath (stepName : string) (slideIndex : nat) : string :=
  join artifactsDir
    (stepName ++ "-slide-" ++ Str.padStart 3 "0"%char (Str.ofNat slideIndex) ++ ".png").

(** The action loop of slideshow mode: after every action one more numbered
    frame is captured and pushed on [slideshowScreenshots]. *)
Fixpoint slideshowActions (stepIndex : Z) (step : Step.t) (actions : list Action.t)
    (slideIndex : nat) (slideshowScreenshots : list string) : M P (list string) :=
  match actions with
  | [] => mret slideshowScreenshots
  | action :: rest =>
      explicit ← switchAction stepIndex step action;
      let shots :=
        match explicit with
        | Some ssPath => (slideshowScreenshots ++ [ssPath])%list
        | None => slideshowScreenshots
        end in
      let path := slidePath (fileStepName step) slideIndex in
      capture path false;;
      slideshowActions stepIndex step rest (S slideIndex) (shots ++ [path])%list
  end.

(** What the loop adds to the frame list, action by action: the path of
    an explicit screenshot, then the numbered frame. *)
Fixpoint framesOf (step : Step.t) (actions : list Action.t) (slideIndex : nat)
    : list string :=
  match actions with
  | [] => []
  | action :: rest =>
      ((if String.eqb (Action.type action) "screenshot" then [screenshotPath action] else [])
         ++ slidePath (fileStepName step) slideIndex :: framesOf step rest (S slideIndex))%list
  end.

(** The actions that are explicit screenshots. *)
Definition explicitShots (actions : list Action.t) : list Action.t :=
  List.filter (λ action, String.eqb (Action.type action) "screenshot") actions.

(** The record an explicit screenshot leaves in [artifacts], at some time. *)
Definition recorded (stepIndex : Z) (step : Step.t) (a : Artifact.t) (action : Action.t)
    : Prop :=
  ∃ t, a = artifactOf Artifact.screenshot (strOr (Action.name action) "Screenshot")
             (screenshotPath action) stepIndex step None t.

Definition stepUrl (step : Step.t) : M P string :=
  match Env.nonEmpty (Step.url step) with
  | Some u => mret (resolve (baseUrl config) u)
  | None => gets (λ w, pageUrl (page w))
  end.

(** The clean-up after a slideshow was assembled: of the paths on the frame
    list, those that contain [-slide-] are unlinked. *)
Definition cleanupSlides (slideshowScreenshots : list string) (files0 : files) : files :=
  fold_left (λ acc ssPath, if Str.includes "-slide-" ssPath then unlink ssPath acc else acc)
    slideshowScreenshots files0.

(** Slideshow mode of a recorded step; the result is [videoPath]. *)
Definition recordSlideshow (stepIndex : Z) (step : Step.t) : M P (option string) :=
  let stepName := fileStepName step in
  u ← stepUrl step;
  onPage (goto u);;
  wait 300;;
  let initialSsPath := slidePath stepName 0 in
  capture initialSsPath false;;
  shots ← match Step.actions step with
           | Some actions => slideshowActions stepIndex step actions 1 [initialSsPath]
           | None => mret [initialSsPath]
           end;
  match shots with
  | [] => mret None
  | _ :: _ =>
      let slideshowPath := join artifactsDir (stepName ++ "-slideshow.webm") in
      created ← onFiles (λ files0,
        Transcoder.createSlideshowFromScreenshots tool shots artifactsDir slideshowPath files0);
      if (created : bool) then
        push (artifactOf Artifact.slideshow (Step.name step) slideshowPath stepIndex step
                (Some (length shots)));;
        modifyFiles (cleanupSlides shots);;
        mret (Some slideshowPath)
      else mret None
  end.

(** [fs.readdir(artifactsDir)]: the first path segment below the directory
    of every file under it. *)
Fixpoint firstSegment (s : string) : string :=
  match s with
  | EmptyString => EmptyString
  | String c s' => if Ascii.eqb c "/"%char then EmptyString else String c (firstSegment s')
  end.

Definition entryOf (dir p : string) : option string :=
  let prefix := dir ++ "/" in
  if Str.startsWith prefix p
  then Some (firstSegment
               (String.substring (String.length prefix)
                  (String.length p - String.length prefix) p))
  else None.

Definition readdir (dir : string) (files0 : files) : list string :=
  omap (entryOf dir) (elements (dom files0)).

(** [.filter(f => f.endsWith('.webm')).sort().pop()]: the greatest name. *)
Definition latestVideo (files0 : files) : option string :=
  fold_right
    (λ f best,
       match best with
       | None => Some f
       | Some g => if String.ltb g f then Some f else Some g
       end)
    None (filter (λ f, Is_true (Str.endsWith ".webm" f)) (readdir artifactsDir files0)).

(** What follows [readdir] in full-video mode: conversion to GIF when the
    format asks for it, and the artifact that is recorded. *)
Definition finalizeVideo (stepIndex : Z) (step : Step.t) (latest : option string)
    : M P (option string) :=
  match latest with
  | None => mret None
  | Some file =>
      let videoPath := join artifactsDir file in
      if String.eqb (videoFormat config) "gif" then
        let gifPath := join artifactsDir (fileStepName step ++ ".gif") in
        converted ← onFiles (Transcoder.convertVideoToGif tool videoPath gifPath);
        if (converted : bool) then
          push (artifactOf Artifact.gif (Step.name step) gifPath stepIndex step None);;
          modifyFiles (unlink videoPath);;
          mret (Some videoPath)
        else
          push (artifactOf Artifact.video (Step.name step) videoPath stepIndex step None);;
          mret (Some videoPath)
      else
        push (artifactOf Artifact.video (Step.name step) videoPath stepIndex step None);;
        mret (Some videoPath)
  end.

(** [await videoContext.close()]: the recording is written out. *)
Definition closeRecording : M P unit := λ w,
  match recording (page w) with
  | Some file => (Ok tt, mkWorld (writeRaw (join artifactsDir file) (fs w)) (page w) (now w)
                           (artifacts w))
  | None => (Ok tt, w)
  end.

(** Full-video mode of a recorded step: a page of its own in a recording
    context, closed before the main page is used again. *)
Definition recordVideo (stepIndex : Z) (step : Step.t) : M P (option string) :=
  u ← stepUrl step;
  main ← gets page;
  setPage newPage;;
  onPage (goto u);;
  wait 500;;
  match Step.actions step with
  | Some actions => runActions stepIndex step actions
  | None => mret tt
  end;;
  closeRecording;;
  setPage main;;
  latest ← gets (λ w, latestVideo (fs w));
  finalizeVideo stepIndex step latest.

(** One iteration of the loop over [config.steps]. *)
Definition runStep (stepIndex : Z) (step : Step.t) : M P (option string) :=
  match Env.nonEmpty (Step.url step) with
  | Some u => onPage (goto (resolve (baseUrl config) u));; wait 500
  | None => mret tt
  end;;
  if Step.record step then
    if String.eqb (videoFormat config) "slideshow"
    then recordSlideshow stepIndex step
    else recordVideo stepIndex step
  else
    match Step.actions step with
    | Some actions => runActions stepIndex step actions
    | None => mret tt
    end;;
    mret None.

Fixpoint runSteps (stepIndex : Z) (steps : list Step.t) : M P unit :=
  match steps with
  | [] => mret tt
  | step :: rest => runStep stepIndex step;; runSteps (stepIndex + 1) rest
  end.

End Interpreter.

End Capture.

(** ** Description generator: [generateAIDescription] and the description
    phase of [runReview] *)

Module Describe.
Import Review.

(** An error raised by the generation service. *)
Record ServiceError : Type := { status : option Z; message : string }.

(** What one [generateText] call sends: model, prompt, and the images as
    (MIME type, path of the file that was encoded). *)
Record Request : Type := {
  model : string;
  prompt : string;
  imageParts : list (string * string)
}.

(** The service: the outcome of the n-th call made during the run. *)
Abbreviation Service := (nat → Request → result ServiceError string).

(** The calls made and the pauses taken so far, in milliseconds. *)
Record Session : Type := { calls : nat; slept : list Z }.

Definition G (A : Type) : Type := Session → result exn A * Session.

#[global] Instance G_ret : MRet G := λ A a s, (Ok a, s).

#[global] Instance G_bind : MBind G := λ A B k m s,
  match m s with
  | (Ok a, s') => k a s'
  | (Throw e, s') => (Throw e, s')
  end.

Definition fail {A} (e : exn) : G A := λ s, (Throw e, s).

(** [try { m } catch (error) { h(error) }] *)
Definition tryCatch {A} (m : G A) (h : exn → G A) : G A := λ s,
  match m s with
  | (Ok a, s') => (Ok a, s')
  | (Throw e, s') => h e s'
  end.

(** [await new Promise(resolve => setTimeout(resolve, ms))] *)
Definition sleep (ms : Z) : G unit :=
  λ s, (Ok tt, {| calls := calls s; slept := (slept s ++ [ms])%list |}).

(** [await generateText({...})], its outcome handed back as a value. *)
Definition generateText (service : Service) (request : Request)
    : G (result ServiceError string) :=
  λ s, (Ok (service (calls s) request), {| calls := S (calls s); slept := slept s |}).

(** [error.status === 429 || error.message.includes('rate limit')] *)
Definition isRateLimit (e : ServiceError) : bool :=
  match status e with
  | Some code => (code =? 429) || Str.includes "rate limit" (message e)
  | None => Str.includes "rate limit" (message e)
  end.

(** The [try]/[catch] around the service call at the end of
    [generateAIDescription]. *)
Definition attempt (service : Service) (request : Request) : G string :=
  first ← generateText service request;
  match first with
  | Ok text => mret text
  | Throw error =>
      if isRateLimit error then
        sleep 2000;;
        second ← generateText service request;
        match second with
        | Ok text => mret text
        | Throw retryError =>
            fail (Error ("AI generation failed after retry: " ++ message retryError))
        end
      else fail (Error ("AI generation failed: " ++ message error))
  end.

Definition newline : string := String "010"%char EmptyString.

(** The MIME type chosen from the extension of an image path. Every path
    the program passes is built with a [.png] suffix. *)
Definition mimeType (imgPath : string) : string :=
  let lower := Str.toLowerCase imgPath in
  if Str.endsWith ".png" lower then "image/png"
  else if Str.endsWith ".jpg" lower || Str.endsWith ".jpeg" lower then "image/jpeg"
  else "image/png".

(** The images that can be read, each with its MIME type; a file that
    cannot be read is skipped with a warning. *)
Definition readImages (files0 : Fs.files) (images : list string) : list (string * string) :=
  omap (λ imgPath, if Fs.exists_ imgPath files0 then Some (mimeType imgPath, imgPath) else None)
    images.

Definition buildPrompt (clientRequest stepContext : string) : string :=
  let clientRequestText :=
    if Str.isEmpty clientRequest then EmptyString
    else "Client Request: " ++ clientRequest ++ newline ++ newline in
  let stepContextText :=
    if Str.isEmpty stepContext then EmptyString
    else "Step Context: " ++ stepContext ++ newline ++ newline in
  "You are analyzing browser screenshots/video frames from a development review. "
    ++ newline ++ newline ++ clientRequestText ++ stepContextText
    ++ "Please analyze these images and provide a clear, friendly description that:"
    ++ newline ++ "1. Describes what is shown in the screenshots/frames"
    ++ newline ++ "2. Explains how it relates to the client's request (if provided)"
    ++ newline ++ "3. Highlights what was accomplished or demonstrated"
    ++ newline ++ newline
    ++ "Keep the description concise (2-3 sentences) and professional.".

Section Generator.
Variable env : Env.ProcessEnv.
Variable files0 : Fs.files.
Variable service : Service.
Variable config : Config.

(** [generateAIDescription(images, clientRequest, stepContext, config)] *)
Definition generateAIDescription (images : list string) (clientRequest stepContext : string)
    : G string :=
  match Env.getAPIKey env with
  | None =>
      fail (Error
        "No API key found. Set AI_GATEWAY_API_KEY or OPENAI_API_KEY environment variable.")
  | Some _ =>
      let imagesToAnalyze := firstn (natOr (maxScreenshotsPerStep config) 10) images in
      match readImages files0 imagesToAnalyze with
      | [] => fail (Error "No valid images to analyze")
      | parts =>
          attempt service
            {| model := strOr (aiModel config) "gpt-4o";
               prompt := buildPrompt clientRequest stepContext;
               imageParts := parts |}
      end
  end.

(** A frame extracted from a recording, tagged with its step. *)
Record ExtractedFrame : Type := {
  frame : Transcoder.Frame;
  frameStepIndex : Z;
  frameStepName : option string;
  sourceArtifact : string
}.

(** An entry of [descriptions.steps]; [None] is [null]. *)
Record StepDescription : Type := {
  stepIndex : Z;
  stepName : string;
  stepText : option string
}.

(** The [descriptions] object. *)
Record Descriptions : Type := {
  description : option string;
  bundleClientRequest : option string;
  bundleTaskUrl : option string;
  steps : list StepDescription;
  bundleModel : string
}.

Variable artifacts : list Artifact.t.
Variable extractedFrames : list ExtractedFrame.

Definition isScreenshot (a : Artifact.t) : bool :=
  match Artifact.type a with Artifact.screenshot => true | _ => false end.

(** The paths of the screenshots of a step, then of the frames extracted
    for it, as [artifactsByStep] groups them, cut to the image budget. *)
Definition stepImages (i : Z) : list string :=
  let shots :=
    List.filter (λ a, (Artifact.stepIndex a =? i) && isScreenshot a) artifacts in
  let frames := List.filter (λ f, frameStepIndex f =? i) extractedFrames in
  firstn (natOr (maxScreenshotsPerStep config) 10)
    (map Artifact.path shots ++ map (λ f, Transcoder.path (frame f)) frames)%list.

(** [step.description || null] *)
Definition manualOrNull (step : Step.t) : option string :=
  Env.nonEmpty (Step.description step).

Definition isSome {A} (o : option A) : bool :=
  match o with Some _ => true | None => false end.

Definition entry (i : Z) (step : Step.t) (text : option string) : StepDescription :=
  {| stepIndex := i; stepName := Step.name step; stepText := text |}.

(** The body of the loop that fills [descriptions.steps]. *)
Definition describeStep (i : Z) (step : Step.t) : G StepDescription :=
  if isSome (manualOrNull step) && negb (forceAI config)
  then mret (entry i step (Step.description step))
  else
    match stepImages i with
    | [] => mret (entry i step (manualOrNull step))
    | images =>
        tryCatch
          (text ← generateAIDescription images (strOr (clientRequest config) EmptyString)
                    ("Step: " ++ Step.name step);
           mret (entry i step (Some text)))
          (λ _, mret (entry i step (manualOrNull step)))
    end.

Fixpoint describeSteps (i : Z) (steps0 : list Step.t) : G (list StepDescription) :=
  match steps0 with
  | [] => mret []
  | step :: rest =>
      d ← describeStep i step;
      ds ← describeSteps (i + 1) rest;
      mret (d :: ds)
  end.

(** The overall description: generated from up to five screenshots of the
    whole run when none was given; a failure is only warned about. *)
Definition describeOverall (current : option string) : G (option string) :=
  match Env.nonEmpty current with
  | Some _ => mret current
  | None =>
      match firstn 5 (map Artifact.path
                        (List.filter isScreenshot artifacts)) with
      | [] => mret current
      | allImages =>
          tryCatch
            (text ← generateAIDescription allImages (strOr (clientRequest config) EmptyString)
                      ("Overall review: " ++ title config);
             mret (Some text))
            (λ _, mret current)
      end
  end.

(** The description phase of [runReview], up to the saving of the cache. *)
Definition generateDescriptions : G Descriptions :=
  ds ← match Review.steps config with
        | Some steps0 => describeSteps 0 steps0
        | None => mret []
        end;
  overall ← describeOverall (Env.nonEmpty (Review.description config));
  mret {| description := overall;
          bundleClientRequest := Env.nonEmpty (clientRequest config);
          bundleTaskUrl := Env.nonEmpty (clientflowTaskUrl config);
          steps := ds;
          bundleModel := strOr (aiModel config) "gpt-4o" |}.

End Generator.

End Describe.

(** ** A deterministic browser, to run the pipeline on concrete inputs *)

Module Sim.

Record Page : Type := {
  location : string;
  scroll : Z * Z;
  filled : list (string * string)
}.

Definition blank : Page :=
  {| location := "about:blank"; scroll := (0, 0); filled := [] |}.

Definition simClick (sel : option string) (p : Page) : result exn Page :=
  match sel with
  | Some _ => Ok p
  | None => Throw (Error "selector: expected string")
  end.

Definition simFill (sel text : option string) (p : Page) : result exn Page :=
  match sel, text with
  | Some s, Some t =>
      Ok {| location := location p; scroll := scroll p; filled := (s, t) :: filled p |}
  | _, _ => Throw (Error "fill: expected string")
  end.

#[global] Instance api : Capture.PageApi Page := {|
  Capture.newPage := blank;
  Capture.goto := λ u _, Ok {| location := u; scroll := (0, 0); filled := [] |};
  Capture.click := simClick;
  Capture.fill := simFill;
  Capture.waitForTimeout := λ _ p, p;
  Capture.screenshot := λ _ _, Ok tt;
  Capture.pageUrl := location;
  Capture.recording := λ _, Some "page@recording.webm";
  Capture.scrollPosition := scroll
|}.

Definition world (files0 : Fs.files) : Capture.World Page :=
  Capture.mkWorld files0 blank 0 [].

End Sim.

(** ** Sample inputs *)

Module Samples.
Import Js.

(** The configuration a plain command line produces: the defaults plus a
    title and a URL. *)
Definition cliConfig : obj :=
  setField "url" (JStr "https://ex.test/")
    (setField "title" (JStr "T")
       (Config.DEFAULT_CONFIG "http://localhost:7777" "review-reports")).

(** A description bundle as the description phase builds it, and one whose
    [model] is the empty string. *)
Definition bundle : obj :=
  [ ("description", JStr "The submit button is now centred.");
    ("clientRequest", JStr "Centre the submit button");
    ("clientflowTaskUrl", JNull);
    ("steps", JArr [JObj [("stepIndex", Config.num 0); ("stepName", JStr "S");
                          ("description", JStr "The form before and after.")]]);
    ("model", JStr "gpt-4o-mini") ].

Definition bundleNoModel : obj :=
  [ ("description", JStr "Done."); ("steps", JArr []); ("model", JStr EmptyString) ].

Definition noKeys : Env.ProcessEnv :=
  {| Env.OPENAI_API_KEY := None; Env.AI_GATEWAY_API_KEY := None |}.

Definition directKey : Env.ProcessEnv :=
  {| Env.OPENAI_API_KEY := Some "sk-test"; Env.AI_GATEWAY_API_KEY := None |}.

(** A review of two steps, a screenshot captured for the first, and a
    generation service that is down. *)
Definition action (tag : string) (name selector : option string) : Action.t :=
  {| Action.type := tag; Action.name := name; Action.fullPage := None;
     Action.selector := selector; Action.text := None; Action.waitAfter := None;
     Action.ms := None; Action.url := None; Action.x := None; Action.y := None |}.

Definition step (name : string) (actions : list Action.t) : Step.t :=
  {| Step.name := name; Step.url := None; Step.record := true;
     Step.actions := Some actions; Step.description := None |}.

Definition review (format : string) (steps : list Step.t) : Review.Config :=
  {| Review.title := "T"; Review.baseUrl := "http://localhost:7777";
     Review.outputDir := "review-reports"; Review.videoFormat := format;
     Review.gifQuality := Some "medium"; Review.useAI := Some true;
     Review.forceAI := false; Review.aiModel := Some "gpt-4o";
     Review.maxScreenshotsPerStep := Some 10%nat; Review.description := None;
     Review.clientRequest := None; Review.clientflowTaskUrl := None;
     Review.steps := Some steps |}.

Definition hover : Action.t := action "hover" None (Some "#menu").

Definition scrollTo (x y : Z) : Action.t :=
  {| Action.type := "scroll"; Action.name := None; Action.fullPage := None;
     Action.selector := None; Action.text := None; Action.waitAfter := None;
     Action.ms := None; Action.url := None; Action.x := Some x; Action.y := Some y |}.

Definition artifactsDir : string := "review-reports/artifacts".

(** A transcoder that is missing, and one for which every run succeeds. *)
Definition noTool : Transcoder.Tool :=
  {| Transcoder.available := false;
     Transcoder.paletteRuns := λ _ _, false;
     Transcoder.gifRuns := λ _ _ _, false;
     Transcoder.concatRuns := λ _ _, false;
     Transcoder.probe := λ _, None;
     Transcoder.grabRuns := λ _ _, false |}.

Definition goodTool : Transcoder.Tool :=
  {| Transcoder.available := true;
     Transcoder.paletteRuns := λ _ _, true;
     Transcoder.gifRuns := λ _ _ _, true;
     Transcoder.concatRuns := λ _ _, true;
     Transcoder.probe := λ _, Some (24 # 10)%Q;
     Transcoder.grabRuns := λ _ _, true |}.

(** The recorded step of the end-to-end scenario. *)
Definition scenario : Step.t :=
  step "S" [ action "screenshot" (Some "before") None;
             action "click" None (Some "#go");
             action "screenshot" (Some "after") None ].

(** A step with a screenshot whose name contains the frame marker. *)
Definition marked : Step.t :=
  step "S" [ action "screenshot" (Some "menu-slide-open") None ].

Definition firstStep : Step.t := step "Open form" [action "screenshot" (Some "before") None].
Definition secondStep : Step.t := step "Submit" [action "click" None (Some "#go")].

Definition captured : list Artifact.t :=
  [ {| Artifact.type := Artifact.screenshot; Artifact.name := "before";
       Artifact.path := "review-reports/artifacts/before.png"; Artifact.timestamp := 0;
       Artifact.stepIndex := 0; Artifact.stepName := Some "Open form";
       Artifact.frameCount := None |} ].

Definition stored : Fs.files := {[ "review-reports/artifacts/before.png" := Fs.Raw ]}.

Definition serviceDown : Describe.Service :=
  λ _ _, Throw {| Describe.status := Some 500; Describe.message := "upstream unavailable" |}.

Definition fresh : Describe.Session := {| Describe.calls := 0; Describe.slept := [] |}.

End Samples.

(** ** Command line: [parseArgs] and the checks of [main] *)

Module Cli.
Import Js Config.

(** How argument parsing ends: with a configuration, with
    [process.exit(0)] after the help text, or with an exception. *)
Inductive outcome : Type :=
| Parsed (config : obj)
| Exit0
| Raised (e : exn).

(** The own enumerable properties [Object.assign] copies from an array or
    a string: the indices. *)
Definition indexed (values : list json) : obj :=
  combine (map Str.ofNat (seq 0 (length values))) values.

Fixpoint chars (s : string) : list json :=
  match s with
  | EmptyString => []
  | String c s' => JStr (String c EmptyString) :: chars s'
  end.

(** [Object.assign(config, configData)] for parsed JSON data. *)
Definition assignData (config : obj) (configData : json) : obj :=
  match configData with
  | JObj o => assign config o
  | JArr items => assign config (indexed items)
  | JStr s => assign config (indexed (chars s))
  | JNull | JBool _ | JNum _ => config
  end.

Section Parsing.

(** Whether [new URL(x)] accepts the value. *)
Variable urlParses : json → bool.
(** The files a [--config] option can name. *)
Variable files0 : Fs.files.
(** The text of the parser's complaint about a file that is not JSON. *)
Variable syntaxMessage : string → string.

(** The loop of [parseArgs] from a given configuration on. *)
Fixpoint parseFrom (config : obj) (args : list string) : outcome :=
  match args with
  | [] => Parsed config
  | arg :: rest =>
      if String.eqb arg "--title" then
        match rest with
        | [] => Raised (Error "--title requires a value")
        | value :: rest' =>
            if Str.isEmpty (Str.trim value) then Raised (Error "--title cannot be empty")
            else parseFrom (setField "title" (JStr value) config) rest'
        end
      else if String.eqb arg "--url" then
        match rest with
        | [] => Raised (Error "--url requires a value")
        | value :: rest' =>
            if urlParses (JStr value)
            then parseFrom (setField "url" (JStr value) config) rest'
            else Raised (Error ("--url must be a valid URL: " ++ value))
        end
      else if String.eqb arg "--config" then
        match rest with
        | [] => Raised (Error "--config requires a file path")
        | configFile :: rest' =>
            match files0 !! configFile with
            | None => Raised (Error ("Config file not found: " ++ configFile))
            | Some Fs.Raw =>
                Raised (Error ("Invalid JSON in config file " ++ configFile ++ ": "
                                 ++ syntaxMessage configFile))
            | Some (Fs.Json configData) => parseFrom (assignData config configData) rest'
            end
        end
      else if String.eqb arg "--base-url" then
        match rest with
        | [] => Raised (Error "--base-url requires a value")
        | value :: rest' =>
            if urlParses (JStr value)
            then parseFrom (setField "baseUrl" (JStr value) config) rest'
            else Raised (Error ("--base-url must be a valid URL: " ++ value))
        end
      else if String.eqb arg "--output" then
        match rest with
        | [] => Raised (Error "--output requires a directory path")
        | value :: rest' => parseFrom (setField "outputDir" (JStr value) config) rest'
        end
      else if String.eqb arg "--format" then
        match rest with
        | [] => Raised (Error "--format requires a value")
        | value :: rest' =>
            if existsb (String.eqb value) ["slideshow"; "webm"; "gif"]
            then parseFrom (setField "videoFormat" (JStr value) config) rest'
            else Raised (Error ("--format must be " ++ Str.dquote ++ "slideshow" ++ Str.dquote
                                  ++ ", " ++ Str.dquote ++ "webm" ++ Str.dquote ++ ", or "
                                  ++ Str.dquote ++ "gif" ++ Str.dquote))
        end
      else if String.eqb arg "--description" then
        match rest with
        | [] => Raised (Error "--description requires a value")
        | value :: rest' => parseFrom (setField "description" (JStr value) config) rest'
        end
      else if String.eqb arg "--client-request" then
        match rest with
        | [] => Raised (Error "--client-request requires a value")
        | value :: rest' => parseFrom (setField "clientRequest" (JStr value) config) rest'
        end
      else if String.eqb arg "--clientflow-url" then
        match rest with
        | [] => Raised (Error "--clientflow-url requires a value")
        | value :: rest' =>
            if urlParses (JStr value)
            then parseFrom (setField "clientflowTaskUrl" (JStr value) config) rest'
            else Raised (Error ("--clientflow-url must be a valid URL: " ++ value))
        end
      else if String.eqb arg "--no-ai" then
        parseFrom (setField "useAI" (JBool false) config) rest
      else if String.eqb arg "--ai-provider" then
        match rest with
        | [] => Raised (Error "--ai-provider requires a value")
        | value :: rest' => parseFrom (setField "aiProvider" (JStr value) config) rest'
        end
      else if String.eqb arg "--ai-model" then
        match rest with
        | [] => Raised (Error "--ai-model requires a value")
        | value :: rest' => parseFrom (setField "aiModel" (JStr value) config) rest'
        end
      else if String.eqb arg "--force-ai" then
        parseFrom (setField "forceAI" (JBool true) config) rest
      else if String.eqb arg "--help" then Exit0
      else if Str.startsWith "-" arg then Raised (Error ("Unknown option: " ++ arg))
      else Raised (Error ("Unexpected argument: " ++ arg))
  end.

(** What the loop has checked of the values it stored: the format is one
    of the three names, and the title, the URL and the task URL, when
    present, passed their tests. *)
Definition checked (config : obj) : Prop :=
  (∃ format, field "videoFormat" config = Some (JStr format)
             ∧ In format ["slideshow"; "webm"; "gif"])
  ∧ (∀ t, field "title" config = Some t →
       ∃ s, t = JStr s ∧ Str.isEmpty (Str.trim s) = false)
  ∧ (∀ u, field "url" config = Some u → urlParses u = true)
  ∧ (∀ u, field "clientflowTaskUrl" config = Some u → urlParses u = true).

(** [parseArgs], for the arguments after the script name; [baseUrl] and
    [outputDir] are the defaults taken from the environment. *)
Definition parseArgs (baseUrl outputDir : string) (args : list string) : outcome :=
  parseFrom (DEFAULT_CONFIG baseUrl outputDir) args.

(** What [main] does before the review starts: parse, then validate; an
    exception ends the process with status 1. *)
Definition mainChecks (baseUrl outputDir : string) (args : list string) : outcome :=
  match parseArgs baseUrl outputDir args with
  | Parsed config =>
      match validateConfig urlParses config with
      | Ok _ => Parsed config
      | Throw e => Raised e
      end
  | Exit0 => Exit0
  | Raised e => Raised e
  end.

End Parsing.

End Cli.

(** ** What [validateConfig] asks of a title and of a step *)

Module Accepts.
Import Js.

(** A string made of white space only (the empty string included). *)
Fixpoint blank (s : string) : bool :=
  match s with
  | EmptyString => true
  | String c s' => Str.isSpace c && blank s'
  end.

(** A step the loop over [config.steps] lets through: an object whose
    [name] is a non-empty string and whose [actions], when truthy, is an
    array. *)
Definition stepAccepted (step : json) : bool :=
  match step with
  | JObj o =>
      truthy (field "name" o) && isString (field "name" o)
      && negb (truthy (field "actions" o) && negb (isArray (field "actions" o)))
  | _ => false
  end.

End Accepts.

(** ** The capture phase of [runReview]: single-URL mode, then the steps *)

Module Run.
Import Fs Review Capture.

(** A computation that only appends to [artifacts], and only artifacts of
    steps [lo <= stepIndex < hi], whether it ends normally or throws. *)
Definition appendsOnly {P A : Type} (lo hi : Z) (m : M P A) : Prop :=
  ∀ w r w', m w = (r, w') →
    ∃ added, artifacts w' = (artifacts w ++ added)%list
             ∧ Forall (λ a, lo <= Artifact.stepIndex a < hi) added.

Section Phase.
Context {P : Type} `{PageApi P}.
(** [error.message] of an exception raised by the browser. *)
Variable messageOf : exn → string.
Variable config : Config.
Variable tool : Transcoder.Tool.
Variable artifactsDir : string.

(** [try { await f } catch (error) { throw new Error(prefix + error.message) }] *)
Definition rethrow {A} (prefix : string) (m : M P A) : M P A := λ w,
  match m w with
  | (Ok a, w') => (Ok a, w')
  | (Throw e, w') => (Throw (Error (prefix ++ messageOf e)), w')
  end.

(** The artifact of single-URL mode. *)
Definition pageScreenshot (path : string) (t : Z) : Artifact.t :=
  {| Artifact.type := Artifact.screenshot; Artifact.name := "Page Screenshot";
     Artifact.path := path; Artifact.timestamp := t; Artifact.stepIndex := -1;
     Artifact.stepName := None; Artifact.frameCount := None |}.

(** [if (config.url) { ... }]: load the page, let it settle, capture it. *)
Definition reviewUrl (url : option string) : M P unit :=
  match Env.nonEmpty url with
  | None => mret tt
  | Some u =>
      rethrow ("Failed to load URL " ++ u ++ ": ") (onPage (goto u));;
      wait 1000;;
      let screenshotPath := join artifactsDir "review-screenshot.png" in
      rethrow "Failed to capture screenshot: "
        (capture screenshotPath true;; push (pageScreenshot screenshotPath))
  end.

(** The part of [runReview] that drives the browser: the single URL if
    any, then the steps if any. *)
Definition capturePhase (url : option string) : M P unit :=
  reviewUrl url;;
  match Review.steps config with
  | Some steps => runSteps config tool artifactsDir 0 steps
  | None => mret tt
  end.

End Phase.

End Run.

(** ** [runReview], after the capture: frames, descriptions, cleanup *)

Module Post.
Import Js Fs Review Describe.

(** [artifact.type === 'video' || artifact.type === 'gif' ||
    artifact.type === 'slideshow'] *)
Definition isRecording (a : Artifact.t) : bool :=
  match Artifact.type a with
  | Artifact.video | Artifact.gif | Artifact.slideshow => true
  | Artifact.screenshot => false
  end.

(** [config.useAI !== false] *)
Definition aiEnabled (config : Config) : bool :=
  match useAI config with
  | Some false => false
  | Some true | None => true
  end.

(** [x || null] as it is serialised. *)
Definition orNull (text : option string) : json :=
  match text with
  | Some t => JStr t
  | None => JNull
  end.

(** The [descriptions] object as a JSON value. *)
Definition stepJson (d : StepDescription) : json :=
  JObj [ ("stepIndex", Config.num (stepIndex d));
         ("stepName", JStr (stepName d));
         ("description", orNull (stepText d)) ].

Definition toObj (d : Descriptions) : obj :=
  [ ("description", orNull (description d));
    ("clientRequest", orNull (bundleClientRequest d));
    ("clientflowTaskUrl", orNull (bundleTaskUrl d));
    ("steps", JArr (map stepJson (steps d)));
    ("model", JStr (bundleModel d)) ].

Section Phase.
(** [p => path.basename(p, path.extname(p))] *)
Variable stem : string → string.
Variable tool : Transcoder.Tool.
Variable env : Env.ProcessEnv.
Variable service : Service.
(** [new Date().toISOString()] at the time of saving, and whether the
    cache file can be written. *)
Variable nowIso : string.
Variable writable : bool.
Variable config : Config.

Definition artifactsDir : string := join (outputDir config) "artifacts".

(** [{ ...frame, stepIndex: artifact.stepIndex, stepName: artifact.stepName,
    sourceArtifact: artifact.name }] *)
Definition tag (a : Artifact.t) (f : Transcoder.Frame) : ExtractedFrame :=
  {| frame := f;
     frameStepIndex := Artifact.stepIndex a;
     frameStepName := Artifact.stepName a;
     sourceArtifact := Artifact.name a |}.

(** The loop over the artifacts that fills [extractedFrames]. *)
Fixpoint extractFrom (artifacts : list Artifact.t) (fs : files)
    : list ExtractedFrame * files :=
  match artifacts with
  | [] => ([], fs)
  | a :: rest =>
      if isRecording a
      then
        let '(frames, fs1) :=
          Transcoder.extractVideoFrames tool (Artifact.path a) artifactsDir
            (stem (Artifact.path a)) 3 fs in
        let '(more, fs2) := extractFrom rest fs1 in
        (map (tag a) frames ++ more, fs2)%list
      else extractFrom rest fs
  end.

Definition extractPhase (artifacts : list Artifact.t) (fs : files)
    : list ExtractedFrame * files :=
  if aiEnabled config then extractFrom artifacts fs else ([], fs).

(** The cache lookup and the generation: the [descriptions] value handed
    to the report ([null] when there is none), the files and the session
    afterwards. The [catch] of the generation block is never entered:
    every call that can fail inside it has a handler of its own, and
    [generateDescriptions] returns on every input (lemma
    [descriptions_total]). The [Throw] branch below only completes the
    match. *)
Definition describePhase (artifacts : list Artifact.t) (frames : list ExtractedFrame)
    (fs : files) (s : Session) : json * files * Session :=
  let cached :=
    if forceAI config then JNull else Cache.loadCachedDescriptions fs (outputDir config) in
  if aiEnabled config && (negb (truthy (Some cached)) || forceAI config)
  then
    match Env.getAPIKey env with
    | None => (cached, fs, s)
    | Some _ =>
        match generateDescriptions env fs service config artifacts frames s with
        | (Ok d, s') =>
            (JObj (toObj d),
             Cache.saveCachedDescriptions env nowIso writable fs (outputDir config) (toObj d),
             s')
        | (Throw _, s') => (cached, fs, s')
        end
    end
  else (cached, fs, s).

(** [for (const frame of extractedFrames) await fs.unlink(frame.path)] *)
Definition cleanupFrames (frames : list ExtractedFrame) (fs : files) : files :=
  fold_left (λ acc f, unlink (Transcoder.path (frame f)) acc) frames fs.

(** From the end of the capture to the call of [generateHTMLReport]. *)
Definition afterCapture (artifacts : list Artifact.t) (fs : files) (s : Session)
    : json * files * Session :=
  let '(frames, fs1) := extractPhase artifacts fs in
  let '(descriptions, fs2, s') := describePhase artifacts frames fs1 s in
  (descriptions, cleanupFrames frames fs2, s').

End Phase.

End Post.

(** ** [generateHTMLReport]: which artifacts go where *)

Module Report.

(** A key of [artifactsByStep]: a step index, or ['none']. *)
Inductive key : Type := StepKey (i : Z) | NoStep.

Definition key_eqb (a b : key) : bool :=
  match a, b with
  | StepKey i, StepKey j => (i =? j)%Z
  | NoStep, NoStep => true
  | _, _ => false
  end.

(** [artifact.stepIndex !== undefined && artifact.stepIndex >= 0
      ? artifact.stepIndex : 'none'] *)
Definition stepKey (a : Artifact.t) : key :=
  if (0 <=? Artifact.stepIndex a)%Z then StepKey (Artifact.stepIndex a) else NoStep.

(** A [Map] keeps its keys in the order of their first insertion.
    [if (!m.has(k)) m.set(k, []); m.get(k).push(a)] *)
Fixpoint push (k : key) (a : Artifact.t) (m : list (key * list Artifact.t))
    : list (key * list Artifact.t) :=
  match m with
  | [] => [(k, [a])]
  | (k', group) :: m' =>
      if key_eqb k k' then (k', (group ++ [a])%list) :: m'
      else (k', group) :: push k a m'
  end.

Definition artifactsByStep (artifacts : list Artifact.t) : list (key * list Artifact.t) :=
  fold_left (λ m a, push (stepKey a) a m) artifacts [].

Definition isScreenshot (a : Artifact.t) : bool :=
  match Artifact.type a with Artifact.screenshot => true | _ => false end.

(** [artifacts.filter(a => a.type === 'screenshot')] and its counterpart
    for recordings, used for the summary and inside each step section. *)
Definition screenshots (artifacts : list Artifact.t) : list Artifact.t :=
  List.filter isScreenshot artifacts.

Definition videos (artifacts : list Artifact.t) : list Artifact.t :=
  List.filter Post.isRecording artifacts.




(** [artifactsByStep.get('none')], [undefined] when absent. *)
Fixpoint get (k : key) (m : list (key * list Artifact.t)) : option (list Artifact.t) :=
  match m with
  | [] => None
  | (k', group) :: m' => if key_eqb k k' then Some group else get k m'
  end.

End Report.

(** ** Further sample inputs *)

Module Examples.

(** A step that comes with its own description. *)
Definition described (name text : string) : Step.t :=
  {| Step.name := name; Step.url := None; Step.record := true;
     Step.actions := Some []; Step.description := Some text |}.

(** A review whose steps and overall description are all written by hand. *)
Definition handWritten : Review.Config :=
  {| Review.title := "T"; Review.baseUrl := "http://localhost:7777";
     Review.outputDir := "review-reports"; Review.videoFormat := "gif";
     Review.gifQuality := Some "medium"; Review.useAI := Some true;
     Review.forceAI := false; Review.aiModel := None;
     Review.maxScreenshotsPerStep := None; Review.description := Some "Two screens.";
     Review.clientRequest := None; Review.clientflowTaskUrl := None;
     Review.steps := Some [described "Open form" "The empty form.";
                           described "Submit" "The confirmation."] |}.

(** A service that answers every request, and one that refuses a request
    without images. *)
Definition serviceUp : Describe.Service := λ _ _, Ok "A form.".

Definition servicePicky : Describe.Service :=
  λ _ r, match Describe.imageParts r with
         | [] => Throw {| Describe.status := Some 400; Describe.message := "no image" |}
         | _ :: _ => Ok "A form."
         end.

End Examples.

(** * Properties *)

(** ** Strings *)

Module StrFacts.
Import Str.

Lemma startsWith_refl_app m b : startsWith m (m ++ b) = true.
Proof.
  induction m as [|c m IH]; simpl; [reflexivity|].
  rewrite Ascii.eqb_refl. exact IH.
Qed.



Lemma includes_app_r m a s : includes m s = true → includes m (a ++ s) = true.
Proof.
  intros Hs. induction a as [|d a IH]; simpl; [exact Hs|].
  rewrite IH. apply orb_true_r.
Qed.

(** A string built around a marker contains it. *)
Lemma includes_around m a b : includes m (a ++ m ++ b) = true.
Proof.
  apply includes_app_r. destruct (m ++ b) eqn:E.
  - destruct m; [reflexivity | discriminate].
  - rewrite <- E. simpl.
    assert (H : startsWith m (m ++ b) = true) by apply startsWith_refl_app.
    rewrite E in *. simpl in *. destruct m; simpl in *; [reflexivity|].
    rewrite H. reflexivity.
Qed.

Lemma startsWith_sep m c a b :
  occurs c m = false → startsWith m (a ++ String c b) = startsWith m a.
Proof.
  revert a. induction m as [|d m IH]; intros a Hc; [reflexivity|].
  simpl in Hc. apply orb_false_iff in Hc as [Hd Hm].
  destruct a as [|e a]; simpl.
  - rewrite Ascii.eqb_sym, Hd. reflexivity.
  - rewrite (IH a Hm). reflexivity.
Qed.

(** A marker cannot straddle a character it does not contain. *)
Lemma includes_sep m c a b :
  m ≠ EmptyString → occurs c m = false →
  includes m (a ++ String c b) = includes m a || includes m b.
Proof.
  intros Hm Hc. induction a as [|e a IH].
  - simpl. destruct m as [|d m]; [congruence|].
    simpl in Hc. apply orb_false_iff in Hc as [Hd _].
    simpl. rewrite Ascii.eqb_sym, Hd. reflexivity.
  - change (String e a ++ String c b) with (String e (a ++ String c b)).
    cbn [includes]. rewrite IH.
    change (String e (a ++ String c b)) with (String e a ++ String c b).
    rewrite (startsWith_sep _ _ _ _ Hc). rewrite orb_assoc. reflexivity.
Qed.

Lemma append_inj_l a x y : a ++ x = a ++ y → x = y.
Proof.
  induction a as [|c a IH]; simpl; intros E; [exact E|].
  injection E as E. auto.
Qed.

Lemma append_assoc a b c : (a ++ b) ++ c = a ++ (b ++ c).
Proof.
  induction a as [|d a IH]; [reflexivity|].
  change (String d ((a ++ b) ++ c) = String d (a ++ b ++ c)). now rewrite IH.
Qed.

End StrFacts.

(** ** Configuration validation *)

Module ConfigFacts.
Import Js Config.

Lemma check_fires message : check true message = Throw (Error message).
Proof. reflexivity. Qed.

Lemma slideshow_not_accepted :
  truthy (Some (JStr "slideshow")) && negb (oneOf ["gif"; "webm"] (Some (JStr "slideshow")))
  = true.
Proof. reflexivity. Qed.

(** The option tests stop at [videoFormat] when it holds ["slideshow"]. *)
Lemma validateOptions_slideshow urlParses config :
  field "videoFormat" config = Some (JStr "slideshow") →
  validateOptions urlParses config = Throw (Error videoFormatMessage).
Proof.
  intros Hfmt. unfold validateOptions. rewrite Hfmt, slideshow_not_accepted.
  reflexivity.
Qed.

(** Claim C2. Every configuration whose [videoFormat] is ["slideshow"] -
    the value [DEFAULT_CONFIG] carries - is rejected by [validateConfig]:
    the function throws, and when the title, url/steps and step tests pass
    the exception is the one of the [videoFormat] test, which accepts only
    ["gif"] and ["webm"]. *)
Theorem validateConfig_rejects_slideshow urlParses config :
  field "videoFormat" config = Some (JStr "slideshow") →
  (∃ e, validateConfig urlParses config = Throw e) ∧
  (validateShape config = Ok tt →
   validateConfig urlParses config = Throw (Error videoFormatMessage)) ∧
  (∀ baseUrl outputDir,
     field "videoFormat" (DEFAULT_CONFIG baseUrl outputDir) = Some (JStr "slideshow")).
Proof.
  intros Hfmt. unfold validateConfig. split; [|split].
  - destruct (validateShape config) as [[]|e]; simpl.
    + eexists. apply validateOptions_slideshow, Hfmt.
    + eexists. reflexivity.
  - intros Hshape. rewrite Hshape. simpl. apply validateOptions_slideshow, Hfmt.
  - reflexivity.
Qed.

(** Which values pass the [videoFormat] test: the falsy ones and the two
    listed strings. *)
Lemma videoFormat_test (x : option json) :
  truthy x && negb (oneOf ["gif"; "webm"] x) = false
  ↔ truthy x = false ∨ x = Some (JStr "gif") ∨ x = Some (JStr "webm").
Proof.
  split.
  - intros Htest. destruct (truthy x) eqn:Ht; [|now left]. right.
    simpl in Htest. apply negb_false_iff in Htest.
    destruct x as [[| | |s| |]|]; try discriminate. simpl in Htest.
    rewrite orb_false_r in Htest. apply orb_true_iff in Htest as [E|E];
      apply String.eqb_eq in E; subst; auto.
  - intros [Ht|[->| ->]]; [now rewrite Ht | reflexivity | reflexivity].
Qed.

(** A configuration [validateConfig] accepts never selects the slideshow
    strategy: [main] validates before it runs the review. *)
Lemma accepted_is_not_slideshow urlParses config :
  validateConfig urlParses config = Ok tt →
  field "videoFormat" config ≠ Some (JStr "slideshow").
Proof.
  intros Hok Hfmt. unfold validateConfig in Hok.
  destruct (validateShape config) as [[]|e]; [|discriminate]. simpl in Hok.
  now rewrite validateOptions_slideshow in Hok.
Qed.

Lemma validateConfig_rejects_slideshow_witness :
  validateConfig (λ _, true) Samples.cliConfig = Throw (Error videoFormatMessage).
Proof.
  apply (validateConfig_rejects_slideshow (λ _, true) Samples.cliConfig); reflexivity.
Defined.

End ConfigFacts.

(** ** Frame sampling *)

Module TranscoderFacts.
Import Transcoder.
Local Open Scope Q_scope.











End TranscoderFacts.

(** ** Description cache *)

Module CacheFacts.
Import Js Cache.

Lemma field_setField_eq k v o : field k (setField k v o) = Some v.
Proof.
  induction o as [|[k' v'] o IH]; simpl.
  - now rewrite String.eqb_refl.
  - destruct (String.eqb k k') eqn:E; simpl; rewrite ?String.eqb_refl, ?E; auto.
Qed.

Lemma field_setField_ne k k' v o : k ≠ k' → field k (setField k' v o) = field k o.
Proof.
  intros Hne. induction o as [|[k1 v1] o IH]; simpl.
  - apply String.eqb_neq in Hne. now rewrite Hne.
  - destruct (String.eqb k' k1) eqn:E; simpl.
    + apply String.eqb_eq in E. subst k1.
      apply String.eqb_neq in Hne. now rewrite Hne.
    + destruct (String.eqb k k1); auto.
Qed.

(** Reading back what was just saved gives the saved object. *)
Lemma load_after_save env nowIso files0 outputDir descriptions :
  loadCachedDescriptions
    (saveCachedDescriptions env nowIso true files0 outputDir descriptions) outputDir
  = JObj (cacheData env nowIso descriptions).
Proof.
  unfold loadCachedDescriptions, saveCachedDescriptions.
  now rewrite lookup_insert_eq.
Qed.

(** Claim C6, as the code has it. After a successful save, loading returns
    the bundle with three properties set by the save - [generatedAt] (the
    time of the save), [apiKeyType] (the kind of credential, or
    ["unknown"]) and [model] (the bundle's own when truthy, ["gpt-4o"]
    otherwise) - and every other property as the bundle has it. *)
Theorem cache_round_trip env nowIso files0 outputDir (descriptions : obj) :
  ∃ loaded,
    loadCachedDescriptions
      (saveCachedDescriptions env nowIso true files0 outputDir descriptions) outputDir
    = JObj loaded
    ∧ (∀ k, k ≠ "generatedAt" → k ≠ "apiKeyType" → k ≠ "model" →
         field k loaded = field k descriptions)
    ∧ field "generatedAt" loaded = Some (JStr nowIso)
    ∧ field "apiKeyType" loaded = Some (apiKeyType env)
    ∧ field "model" loaded = Some (modelOrDefault descriptions)
    ∧ (truthy (field "model" descriptions) = true →
         field "model" loaded = field "model" descriptions).
Proof.
  exists (cacheData env nowIso descriptions). split; [apply load_after_save|].
  unfold cacheData. repeat split.
  - intros k Hg Ha Hm. now rewrite !field_setField_ne by assumption.
  - rewrite !field_setField_ne by discriminate. apply field_setField_eq.
  - apply field_setField_eq.
  - rewrite field_setField_ne by discriminate. apply field_setField_eq.
  - intros Ht. rewrite field_setField_ne by discriminate. rewrite field_setField_eq.
    unfold modelOrDefault. destruct (field "model" descriptions) as [v|]; [|discriminate].
    now rewrite Ht.
Qed.

(** Claim C6 as stated fails: saving and loading the bundle of a run gives
    a value with an [apiKeyType] the bundle never had, and a bundle whose
    [model] is empty comes back with [model] set to ["gpt-4o"]. *)
Lemma cache_round_trip_counterexample :
  let reload env d :=
    loadCachedDescriptions
      (saveCachedDescriptions env "2026-01-01T00:00:00.000Z" true ∅ "review-reports" d)
      "review-reports" in
  ¬ (∀ k, k ≠ "generatedAt" →
       ∃ loaded, reload Samples.noKeys Samples.bundle = JObj loaded
                 ∧ field k loaded = field k Samples.bundle)
  ∧ ¬ (∀ k, k ≠ "generatedAt" →
         ∃ loaded, reload Samples.directKey Samples.bundleNoModel = JObj loaded
                   ∧ field k loaded = field k Samples.bundleNoModel).
Proof.
  intros reload. split; intros Hclaim.
  - destruct (Hclaim "apiKeyType") as (loaded & Hload & Hfield); [discriminate|].
    unfold reload in Hload. rewrite load_after_save in Hload.
    injection Hload as <-. vm_compute in Hfield. discriminate.
  - destruct (Hclaim "model") as (loaded & Hload & Hfield); [discriminate|].
    unfold reload in Hload. rewrite load_after_save in Hload.
    injection Hload as <-. vm_compute in Hfield. discriminate.
Qed.

Example empty_model_replaced :
  field "model" (cacheData Samples.directKey "2026-01-01T00:00:00.000Z" Samples.bundleNoModel)
  = Some (JStr "gpt-4o").
Proof. reflexivity. Qed.

End CacheFacts.

(** ** Description generator *)

Module DescribeFacts.
Import Review Describe.

(** What the retry block does, case by case on the service's answers. *)
Lemma attempt_cases service request s :
  match service (calls s) request with
  | Ok text =>
      attempt service request s
      = (Ok text, {| calls := S (calls s); slept := slept s |})
  | Throw error =>
      if isRateLimit error then
        attempt service request s
        = (match service (S (calls s)) request with
           | Ok text => Ok text
           | Throw retryError =>
               Throw (Error ("AI generation failed after retry: " ++ message retryError))
           end,
           {| calls := S (S (calls s)); slept := (slept s ++ [2000])%list |})
      else
        attempt service request s
        = (Throw (Error ("AI generation failed: " ++ message error)),
           {| calls := S (calls s); slept := slept s |})
  end.
Proof.
  unfold attempt, generateText, sleep, fail, mbind, mret, G_bind, G_ret. simpl.
  destruct (service (calls s) request) as [text|error]; [reflexivity|].
  destruct (isRateLimit error); [|reflexivity].
  simpl. destruct (service (S (calls s)) request); reflexivity.
Qed.

Lemma attempt_calls service request s :
  (calls s < calls (snd (attempt service request s)) <= calls s + 2)%nat.
Proof.
  pose proof (attempt_cases service request s) as Hc.
  destruct (service (calls s) request) as [text|error].
  - rewrite Hc. simpl. lia.
  - destruct (isRateLimit error); rewrite Hc; simpl; lia.
Qed.

Lemma generate_calls env files0 service config images clientRequest stepContext s :
  (calls (snd (generateAIDescription env files0 service config images clientRequest
                 stepContext s)) <= calls s + 2)%nat.
Proof.
  unfold generateAIDescription.
  destruct (Env.getAPIKey env); [|simpl; lia].
  destruct (readImages files0 _); [simpl; lia|].
  pose proof (attempt_calls service
    {| model := strOr (aiModel config) "gpt-4o";
       prompt := buildPrompt clientRequest stepContext;
       imageParts := p :: l |} s). lia.
Qed.

(** Past the credential and image checks, [generateAIDescription] is the
    retry block on the request it builds. *)
Lemma generate_is_attempt env files0 service config images clientRequest stepContext
    info part parts :
  Env.getAPIKey env = Some info →
  readImages files0 (firstn (natOr (maxScreenshotsPerStep config) 10) images)
  = part :: parts →
  generateAIDescription env files0 service config images clientRequest stepContext
  = attempt service
      {| model := strOr (aiModel config) "gpt-4o";
         prompt := buildPrompt clientRequest stepContext;
         imageParts := part :: parts |}.
Proof.
  intros Hkey Himages. unfold generateAIDescription. now rewrite Hkey, Himages.
Qed.

(** Claim C9. In [generateAIDescription] the service is called once; only
    when that call fails with a rate-limit error (status 429, or a message
    containing "rate limit") the function pauses 2000 ms and calls once
    more. Any other error of the first call, and any error of the second,
    raises "AI generation failed..." with the underlying message. The
    function never makes more than two calls. *)
Theorem generation_retries_once env files0 service config images clientRequest stepContext
    request s :
  (let r := attempt service request s in
   match service (calls s) request with
   | Ok text =>
       fst r = Ok text ∧ calls (snd r) = S (calls s) ∧ slept (snd r) = slept s
   | Throw error =>
       if isRateLimit error then
         calls (snd r) = S (S (calls s))
         ∧ slept (snd r) = (slept s ++ [2000])%list
         ∧ fst r = match service (S (calls s)) request with
                   | Ok text => Ok text
                   | Throw retryError =>
                       Throw (Error ("AI generation failed after retry: "
                                       ++ message retryError))
                   end
       else
         fst r = Throw (Error ("AI generation failed: " ++ message error))
         ∧ calls (snd r) = S (calls s) ∧ slept (snd r) = slept s
   end)
  ∧ (calls (snd (attempt service request s)) = S (S (calls s))
     ↔ ∃ error, service (calls s) request = Throw error ∧ isRateLimit error = true)
  ∧ (∀ e, fst (attempt service request s) = Throw e →
       ∃ cause, e = Error ("AI generation failed" ++ cause))
  ∧ (calls (snd (generateAIDescription env files0 service config images clientRequest
                   stepContext s)) <= calls s + 2)%nat.
Proof.
  pose proof (attempt_cases service request s) as Hc.
  split; [|split; [|split; [|apply generate_calls]]].
  - cbv zeta. destruct (service (calls s) request) as [text|error].
    + rewrite Hc. auto.
    + destruct (isRateLimit error); rewrite Hc; auto.
  - destruct (service (calls s) request) as [text|error].
    + rewrite Hc. simpl. split; [lia | intros (error & Habs & _); discriminate].
    + destruct (isRateLimit error) eqn:Hrate; rewrite Hc; simpl.
      * split; [eauto | reflexivity].
      * split; [lia | intros (error' & [= <-] & Hrate'); congruence].
  - intros e. destruct (service (calls s) request) as [text|error].
    + rewrite Hc. discriminate.
    + destruct (isRateLimit error); rewrite Hc; simpl.
      * destruct (service (S (calls s)) request) as [text|retryError]; [discriminate|].
        intros [= <-]. exists (" after retry: " ++ message retryError). reflexivity.
      * intros [= <-]. exists (": " ++ message error). reflexivity.
Qed.

Section Isolation.
Variable env : Env.ProcessEnv.
Variable files0 : Fs.files.
Variable service : Service.
Variable config : Config.
Variable artifacts : list Artifact.t.
Variable extractedFrames : list ExtractedFrame.

Local Abbreviation describeStep := (describeStep env files0 service config artifacts extractedFrames).
Local Abbreviation describeSteps := (describeSteps env files0 service config artifacts extractedFrames).
Local Abbreviation describeOverall := (describeOverall env files0 service config artifacts).
Local Abbreviation stepImages := (stepImages config artifacts extractedFrames).
Local Abbreviation generate := (generateAIDescription env files0 service config).

(** The loop body never throws, whatever the generator does. *)
Lemma describeStep_total i step s :
  ∃ d s', describeStep i step s = (Ok d, s')
          ∧ stepIndex d = i ∧ stepName d = Step.name step.
Proof.
  unfold Describe.describeStep.
  destruct (isSome (manualOrNull step) && negb (forceAI config)).
  { eexists _, _. split; [reflexivity|]. split; reflexivity. }
  destruct (Describe.stepImages _ _ _ i) as [|img images].
  { eexists _, _. split; [reflexivity|]. split; reflexivity. }
  unfold tryCatch, mbind, mret, G_bind, G_ret.
  destruct (generateAIDescription _ _ _ _ _ _ _ s) as [[text|e] s'];
    eexists _, _; (split; [reflexivity|]); split; reflexivity.
Qed.




Lemma describeOverall_total current s :
  ∃ overall s', describeOverall current s = (Ok overall, s').
Proof.
  unfold Describe.describeOverall.
  destruct (Env.nonEmpty current); [eexists _, _; reflexivity|].
  destruct (firstn 5 _); [eexists _, _; reflexivity|].
  unfold tryCatch, mbind, mret, G_bind, G_ret.
  destruct (generateAIDescription _ _ _ _ _ _ _ s) as [[text|e] s'];
    eexists _, _; reflexivity.
Qed.


End Isolation.


End DescribeFacts.

(** ** Action interpreter and capture orchestrator *)

Module CaptureFacts.
Import Fs Review Capture.

Section Interpreter.
Context {P : Type} `{PageApi P}.
Variable config : Config.
Variable tool : Transcoder.Tool.
Variable artifactsDir : string.

Local Abbreviation switchAction := (switchAction config artifactsDir).
Local Abbreviation runActions := (runActions config artifactsDir).
Local Abbreviation slideshowActions := (slideshowActions config artifactsDir).

(** An action whose tag has no [case] falls through the [switch]. *)
Lemma switchAction_unhandled stepIndex step action (w : World P) :
  handled (Action.type action) = false →
  switchAction stepIndex step action w = (Ok None, w).
Proof.
  unfold handled, Capture.switchAction. simpl. intros Hh.
  repeat (apply orb_false_iff in Hh as [? Hh]).
  repeat match goal with E : String.eqb _ _ = false |- _ => rewrite E; clear E end.
  reflexivity.
Qed.

Lemma runActions_unhandled stepIndex step action (w : World P) :
  handled (Action.type action) = false →
  runActions stepIndex step [action] w = (Ok tt, w).
Proof.
  intros Hh. simpl. unfold mbind, mret, M_bind, M_ret.
  now rewrite switchAction_unhandled.
Qed.

(** In slideshow mode the frame that follows every action is still taken. *)
Lemma slideshowActions_unhandled stepIndex step action slideIndex shots (w : World P) :
  handled (Action.type action) = false →
  slideshowActions stepIndex step [action] slideIndex shots w
  = match screenshot false (page w) with
    | Ok _ =>
        (Ok (shots ++ [slidePath artifactsDir (fileStepName step) slideIndex])%list,
         mkWorld (writeRaw (slidePath artifactsDir (fileStepName step) slideIndex) (fs w))
           (page w) (now w) (artifacts w))
    | Throw e => (Throw e, w)
    end.
Proof.
  intros Hh. simpl. unfold mbind, mret, M_bind, M_ret.
  rewrite switchAction_unhandled by assumption.
  unfold capture. destruct (screenshot false (page w)); reflexivity.
Qed.

(** Claim C1, as the code has it. An action whose type tag is none of
    [screenshot], [click], [type], [wait], [navigate] - the tags with a
    [case]; [scroll] is not one of them - raises no error: it is skipped,
    leaving the page, the files and the artifact list as they were, in the
    loop of every recording strategy (slideshow mode then takes its usual
    frame). *)
Theorem unknown_action_is_skipped stepIndex step action slideIndex shots (w : World P) :
  handled (Action.type action) = false →
  switchAction stepIndex step action w = (Ok None, w)
  ∧ runActions stepIndex step [action] w = (Ok tt, w)
  ∧ ∀ r w', slideshowActions stepIndex step [action] slideIndex shots w = (r, w') →
      page w' = page w ∧ artifacts w' = artifacts w
      ∧ (r = Ok (shots ++ [slidePath artifactsDir (fileStepName step) slideIndex])%list
         ∨ ∃ e, screenshot false (page w) = Throw e ∧ r = Throw e).
Proof.
  intros Hh. split; [|split].
  - now apply switchAction_unhandled.
  - now apply runActions_unhandled.
  - intros r w'. rewrite slideshowActions_unhandled by assumption.
    destruct (screenshot false (page w)) as [[]|e] eqn:E; intros [= <- <-]; simpl.
    + repeat split; auto.
    + repeat split; eauto.
Qed.

(** Claim C4, as the code has it. A [scroll] action, whatever coordinates
    it carries, has no [case] in the interpreter: executing it raises no
    error and leaves the page, hence its scroll position, where it was. *)
Theorem scroll_action_is_skipped stepIndex step action slideIndex shots (w : World P) :
  Action.type action = "scroll" →
  switchAction stepIndex step action w = (Ok None, w)
  ∧ scrollPosition (page (snd (switchAction stepIndex step action w)))
    = scrollPosition (page w)
  ∧ scrollPosition (page (snd (runActions stepIndex step [action] w)))
    = scrollPosition (page w)
  ∧ scrollPosition
      (page (snd (slideshowActions stepIndex step [action] slideIndex shots w)))
    = scrollPosition (page w).
Proof.
  intros Htag.
  assert (Hh : handled (Action.type action) = false) by now rewrite Htag.
  rewrite switchAction_unhandled, runActions_unhandled, slideshowActions_unhandled
    by assumption.
  repeat split. destruct (screenshot false (page w)); reflexivity.
Qed.

Local Abbreviation screenshotPath := (screenshotPath artifactsDir).
Local Abbreviation slidePath := (slidePath artifactsDir).
Local Abbreviation framesOf := (framesOf artifactsDir).
Local Abbreviation recordSlideshow := (recordSlideshow config tool artifactsDir).
Local Abbreviation recorded := (recorded artifactsDir).

(** ** Files *)

Lemma writeAll_app a b (files0 : files) :
  writeAll (a ++ b) files0 = writeAll b (writeAll a files0).
Proof. unfold writeAll. apply fold_left_app. Qed.

Lemma lookup_writeAll_in paths : ∀ (files0 : files) p,
  In p paths → writeAll paths files0 !! p = Some Raw.
Proof.
  induction paths as [|q paths IH]; intros files0 p Hin; [destruct Hin|].
  simpl. destruct (in_dec string_dec p paths) as [Hp|Hp]; [now apply IH|].
  destruct Hin as [->|Hin]; [|contradiction].
  clear IH. revert files0. induction paths as [|q paths IH]; intros files0.
  - simpl. unfold writeRaw. apply lookup_insert_eq.
  - simpl in *. assert (Hne : q ≠ p) by tauto.
    assert (Hnin : ¬ In p paths) by tauto.
    replace (writeRaw q (writeRaw p files0)) with (writeRaw p (writeRaw q files0)).
    + now apply IH.
    + unfold writeRaw. now apply insert_insert_ne.
Qed.

Lemma lookup_writeAll_out paths : ∀ (files0 : files) p,
  ¬ In p paths → writeAll paths files0 !! p = files0 !! p.
Proof.
  induction paths as [|q paths IH]; intros files0 p Hnin; [reflexivity|].
  simpl in *. rewrite IH by tauto. unfold writeRaw. apply lookup_insert_ne. tauto.
Qed.

(** The clean-up never brings a file back. *)
Lemma cleanupSlides_gone paths : ∀ (files0 : files) p,
  files0 !! p = None → cleanupSlides paths files0 !! p = None.
Proof.
  induction paths as [|q paths IH]; intros files0 p Hnone; [exact Hnone|].
  simpl. apply IH. destruct (Str.includes "-slide-" q); [|exact Hnone].
  unfold unlink. rewrite lookup_delete. case_decide; auto.
Qed.

(** A listed path that contains the marker is unlinked. *)
Lemma cleanupSlides_marked paths : ∀ (files0 : files) p,
  In p paths → Str.includes "-slide-" p = true → cleanupSlides paths files0 !! p = None.
Proof.
  induction paths as [|q paths IH]; intros files0 p Hin Hmark; [destruct Hin|].
  simpl. destruct Hin as [->|Hin].
  - rewrite Hmark. apply cleanupSlides_gone. unfold unlink. apply lookup_delete_eq.
  - now apply IH.
Qed.

(** A path without the marker is left alone. *)
Lemma cleanupSlides_unmarked paths : ∀ (files0 : files) p,
  Str.includes "-slide-" p = false → cleanupSlides paths files0 !! p = files0 !! p.
Proof.
  induction paths as [|q paths IH]; intros files0 p Hmark; [reflexivity|].
  simpl. rewrite IH by assumption.
  destruct (Str.includes "-slide-" q) eqn:Eq; [|reflexivity].
  unfold unlink. apply lookup_delete_ne. congruence.
Qed.

Lemma createSlideshow_done shots out (files0 files1 : files) :
  Transcoder.createSlideshowFromScreenshots tool shots artifactsDir out files0
  = (true, files1) →
  files1 = unlink (join artifactsDir "slideshow-concat.txt")
             (writeRaw out (writeRaw (join artifactsDir "slideshow-concat.txt") files0)).
Proof.
  unfold Transcoder.createSlideshowFromScreenshots.
  destruct (negb (Transcoder.checkFFmpeg tool)); [discriminate|].
  destruct shots as [|shot shots]; [discriminate|].
  destruct (negb (Transcoder.concatRuns tool _ _)); [discriminate|].
  now intros [= <-].
Qed.

(** ** The slideshow strategy *)

Lemma switchAction_ok stepIndex step action (w : World P) r w' :
  switchAction stepIndex step action w = (Ok r, w') →
  if String.eqb (Action.type action) "screenshot"
  then r = Some (screenshotPath action)
       ∧ fs w' = writeRaw (screenshotPath action) (fs w)
       ∧ artifacts w'
         = (artifacts w
              ++ [artifactOf Artifact.screenshot (strOr (Action.name action) "Screenshot")
                    (screenshotPath action) stepIndex step None (now w)])%list
  else r = None ∧ fs w' = fs w ∧ artifacts w' = artifacts w.
Proof.
  unfold Capture.switchAction, mbind, mret, M_bind, M_ret, capture, push, onPage, wait, throw.
  destruct (String.eqb (Action.type action) "screenshot").
  { destruct (screenshot _ (page w)); [|discriminate].
    intros [= <- <-]. simpl. auto. }
  destruct (String.eqb (Action.type action) "click").
  { destruct (click _ (page w)); [|discriminate]. intros [= <- <-]. simpl. auto. }
  destruct (String.eqb (Action.type action) "type").
  { destruct (fill _ _ (page w)); [|discriminate]. intros [= <- <-]. simpl. auto. }
  destruct (String.eqb (Action.type action) "wait").
  { intros [= <- <-]. simpl. auto. }
  destruct (String.eqb (Action.type action) "navigate").
  { destruct (Action.url action); [|discriminate].
    destruct (goto _ (page w)); [|discriminate]. intros [= <- <-]. simpl. auto. }
  intros [= <- <-]. auto.
Qed.

Lemma slideshowActions_ok stepIndex step actions : ∀ k shots (w : World P) shots' w',
  slideshowActions stepIndex step actions k shots w = (Ok shots', w') →
  shots' = (shots ++ framesOf step actions k)%list
  ∧ fs w' = writeAll (framesOf step actions k) (fs w)
  ∧ ∃ added, artifacts w' = (artifacts w ++ added)%list
             ∧ Forall2 (recorded stepIndex step) added (explicitShots actions).
Proof.
  induction actions as [|action rest IH]; intros k shots w shots' w'.
  - simpl. intros [= <- <-]. rewrite app_nil_r. split; [reflexivity|].
    split; [reflexivity|]. exists []. rewrite app_nil_r. split; [reflexivity | constructor].
  - simpl. unfold mbind, M_bind.
    destruct (switchAction stepIndex step action w) as [[r|e] w1] eqn:Hs; [|discriminate].
    apply switchAction_ok in Hs.
    unfold capture at 1. destruct (screenshot false (page w1)); [|discriminate].
    intros Hrest. apply IH in Hrest as (-> & Hfs & added & Harts & Hadded).
    simpl in Hfs, Harts. unfold explicitShots. simpl.
    destruct (String.eqb (Action.type action) "screenshot").
    + destruct Hs as (-> & Hfs1 & Harts1). split; [|split].
      * now rewrite <- !app_assoc.
      * rewrite Hfs, Hfs1. reflexivity.
      * eexists (_ :: added). rewrite Harts, Harts1, <- app_assoc. split; [reflexivity|].
        constructor; [eexists; reflexivity | exact Hadded].
    + destruct Hs as (-> & Hfs1 & Harts1). split; [|split].
      * now rewrite <- !app_assoc.
      * rewrite Hfs, Hfs1. reflexivity.
      * exists added. rewrite Harts, Harts1. split; [reflexivity | exact Hadded].
Qed.

(** What a slideshow step that assembled its slideshow leaves behind. *)
Lemma recordSlideshow_ok stepIndex step (w : World P) v w' :
  recordSlideshow stepIndex step w = (Ok (Some v), w') →
  let actions := default [] (Step.actions step) in
  let frames := slidePath (fileStepName step) 0 :: framesOf step actions 1 in
  let slideshowPath := join artifactsDir (fileStepName step ++ "-slideshow.webm") in
  let concat := join artifactsDir "slideshow-concat.txt" in
  v = slideshowPath
  ∧ fs w' = cleanupSlides frames
              (unlink concat (writeRaw slideshowPath (writeRaw concat
                 (writeAll frames (fs w)))))
  ∧ ∃ added t,
      artifacts w'
      = (artifacts w ++ added
           ++ [artifactOf Artifact.slideshow (Step.name step) slideshowPath stepIndex step
                 (Some (length frames)) t])%list
      ∧ Forall2 (recorded stepIndex step) added (explicitShots actions).
Proof.
  intros Hrun actions frames slideshowPath concat.
  unfold Capture.recordSlideshow, mbind, M_bind in Hrun.
  destruct (stepUrl config step w) as [[u|e] w0] eqn:Hu; [|discriminate].
  assert (Hw0 : w0 = w).
  { unfold stepUrl, gets, mret, M_ret in Hu. destruct (Env.nonEmpty _); congruence. }
  subst w0. clear Hu.
  unfold onPage at 1 in Hrun. destruct (goto u (page w)) as [p1|e]; [|discriminate].
  unfold wait at 1 in Hrun. unfold capture at 1 in Hrun. simpl in Hrun.
  destruct (screenshot false _); [|discriminate].
  set (w1 := mkWorld _ _ _ _) in Hrun.
  assert (Hloop : ∃ w2 added,
    (match Step.actions step with
     | Some acts => slideshowActions stepIndex step acts 1 [slidePath (fileStepName step) 0]
     | None => mret [slidePath (fileStepName step) 0]
     end) w1 = (Ok frames, w2)
    ∧ fs w2 = writeAll frames (fs w)
    ∧ artifacts w2 = (artifacts w ++ added)%list
    ∧ Forall2 (recorded stepIndex step) added (explicitShots actions)).
  { revert Hrun. unfold actions, frames.
    destruct (Step.actions step) as [acts|]; cbv beta iota; intros Hrun.
    - destruct (slideshowActions stepIndex step acts 1 _ w1) as [[shots|e] w2] eqn:Hl.
      + apply slideshowActions_ok in Hl as (-> & Hfs & added & Harts & Hadded).
        exists w2, added. repeat split; assumption.
      + discriminate Hrun.
    - exists w1, []. rewrite app_nil_r. repeat split. constructor. }
  destruct Hloop as (w2 & added & Hl & Hfs & Harts & Hadded).
  rewrite Hl in Hrun. unfold frames at 1 in Hrun.
  unfold onFiles at 1 in Hrun.
  destruct (Transcoder.createSlideshowFromScreenshots tool _ _ _ (fs w2))
    as [[|] files1] eqn:Hc; [|discriminate].
  apply createSlideshow_done in Hc. unfold push, modifyFiles, mret, M_ret in Hrun.
  simpl in Hrun. injection Hrun as <- <-. simpl.
  split; [reflexivity|]. split.
  - rewrite Hc, Hfs. reflexivity.
  - exists added, (now w2). rewrite Harts, <- app_assoc. split; [reflexivity | exact Hadded].
Qed.

Lemma slidePath_marked stepName k :
  Str.includes "-slide-" (slidePath stepName k) = true.
Proof.
  unfold Capture.slidePath, join.
  apply StrFacts.includes_app_r, StrFacts.includes_app_r, StrFacts.includes_around.
Qed.


Lemma join_unmarked file :
  Str.includes "-slide-" artifactsDir = false →
  Str.includes "-slide-" file = false →
  Str.includes "-slide-" (join artifactsDir file) = false.
Proof.
  intros Hdir Hfile. unfold join.
  change (artifactsDir ++ "/" ++ file) with (artifactsDir ++ String "/"%char file).
  rewrite StrFacts.includes_sep by (discriminate || reflexivity).
  now rewrite Hdir, Hfile.
Qed.

Lemma join_inj file file' : join artifactsDir file = join artifactsDir file' → file = file'.
Proof.
  unfold join. intros E. apply StrFacts.append_inj_l in E.
  now apply StrFacts.append_inj_l in E.
Qed.




(** The end-to-end scenario, when the artifacts directory does not itself
    contain the marker: two screenshot artifacts and one slideshow artifact
    are appended, the four numbered frames are gone and the two explicit
    screenshots are on disk. *)
Lemma slideshow_scenario stepIndex name url description selector (w : World P) v w' :
  let step :=
    {| Step.name := name; Step.url := url; Step.record := true;
       Step.actions := Some [ Samples.action "screenshot" (Some "before") None;
                              Samples.action "click" None selector;
                              Samples.action "screenshot" (Some "after") None ];
       Step.description := description |} in
  Str.includes "-slide-" artifactsDir = false →
  recordSlideshow stepIndex step w = (Ok (Some v), w') →
  (∃ t1 t2 t3,
     artifacts w'
     = (artifacts w
          ++ [ artifactOf Artifact.screenshot "before" (join artifactsDir "before.png")
                 stepIndex step None t1;
               artifactOf Artifact.screenshot "after" (join artifactsDir "after.png")
                 stepIndex step None t2;
               artifactOf Artifact.slideshow name
                 (join artifactsDir (fileStepName step ++ "-slideshow.webm"))
                 stepIndex step (Some 6%nat) t3 ])%list)
  ∧ (∀ k, (k <= 3)%nat → fs w' !! slidePath (fileStepName step) k = None)
  ∧ fs w' !! join artifactsDir "before.png" = Some Raw
  ∧ fs w' !! join artifactsDir "after.png" = Some Raw.
Proof.
  intros step Hdir Hrun.
  apply recordSlideshow_ok in Hrun as (_ & Hfs & added & t3 & Harts & Hadded).
  set (frames := slidePath (fileStepName step) 0 :: _) in Hfs, Harts.
  assert (Hframes : frames =
    [ slidePath (fileStepName step) 0; join artifactsDir "before.png";
      slidePath (fileStepName step) 1; slidePath (fileStepName step) 2;
      join artifactsDir "after.png"; slidePath (fileStepName step) 3 ]) by reflexivity.
  assert (Hkept : ∀ file,
    In (join artifactsDir file) frames →
    Str.includes "-slide-" file = false →
    file ≠ "slideshow-concat.txt" →
    fs w' !! join artifactsDir file = Some Raw).
  { intros file Hin Hfile Hne. rewrite Hfs.
    rewrite cleanupSlides_unmarked by now apply join_unmarked.
    unfold unlink. rewrite lookup_delete_ne by (intros E; apply join_inj in E; congruence).
    unfold writeRaw at 1. rewrite lookup_insert. case_decide; [reflexivity|].
    unfold writeRaw at 1. rewrite lookup_insert_ne by (intros E; apply join_inj in E; congruence).
    now apply lookup_writeAll_in. }
  split; [|split; [|split]].
  - unfold explicitShots in Hadded. simpl in Hadded.
    inversion Hadded as [|a1 ? l1 ? [t1 ->] Hrest]; subst.
    inversion Hrest as [|a2 ? l2 ? [t2 ->] Hnil]; subst.
    inversion Hnil; subst. exists t1, t2, t3. rewrite Harts, Hframes. reflexivity.
  - intros k Hk. rewrite Hfs.
    apply cleanupSlides_marked; [|apply slidePath_marked].
    rewrite Hframes. simpl. destruct k as [|[|[|[|k]]]]; [tauto | tauto | tauto | tauto | lia].
  - apply Hkept; [rewrite Hframes; simpl; tauto | reflexivity | discriminate].
  - apply Hkept; [rewrite Hframes; simpl; tauto | reflexivity | discriminate].
Qed.

Local Abbreviation finalizeVideo := (finalizeVideo config tool artifactsDir).

(** Without the transcoder nothing is converted and no file changes. *)
Lemma convert_without_tool videoPath gifPath files0 :
  Transcoder.available tool = false →
  Transcoder.convertVideoToGif tool videoPath gifPath files0 = (false, files0).
Proof.
  intros Hno. unfold Transcoder.convertVideoToGif, Transcoder.checkFFmpeg.
  now rewrite Hno.
Qed.

(** A failed conversion removes no file. *)
Lemma convert_failure_keeps videoPath gifPath files0 p :
  fst (Transcoder.convertVideoToGif tool videoPath gifPath files0) = false →
  is_Some (files0 !! p) →
  is_Some (snd (Transcoder.convertVideoToGif tool videoPath gifPath files0) !! p).
Proof.
  unfold Transcoder.convertVideoToGif.
  destruct (negb (Transcoder.checkFFmpeg tool)); [auto|].
  destruct (negb (Transcoder.paletteRuns tool _ _)); [auto|].
  destruct (negb (Transcoder.gifRuns tool _ _ _)); simpl; [|discriminate].
  intros _ Hp. unfold writeRaw. rewrite lookup_insert. case_decide; eauto.
Qed.

(** What [finalizeVideo] does with a recording when the format is [gif]. *)
Lemma finalizeVideo_gif stepIndex step file (w : World P) :
  videoFormat config = "gif" →
  let videoPath := join artifactsDir file in
  let gifPath := join artifactsDir (fileStepName step ++ ".gif") in
  let converted := Transcoder.convertVideoToGif tool videoPath gifPath (fs w) in
  finalizeVideo stepIndex step (Some file) w
  = if fst converted
    then (Ok (Some videoPath),
          mkWorld (unlink videoPath (snd converted)) (page w) (now w)
            (artifacts w ++ [artifactOf Artifact.gif (Step.name step) gifPath stepIndex
                               step None (now w)])%list)
    else (Ok (Some videoPath),
          mkWorld (snd converted) (page w) (now w)
            (artifacts w ++ [artifactOf Artifact.video (Step.name step) videoPath stepIndex
                               step None (now w)])%list).
Proof.
  intros Hgif videoPath gifPath converted.
  unfold Capture.finalizeVideo. rewrite Hgif. simpl.
  unfold mbind, mret, M_bind, M_ret, onFiles, push, modifyFiles.
  fold videoPath gifPath. fold converted.
  destruct converted as [[|] files1]; reflexivity.
Qed.

(** Claim C7. In full-video mode with the [gif] format, for the recording
    found in the artifacts directory: when [convertVideoToGif] succeeds a
    [gif] artifact is appended and the source video is unlinked; when it
    fails - as it does, without raising, when the transcoder is missing -
    the [video] artifact of the recording is appended instead and the
    recording stays on disk. Either way one artifact of the step is
    appended and no exception is raised. *)
Theorem gif_conversion_degrades stepIndex step file (w : World P) :
  videoFormat config = "gif" →
  let videoPath := join artifactsDir file in
  let gifPath := join artifactsDir (fileStepName step ++ ".gif") in
  let converted := Transcoder.convertVideoToGif tool videoPath gifPath (fs w) in
  let done := finalizeVideo stepIndex step (Some file) w in
  fst done = Ok (Some videoPath)
  ∧ (Transcoder.available tool = false → fst converted = false)
  ∧ (fst converted = true →
       artifacts (snd done)
       = (artifacts w
            ++ [artifactOf Artifact.gif (Step.name step) gifPath stepIndex step None (now w)])%list
       ∧ fs (snd done) !! videoPath = None)
  ∧ (fst converted = false →
       artifacts (snd done)
       = (artifacts w
            ++ [artifactOf Artifact.video (Step.name step) videoPath stepIndex step None
                  (now w)])%list
       ∧ (is_Some (fs w !! videoPath) → is_Some (fs (snd done) !! videoPath))).
Proof.
  intros Hgif videoPath gifPath converted done.
  unfold done. rewrite (finalizeVideo_gif stepIndex step file w Hgif).
  fold videoPath gifPath. fold converted.
  split; [destruct (fst converted); reflexivity|].
  split; [|split].
  - intros Hno. unfold converted. now rewrite convert_without_tool.
  - intros Hc. rewrite Hc. simpl. split; [reflexivity|].
    unfold unlink. apply lookup_delete_eq.
  - intros Hc. rewrite Hc. simpl. split; [reflexivity|].
    intros Hp. now apply convert_failure_keeps.
Qed.

(** ** The recording is found again *)

Lemma length_append (a b : string) :
  String.length (a ++ b) = (String.length a + String.length b)%nat.
Proof.
  induction a as [|c a IH]; [reflexivity|].
  change (String c a ++ b) with (String c (a ++ b)). simpl. now rewrite IH.
Qed.

Lemma substring_all (s : string) : String.substring 0 (String.length s) s = s.
Proof. induction s as [|c s IH]; simpl; [reflexivity | now rewrite IH]. Qed.

Lemma substring_after (a b : string) :
  String.substring (String.length a) (String.length (a ++ b) - String.length a) (a ++ b) = b.
Proof.
  rewrite length_append. replace (String.length a + String.length b - String.length a)%nat
    with (String.length b) by lia.
  induction a as [|c a IH]; [apply substring_all|].
  change (String c a ++ b) with (String c (a ++ b)). simpl. exact IH.
Qed.

Lemma firstSegment_plain (file : string) :
  Str.occurs "/"%char file = false → firstSegment file = file.
Proof.
  induction file as [|c file IH]; [reflexivity|]. intros Hno.
  change (Ascii.eqb "/"%char c || Str.occurs "/"%char file = false) in Hno.
  apply orb_false_iff in Hno as [Hc Hrest].
  change (firstSegment (String c file))
    with (if Ascii.eqb c "/"%char then EmptyString else String c (firstSegment file)).
  rewrite Ascii.eqb_sym, Hc. now rewrite IH.
Qed.

Lemma entryOf_join file :
  Str.occurs "/"%char file = false → entryOf artifactsDir (join artifactsDir file) = Some file.
Proof.
  intros Hplain. unfold entryOf, join.
  rewrite <- StrFacts.append_assoc.
  rewrite StrFacts.startsWith_refl_app, substring_after.
  now rewrite firstSegment_plain.
Qed.

(** A recording written into the artifacts directory under a plain name
    ending in [.webm] makes [latestVideo] find some video. *)
Lemma latestVideo_found (files0 : files) file :
  is_Some (files0 !! join artifactsDir file) →
  Str.occurs "/"%char file = false →
  Str.endsWith ".webm" file = true →
  is_Some (latestVideo artifactsDir files0).
Proof.
  intros Hfile Hplain Hwebm. unfold latestVideo.
  assert (Hin : file ∈ filter (λ f, Is_true (Str.endsWith ".webm" f))
                         (readdir artifactsDir files0)).
  { apply list_elem_of_filter. split; [now rewrite Hwebm|].
    unfold readdir. apply list_elem_of_omap. exists (join artifactsDir file).
    split; [|now apply entryOf_join].
    apply elem_of_elements, elem_of_dom. exact Hfile. }
  destruct (filter _ _) as [|g names]; [inversion Hin|].
  simpl. destruct (fold_right _ None names) as [best|]; [|eauto].
  destruct (String.ltb best g); eauto.
Qed.

Lemma stepUrl_pure step (w : World P) u w0 :
  stepUrl config step w = (Ok u, w0) → w0 = w.
Proof. unfold stepUrl, gets, mret, M_ret. destruct (Env.nonEmpty _); congruence. Qed.

(** With a browser that leaves every recording under a plain [.webm] name,
    a full-video step in [gif] format that ends without an exception ends
    with a [gif] or a [video] artifact of the step: the recording is never
    dropped. *)
Lemma recordVideo_keeps_an_artifact stepIndex step (w : World P) r w' :
  videoFormat config = "gif" →
  (∀ p : P, ∃ file, recording p = Some file
                    ∧ Str.occurs "/"%char file = false
                    ∧ Str.endsWith ".webm" file = true) →
  Capture.recordVideo config tool artifactsDir stepIndex step w = (Ok r, w') →
  ∃ earlier a,
    artifacts w' = (earlier ++ [a])%list
    ∧ (Artifact.type a = Artifact.gif ∨ Artifact.type a = Artifact.video)
    ∧ Artifact.stepIndex a = stepIndex
    ∧ Artifact.name a = Step.name step.
Proof.
  intros Hgif Hrec Hrun. unfold Capture.recordVideo, mbind, M_bind in Hrun.
  destruct (stepUrl config step w) as [[u|e] w0] eqn:Hu; [|discriminate].
  apply stepUrl_pure in Hu. subst w0.
  unfold gets at 1, setPage at 1, onPage at 1 in Hrun. simpl in Hrun.
  destruct (goto u newPage) as [p1|e]; [|discriminate].
  set (w1 := mkWorld _ (waitForTimeout 500 _) _ _) in Hrun.
  destruct ((match Step.actions step with
             | Some actions => runActions stepIndex step actions
             | None => mret ()
             end) w1) as [[[]|e] w2]; [|discriminate].
  unfold closeRecording at 1 in Hrun.
  destruct (Hrec (page w2)) as (file & Hfile & Hplain & Hwebm). rewrite Hfile in Hrun.
  cbn [fs page now artifacts] in Hrun.
  destruct (latestVideo_found (writeRaw (join artifactsDir file) (fs w2)) file)
    as [found Hfound]; try assumption.
  { unfold writeRaw. rewrite lookup_insert_eq. eauto. }
  rewrite Hfound in Hrun. rewrite finalizeVideo_gif in Hrun by assumption.
  simpl in Hrun.
  destruct (fst (Transcoder.convertVideoToGif _ _ _ _)); injection Hrun as <- <-;
    simpl; eexists _, _; (split; [reflexivity|]); simpl; auto.
Qed.

End Interpreter.

Lemma unknown_action_is_skipped_witness :
  Capture.switchAction (Samples.review "slideshow" []) Samples.artifactsDir 0
    Samples.firstStep Samples.hover (Sim.world ∅)
  = (Ok None, Sim.world ∅).
Proof.
  apply (unknown_action_is_skipped (Samples.review "slideshow" []) Samples.artifactsDir
           0 Samples.firstStep Samples.hover 1%nat [] (Sim.world ∅)).
  reflexivity.
Defined.

(** Claim C1 as stated fails: an action tagged [hover] - none of the six
    recognised tags - is executed without any error. *)
Lemma unknown_action_counterexample :
  existsb (String.eqb (Action.type Samples.hover))
    ["screenshot"; "click"; "type"; "wait"; "navigate"; "scroll"] = false
  ∧ ¬ (∃ e, fst (Capture.switchAction (Samples.review "slideshow" [])
                    Samples.artifactsDir 0 Samples.firstStep Samples.hover (Sim.world ∅))
            = Throw e)
  ∧ ¬ (∃ e, fst (Capture.runActions (Samples.review "slideshow" [])
                    Samples.artifactsDir 0 Samples.firstStep [Samples.hover] (Sim.world ∅))
            = Throw e).
Proof.
  split; [reflexivity|]. split; intros [e He]; vm_compute in He; discriminate.
Qed.

Lemma scroll_action_is_skipped_witness :
  Capture.scrollPosition
    (Capture.page (snd (Capture.switchAction (Samples.review "slideshow" [])
                          Samples.artifactsDir 0 Samples.firstStep
                          (Samples.scrollTo 0 600) (Sim.world ∅))))
  = (0, 0).
Proof.
  destruct (scroll_action_is_skipped (Samples.review "slideshow" []) Samples.artifactsDir
              0 Samples.firstStep (Samples.scrollTo 0 600) 1%nat [] (Sim.world ∅))
    as (_ & Hposition & _); [reflexivity | exact Hposition].
Defined.

(** Claim C4 as stated fails: after a [scroll] action to (0, 600) the page
    is still at (0, 0), under each recording strategy. *)
Lemma scroll_action_counterexample :
  let w := Sim.world ∅ in
  let cfg := Samples.review "slideshow" [] in
  let a := Samples.scrollTo 0 600 in
  Action.x a = Some 0 ∧ Action.y a = Some 600
  ∧ Capture.scrollPosition
      (Capture.page (snd (Capture.switchAction cfg Samples.artifactsDir 0
                            Samples.firstStep a w))) ≠ (0, 600)
  ∧ Capture.scrollPosition
      (Capture.page (snd (Capture.runActions cfg Samples.artifactsDir 0
                            Samples.firstStep [a] w))) ≠ (0, 600)
  ∧ Capture.scrollPosition
      (Capture.page (snd (Capture.slideshowActions cfg Samples.artifactsDir 0
                            Samples.firstStep [a] 1 [] w))) ≠ (0, 600).
Proof.
  repeat split; vm_compute; discriminate.
Qed.

Lemma gif_conversion_degrades_witness :
  let done :=
    Capture.finalizeVideo (Samples.review "gif" []) Samples.noTool Samples.artifactsDir 0
      Samples.scenario (Some "page@recording.webm")
      (Sim.world {[ "review-reports/artifacts/page@recording.webm" := Raw ]}) in
  map (λ a, (Artifact.type a, Artifact.path a)) (artifacts (snd done))
  = [(Artifact.video, "review-reports/artifacts/page@recording.webm")]
  ∧ is_Some (fs (snd done) !! "review-reports/artifacts/page@recording.webm").
Proof.
  destruct (gif_conversion_degrades (Samples.review "gif" []) Samples.noTool
              Samples.artifactsDir 0 Samples.scenario "page@recording.webm"
              (Sim.world {[ "review-reports/artifacts/page@recording.webm" := Raw ]}))
    as (_ & Hmissing & _ & Hkept); [reflexivity|].
  destruct (Hkept (Hmissing eq_refl)) as [Harts Hfile].
  split.
  - cbv zeta. rewrite Harts. reflexivity.
  - apply Hfile. exists Raw. reflexivity.
Defined.


(** A whole run of one such step: when the step loop ends, the artifact
    list names a screenshot whose file is not there. *)
Example marked_screenshot_missing_after_the_run :
  let done :=
    Capture.runSteps (Samples.review "slideshow" [Samples.marked]) Samples.goodTool
      Samples.artifactsDir 0 [Samples.marked] (Sim.world ∅) in
  fst done = Ok tt
  ∧ map (λ a, (Artifact.type a, Artifact.path a)) (artifacts (snd done))
    = [ (Artifact.screenshot, "review-reports/artifacts/menu-slide-open.png");
        (Artifact.slideshow, "review-reports/artifacts/s-slideshow.webm") ]
  ∧ fs (snd done) !! "review-reports/artifacts/menu-slide-open.png" = None.
Proof. vm_compute. repeat split; reflexivity. Qed.

(** The scenario runs as stated in a directory that does not contain the
    marker. *)
Example slideshow_scenario_runs :
  let w' :=
    snd (Capture.recordSlideshow (Samples.review "slideshow" []) Samples.goodTool
           Samples.artifactsDir 0 Samples.scenario (Sim.world ∅)) in
  map (λ a, (Artifact.type a, Artifact.name a)) (artifacts w')
  = [ (Artifact.screenshot, "before"); (Artifact.screenshot, "after");
      (Artifact.slideshow, "S") ]
  ∧ elements (dom (fs w'))
    = [ "review-reports/artifacts/s-slideshow.webm"; "review-reports/artifacts/after.png";
        "review-reports/artifacts/before.png" ].
Proof. vm_compute. split; reflexivity. Qed.


End CaptureFacts.

(** ** Command line *)

Module CliFacts.
Import Js Config Cli.

Section Parsing.
Variable urlParses : json → bool.
Variable files0 : Fs.files.
Variable syntaxMessage : string → string.

Local Abbreviation parseFrom := (parseFrom urlParses files0 syntaxMessage).
Local Abbreviation parseArgs := (parseArgs urlParses files0 syntaxMessage).
Local Abbreviation mainChecks := (mainChecks urlParses files0 syntaxMessage).

(** Case analysis on the option tests of one iteration. *)
Local Ltac option_cases H :=
  repeat match type of H with
         | context [if String.eqb ?a ?b then _ else _] =>
             let E := fresh "E" in destruct (String.eqb a b) eqn:E
         end.

(** Arguments that parse on their own are consumed as a block: what
    follows them is parsed from the configuration they produce. *)
Lemma parseFrom_app_aux n : ∀ config a b c,
  (length a <= n)%nat →
  parseFrom config a = Parsed c →
  parseFrom config (a ++ b) = parseFrom c b.
Proof.
  induction n as [|n IH]; intros config a b c Hlen Hparse.
  - destruct a; [|simpl in Hlen; lia]. simpl in *. now injection Hparse as <-.
  - destruct a as [|arg rest]; [simpl in *; now injection Hparse as <-|].
    rewrite <- app_comm_cons. cbn [Cli.parseFrom] in Hparse |- *.
    simpl in Hlen.
    option_cases Hparse;
      try (destruct rest as [|value rest']; [discriminate|];
           rewrite <- app_comm_cons; simpl in Hlen);
      try discriminate;
      try (apply IH; [lia | assumption]).
    + destruct (Str.isEmpty (Str.trim value)); [discriminate|]. apply IH; [lia | assumption].
    + destruct (urlParses (JStr value)); [|discriminate]. apply IH; [lia | assumption].
    + destruct (files0 !! value) as [[data|]|]; try discriminate.
      apply IH; [lia | assumption].
    + destruct (urlParses (JStr value)); [|discriminate]. apply IH; [lia | assumption].
    + destruct (existsb _ _); [|discriminate]. apply IH; [lia | assumption].
    + destruct (urlParses (JStr value)); [|discriminate]. apply IH; [lia | assumption].
    + destruct (Str.startsWith "-" arg); discriminate.
Qed.

(** Extra X1. Arguments are consumed left to right: when a list of
    arguments parses on its own, what is appended to it is parsed from the
    configuration reached, so a later option overrides an earlier one. *)
Theorem options_parse_left_to_right config a b c dir :
  parseFrom config a = Parsed c →
  parseFrom config (a ++ b) = parseFrom c b
  ∧ parseFrom config (a ++ ["--output"; dir]) = Parsed (setField "outputDir" (JStr dir) c)
  ∧ ∀ c', parseFrom config (a ++ ["--output"; dir]) = Parsed c' →
      field "outputDir" c' = Some (JStr dir).
Proof.
  intros Hparse.
  assert (Happ : ∀ b, parseFrom config (a ++ b) = parseFrom c b).
  { intros b'. now apply (parseFrom_app_aux (length a)). }
  split; [apply Happ|]. split; [now rewrite Happ|].
  intros c'. rewrite Happ. intros [= <-]. apply CacheFacts.field_setField_eq.
Qed.

(** Without [--format] and [--config] nothing writes [videoFormat]. *)
Lemma parseFrom_keeps_format n : ∀ config args c,
  (length args <= n)%nat →
  parseFrom config args = Parsed c →
  ¬ In "--format" args → ¬ In "--config" args →
  field "videoFormat" c = field "videoFormat" config.
Proof.
  induction n as [|n IH]; intros config args c Hlen Hparse Hf Hc.
  - destruct args; [|simpl in Hlen; lia]. simpl in *. now injection Hparse as <-.
  - destruct args as [|arg rest]; [simpl in *; now injection Hparse as <-|].
    cbn [Cli.parseFrom] in Hparse. simpl in Hlen.
    assert (Hrest : ¬ In "--format" rest ∧ ¬ In "--config" rest) by (simpl in Hf, Hc; tauto).
    destruct Hrest as [Hf' Hc'].
    option_cases Hparse;
      try (destruct rest as [|value rest']; [discriminate|]; simpl in Hlen;
           assert (¬ In "--format" rest' ∧ ¬ In "--config" rest') as [Hf'' Hc'']
             by (simpl in Hf', Hc'; tauto));
      try discriminate;
      try (erewrite IH; [| | eassumption | assumption | assumption]; [|lia];
           now rewrite CacheFacts.field_setField_ne by discriminate).
    + destruct (Str.isEmpty (Str.trim value)); [discriminate|].
      erewrite IH; [| | eassumption | assumption | assumption]; [|lia].
      now rewrite CacheFacts.field_setField_ne by discriminate.
    + destruct (urlParses (JStr value)); [|discriminate].
      erewrite IH; [| | eassumption | assumption | assumption]; [|lia].
      now rewrite CacheFacts.field_setField_ne by discriminate.
    + apply String.eqb_eq in E1. subst arg. simpl in Hc. tauto.
    + destruct (urlParses (JStr value)); [|discriminate].
      erewrite IH; [| | eassumption | assumption | assumption]; [|lia].
      now rewrite CacheFacts.field_setField_ne by discriminate.
    + apply String.eqb_eq in E4. subst arg. simpl in Hf. tauto.
    + destruct (urlParses (JStr value)); [|discriminate].
      erewrite IH; [| | eassumption | assumption | assumption]; [|lia].
      now rewrite CacheFacts.field_setField_ne by discriminate.
    + destruct (Str.startsWith "-" arg); discriminate.
Qed.

(** Extra X2. A command line with neither [--format] nor [--config] keeps
    the default format ["slideshow"], which [validateConfig] rejects:
    whatever else it says, [main] never gets past its checks. *)
Theorem default_format_never_runs baseUrl outputDir args :
  ¬ In "--format" args → ¬ In "--config" args →
  (∀ c, parseArgs baseUrl outputDir args = Parsed c →
     field "videoFormat" c = Some (JStr "slideshow"))
  ∧ ∀ c, mainChecks baseUrl outputDir args ≠ Parsed c.
Proof.
  intros Hf Hc.
  assert (Hfmt : ∀ c, parseArgs baseUrl outputDir args = Parsed c →
                   field "videoFormat" c = Some (JStr "slideshow")).
  { intros c Hparse. unfold Cli.parseArgs in Hparse.
    now rewrite (parseFrom_keeps_format (length args) _ args c (le_n _) Hparse Hf Hc). }
  split; [exact Hfmt|].
  intros c. unfold Cli.mainChecks.
  destruct (parseArgs baseUrl outputDir args) as [c0| |e] eqn:Hparse; try discriminate.
  specialize (Hfmt c0 eq_refl). unfold validateConfig.
  destruct (validateShape c0) as [[]|e]; simpl; [|discriminate].
  now rewrite ConfigFacts.validateOptions_slideshow.
Qed.

Lemma setField_checked key value config :
  Cli.checked urlParses config →
  key ≠ "videoFormat" → key ≠ "title" → key ≠ "url" → key ≠ "clientflowTaskUrl" →
  Cli.checked urlParses (setField key value config).
Proof.
  intros (Hf & Ht & Hu & Hc) ? ? ? ?. unfold Cli.checked.
  rewrite !CacheFacts.field_setField_ne by congruence. auto.
Qed.

Local Ltac fields :=
  repeat (rewrite CacheFacts.field_setField_eq
          || rewrite CacheFacts.field_setField_ne by discriminate).

Lemma parseFrom_checked n : ∀ config args c,
  (length args <= n)%nat →
  Cli.checked urlParses config →
  parseFrom config args = Parsed c →
  ¬ In "--config" args →
  Cli.checked urlParses c.
Proof.
  induction n as [|n IH]; intros config args c Hlen Hinv Hparse Hc.
  - destruct args; [|simpl in Hlen; lia]. simpl in *. now injection Hparse as <-.
  - destruct args as [|arg rest]; [simpl in *; now injection Hparse as <-|].
    cbn [Cli.parseFrom] in Hparse. simpl in Hlen.
    assert (Hc' : ¬ In "--config" rest) by (simpl in Hc; tauto).
    option_cases Hparse;
      try (destruct rest as [|value rest']; [discriminate|]; simpl in Hlen;
           assert (Hc'' : ¬ In "--config" rest') by (simpl in Hc'; tauto));
      try discriminate;
      try (eapply IH; [| | eassumption | assumption]; [lia|];
           apply setField_checked; [assumption | discriminate ..]).
    + destruct (Str.isEmpty (Str.trim value)) eqn:Ev; [discriminate|].
      eapply IH; [| | eassumption | assumption]; [lia|].
      destruct Hinv as (Hf & Ht & Hu & Hk). unfold Cli.checked.
      fields. repeat split; auto.
      intros t [= <-]. eauto.
    + destruct (urlParses (JStr value)) eqn:Ev; [|discriminate].
      eapply IH; [| | eassumption | assumption]; [lia|].
      destruct Hinv as (Hf & Ht & Hu & Hk). unfold Cli.checked.
      fields. repeat split; auto.
      intros u [= <-]. exact Ev.
    + apply String.eqb_eq in E1. subst arg. simpl in Hc. tauto.
    + destruct (urlParses (JStr value)); [|discriminate].
      eapply IH; [| | eassumption | assumption]; [lia|].
      apply setField_checked; [assumption | discriminate ..].
    + destruct (existsb _ _) eqn:Ev; [|discriminate].
      eapply IH; [| | eassumption | assumption]; [lia|].
      destruct Hinv as (Hf & Ht & Hu & Hk). unfold Cli.checked.
      fields. repeat split; auto.
      exists value. split; [reflexivity|].
      simpl in Ev. rewrite orb_false_r in Ev.
      repeat (apply orb_true_iff in Ev as [Ev|Ev]); apply String.eqb_eq in Ev; subst;
        simpl; auto.
    + destruct (urlParses (JStr value)) eqn:Ev; [|discriminate].
      eapply IH; [| | eassumption | assumption]; [lia|].
      destruct Hinv as (Hf & Ht & Hu & Hk). unfold Cli.checked.
      fields. repeat split; auto.
      intros u [= <-]. exact Ev.
    + destruct (Str.startsWith "-" arg); discriminate.
Qed.

(** Extra X3. What [parseArgs] lets through from the command line alone
    (no [--config]) has been checked: the format is [slideshow], [webm]
    or [gif], the title is a string that is not blank, and the URL and the
    task URL, when given, are valid. *)
Theorem command_line_values_are_checked baseUrl outputDir args c :
  ¬ In "--config" args →
  parseArgs baseUrl outputDir args = Parsed c →
  Cli.checked urlParses c.
Proof.
  intros Hc Hparse. unfold Cli.parseArgs in Hparse.
  apply (parseFrom_checked (length args) (DEFAULT_CONFIG baseUrl outputDir) args c);
    try assumption; [lia|].
  unfold Cli.checked. repeat split; try (intros ? [=]).
  exists "slideshow". split; [reflexivity | simpl; auto].
Qed.

End Parsing.

Lemma options_parse_left_to_right_witness :
  Cli.parseFrom (λ _, true) ∅ (λ _, EmptyString)
    (DEFAULT_CONFIG "http://localhost:7777" "review-reports")
    (["--title"; "T"; "--output"; "first"] ++ ["--output"; "second"])
  = Parsed (setField "outputDir" (JStr "second")
              (setField "outputDir" (JStr "first")
                 (setField "title" (JStr "T")
                    (DEFAULT_CONFIG "http://localhost:7777" "review-reports")))).
Proof.
  apply (options_parse_left_to_right (λ _, true) ∅ (λ _, EmptyString)
           (DEFAULT_CONFIG "http://localhost:7777" "review-reports")
           ["--title"; "T"; "--output"; "first"] [] _ "second").
  reflexivity.
Defined.

Lemma default_format_never_runs_witness :
  Cli.mainChecks (λ _, true) ∅ (λ _, EmptyString) "http://localhost:7777" "review-reports"
    ["--title"; "Fix: button"; "--url"; "http://localhost:7777/fix"; "--no-ai"]
  ≠ Parsed Samples.cliConfig.
Proof.
  apply (default_format_never_runs (λ _, true) ∅ (λ _, EmptyString)
           "http://localhost:7777" "review-reports"
           ["--title"; "Fix: button"; "--url"; "http://localhost:7777/fix"; "--no-ai"]);
    simpl; intros Hin; repeat destruct Hin as [Hin|Hin]; try discriminate; assumption.
Defined.

Lemma command_line_values_are_checked_witness :
  Cli.checked (λ _, true)
    (setField "videoFormat" (JStr "gif")
       (setField "title" (JStr "T")
          (DEFAULT_CONFIG "http://localhost:7777" "review-reports"))).
Proof.
  apply (command_line_values_are_checked (λ _, true) ∅ (λ _, EmptyString)
           "http://localhost:7777" "review-reports" ["--title"; "T"; "--format"; "gif"]).
  - simpl. intros Hin. repeat destruct Hin as [Hin|Hin]; try discriminate; assumption.
  - reflexivity.
Defined.

End CliFacts.

(** ** More on configuration validation *)

Module ValidateFacts.
Import Js Config Accepts.

Lemma trimStart_blank s : blank s = true → Str.trimStart s = EmptyString.
Proof.
  induction s as [|c s IH]; [reflexivity|]. simpl. intros Hb.
  apply andb_true_iff in Hb as [Hc Hs]. rewrite Hc. auto.
Qed.

Lemma trim_blank s : blank s = true → Str.trim s = EmptyString.
Proof. intros Hb. unfold Str.trim. now rewrite (trimStart_blank s Hb). Qed.

Lemma check_passes bad message : check bad message = Ok tt → bad = false.
Proof. destruct bad; [discriminate | reflexivity]. Qed.

Lemma rbind_ok {A B} (r : result exn A) (k : A → result exn B) b :
  rbind r k = Ok b → ∃ a, r = Ok a ∧ k a = Ok b.
Proof. destruct r as [a|e]; [eauto | discriminate]. Qed.

(** Extra X4. A configuration without a title, with a title that is not a
    string, or with a title made of white space only is rejected by the
    first test of [validateConfig], whatever else it contains. *)
Theorem blank_title_is_rejected urlParses config :
  match field "title" config with
  | Some (JStr s) => blank s = true
  | _ => True
  end →
  validateConfig urlParses config
  = Throw (Error "--title is required and cannot be empty").
Proof.
  intros Htitle. unfold validateConfig, validateShape.
  destruct (field "title" config) as [[| | |s| |]|]; try reflexivity.
  - simpl. destruct b; reflexivity.
  - simpl. destruct (negb (Qeq_bool q 0)); reflexivity.
  - simpl. rewrite (trim_blank s Htitle). simpl. rewrite orb_true_r. reflexivity.
Qed.

Lemma blank_title_is_rejected_witness :
  validateConfig (λ _, true)
    (setField "title" (JStr "   ") (setField "videoFormat" (JStr "gif") Samples.cliConfig))
  = Throw (Error "--title is required and cannot be empty").
Proof.
  apply (blank_title_is_rejected (λ _, true)). reflexivity.
Defined.

Lemma validateStep_accepts i step :
  validateStep i step = Ok tt ↔ stepAccepted step = true.
Proof.
  unfold validateStep, stepAccepted.
  destruct step as [| | | | |o]; simpl; try (split; discriminate).
  destruct (truthy (field "name" o)); simpl; [|split; discriminate].
  destruct (isString (field "name" o)); simpl; [|split; discriminate].
  destruct (truthy (field "actions" o) && negb (isArray (field "actions" o)));
    simpl; split; (reflexivity || discriminate).
Qed.

Lemma validateSteps_accepts steps : ∀ i,
  validateSteps i steps = Ok tt ↔ forallb stepAccepted steps = true.
Proof.
  induction steps as [|step rest IH]; intros i; simpl; [tauto|].
  pose proof (validateStep_accepts i step) as Hs.
  destruct (validateStep i step) as [[]|e] eqn:E; simpl.
  - rewrite (proj1 Hs eq_refl). simpl. apply IH.
  - destruct (stepAccepted step); [|split; discriminate].
    discriminate (proj2 Hs eq_refl).
Qed.

Lemma validateSteps_skips good : ∀ i rest,
  forallb stepAccepted good = true →
  validateSteps i (good ++ rest) = validateSteps (i + length good) rest.
Proof.
  induction good as [|step good IH]; intros i rest Hgood; simpl.
  - now rewrite Nat.add_0_r.
  - simpl in Hgood. apply andb_true_iff in Hgood as [Hstep Hgood].
    rewrite (proj2 (validateStep_accepts i step) Hstep). simpl.
    rewrite IH by assumption. f_equal. lia.
Qed.

(** Extra X5. The loop over [config.steps] accepts exactly the lists of
    accepted steps; it stops at the first step that is not accepted and
    names it by its position counted from 1 when the step has no usable
    name - but a [null] entry escapes as a [TypeError] instead. *)
Theorem steps_are_checked_in_order good bad rest :
  forallb stepAccepted good = true →
  (validateSteps 0 good = Ok tt)
  ∧ (truthy (match bad with JObj o => field "name" o | _ => None end)
     && isString (match bad with JObj o => field "name" o | _ => None end) = false →
     bad ≠ JNull →
     validateSteps 0 (good ++ bad :: rest)
     = Throw (Error ("Step " ++ Str.ofNat (length good + 1) ++ ": name is required")))
  ∧ validateSteps 0 (good ++ JNull :: rest) = Throw TypeError
  ∧ ∀ steps, validateSteps 0 steps = Ok tt ↔ forallb stepAccepted steps = true.
Proof.
  intros Hgood. split; [now apply validateSteps_accepts|]. split; [|split].
  - intros Hname Hnull. rewrite validateSteps_skips by assumption. simpl.
    unfold validateStep.
    destruct bad as [| | | | |o]; simpl in *; try congruence.
    destruct (truthy (field "name" o)); simpl in *; [|reflexivity].
    now rewrite Hname.
  - rewrite validateSteps_skips by assumption. reflexivity.
  - intros steps. apply validateSteps_accepts.
Qed.

Lemma steps_are_checked_in_order_witness :
  validateSteps 0
    ([JObj [("name", JStr "Open form")]] ++ JObj [("url", JStr "/")] :: [])
  = Throw (Error "Step 2: name is required").
Proof.
  apply (steps_are_checked_in_order [JObj [("name", JStr "Open form")]]
           (JObj [("url", JStr "/")]) []); [reflexivity | reflexivity | discriminate].
Defined.

Lemma oneOf_test choices (x : option json) :
  truthy x && negb (oneOf choices x) = false →
  truthy x = false ∨ ∃ s, x = Some (JStr s) ∧ In s choices.
Proof.
  intros Htest. destruct (truthy x) eqn:Ht; [|now left]. right.
  simpl in Htest. apply negb_false_iff in Htest.
  destruct x as [[| | |s| |]|]; try discriminate. exists s. split; [reflexivity|].
  simpl in Htest. apply existsb_exists in Htest as (c & Hin & Heq).
  apply String.eqb_eq in Heq. now subst.
Qed.

(** Extra X6. What an accepted configuration guarantees to the review:
    a title that is a non-blank string; a URL or an array of steps, each
    step an object with a non-empty string name and, if any, an array of
    actions; a video format that is absent (falsy), ["gif"] or ["webm"];
    a GIF quality that is absent or one of the three tiers; a positive
    number as [maxScreenshotsPerStep] when it is set. *)
Theorem accepted_configuration urlParses config :
  validateConfig urlParses config = Ok tt →
  (∃ s, field "title" config = Some (JStr s) ∧ Str.isEmpty (Str.trim s) = false)
  ∧ (truthy (field "url" config) = true ∨ ∃ steps, field "steps" config = Some (JArr steps))
  ∧ (∀ steps, field "steps" config = Some (JArr steps) → forallb stepAccepted steps = true)
  ∧ (truthy (field "videoFormat" config) = false
     ∨ ∃ s, field "videoFormat" config = Some (JStr s) ∧ In s ["gif"; "webm"])
  ∧ (truthy (field "gifQuality" config) = false
     ∨ ∃ s, field "gifQuality" config = Some (JStr s) ∧ In s ["low"; "medium"; "high"])
  ∧ (field "maxScreenshotsPerStep" config = None
     ∨ ∃ q, field "maxScreenshotsPerStep" config = Some (JNum q) ∧ (0 < q)%Q).
Proof.
  intros Hok. unfold validateConfig in Hok.
  apply rbind_ok in Hok as ([] & Hshape & Hoptions).
  unfold validateShape in Hshape.
  apply rbind_ok in Hshape as ([] & Htitle & Hshape). apply check_passes in Htitle.
  apply rbind_ok in Hshape as ([] & Hurl & Hshape). apply check_passes in Hurl.
  apply rbind_ok in Hshape as ([] & Harr & Hsteps). apply check_passes in Harr.
  unfold validateOptions in Hoptions.
  apply rbind_ok in Hoptions as ([] & Hformat & Hoptions). apply check_passes in Hformat.
  apply rbind_ok in Hoptions as ([] & Hquality & Hoptions). apply check_passes in Hquality.
  apply rbind_ok in Hoptions as ([] & _ & Hoptions).
  apply rbind_ok in Hoptions as ([] & _ & Hoptions).
  apply rbind_ok in Hoptions as ([] & _ & Hoptions).
  apply rbind_ok in Hoptions as ([] & _ & Hoptions).
  apply rbind_ok in Hoptions as ([] & Hmax & _). apply check_passes in Hmax.
  split; [|split; [|split; [|split; [|split]]]].
  - apply orb_false_iff in Htitle as [Htitle Hblank].
    apply orb_false_iff in Htitle as [_ Hstring].
    destruct (field "title" config) as [[| | |s| |]|]; try discriminate.
    exists s. split; [reflexivity | exact Hblank].
  - destruct (truthy (field "url" config)); [now left|]. right.
    simpl in Hurl. apply negb_false_iff in Hurl. rewrite Hurl in Harr. simpl in Harr.
    apply negb_false_iff in Harr.
    destruct (field "steps" config) as [[| | | |items|]|]; try discriminate. eauto.
  - intros steps Hs. rewrite Hs in Hsteps. now apply validateSteps_accepts in Hsteps.
  - now apply oneOf_test.
  - now apply oneOf_test.
  - destruct (field "maxScreenshotsPerStep" config) as [[| | q | | |]|];
      try discriminate; [|now left]. right. exists q. split; [reflexivity|].
    simpl in Hmax. apply negb_false_iff in Hmax.
    destruct (Qle_bool q 0) eqn:E; [discriminate|].
    apply Qnot_le_lt. intros Hle. apply Qle_bool_iff in Hle. congruence.
Qed.

Lemma accepted_configuration_witness :
  ∃ s, field "title" (setField "videoFormat" (JStr "gif") Samples.cliConfig) = Some (JStr s)
       ∧ Str.isEmpty (Str.trim s) = false.
Proof.
  apply (accepted_configuration (λ _, true)
           (setField "videoFormat" (JStr "gif") Samples.cliConfig)).
  reflexivity.
Defined.

End ValidateFacts.

(** ** More on the transcoder adapter *)

Module ExtractFacts.
Import Fs Transcoder.

Section Tool.
Variable tool : Tool.
Variable videoPath outputDir baseName : string.

Local Abbreviation framePath :=
  (λ i : nat, join outputDir (baseName ++ "-frame-" ++ Str.ofNat i ++ ".png")).

Lemma length_sampleTimes duration maxFrames :
  (length (sampleTimes duration maxFrames) <= maxFrames)%nat
  ∧ (¬ (duration <= 3)%Q → length (sampleTimes duration maxFrames) <= 3)%nat.
Proof.
  unfold sampleTimes. rewrite length_firstn. split; [lia|].
  intros Hlong. unfold frameTimes.
  destruct (Qle_bool duration 3) eqn:E; [apply Qle_bool_iff in E; contradiction|].
  simpl. lia.
Qed.

(** What the extraction loop returns and leaves on disk. *)
Lemma grabFrames_spec times : ∀ i (files0 : files) frames files1,
  grabFrames tool videoPath outputDir baseName i times files0 = (frames, files1) →
  (length frames <= length times)%nat
  ∧ Forall (λ f, (i < index f <= i + length times)%nat
                 ∧ path f = framePath (index f)
                 ∧ In (time f) times
                 ∧ grabRuns tool videoPath (time f) = true) frames
  ∧ (∀ p, In p (map path frames) → files1 !! p = Some Raw)
  ∧ (∀ p, ¬ In p (map path frames) → files1 !! p = files0 !! p).
Proof.
  induction times as [|t rest IH]; intros i files0 frames files1 Hgrab; simpl in Hgrab.
  - injection Hgrab as <- <-. repeat split; auto. intros p [].
  - destruct (grabRuns tool videoPath t) eqn:Hrun.
    + destruct (grabFrames tool videoPath outputDir baseName (S i) rest _)
        as [frames' files'] eqn:Hrest.
      injection Hgrab as <- <-.
      apply IH in Hrest as (Hlen & Hall & Hin & Hout).
      split; [simpl; lia|]. split; [|split].
      * constructor.
        -- simpl. repeat split; auto; lia.
        -- eapply List.Forall_impl; [|exact Hall]. simpl.
           intros f (Hi & Hp & Ht & Hg). repeat split; auto; lia.
      * intros p Hp. simpl in Hp.
        destruct (in_dec string_dec p (map path frames')) as [Hp'|Hp']; [now apply Hin|].
        destruct Hp as [<-|Hp]; [|contradiction].
        rewrite Hout by assumption. unfold writeRaw. apply lookup_insert_eq.
      * intros p Hp. simpl in Hp. rewrite Hout by tauto.
        unfold writeRaw. apply lookup_insert_ne. tauto.
    + apply IH in Hgrab as (Hlen & Hall & Hin & Hout).
      split; [simpl; lia|]. split; [|split]; auto.
      eapply List.Forall_impl; [|exact Hall]. simpl.
      intros f (Hi & Hp & Ht & Hg). repeat split; auto; lia.
Qed.

(** Extra X7. [extractVideoFrames] returns at most [maxFrames] frames (at
    most three for a recording longer than 3 s); every frame it returns
    was grabbed successfully, is numbered within [1..maxFrames], is named
    [<base>-frame-<number>.png] in the output directory and is on disk
    afterwards; no other file is touched. Without the tool, without a
    duration or with a duration that is not positive it returns nothing
    and touches nothing. *)
Theorem extracted_frames_are_on_disk maxFrames (files0 : files) :
  let result := extractVideoFrames tool videoPath outputDir baseName maxFrames files0 in
  (length (fst result) <= maxFrames)%nat
  ∧ (∀ d, probe tool videoPath = Some d → ¬ (d <= 3)%Q → length (fst result) <= 3)%nat
  ∧ Forall (λ f, (1 <= index f <= maxFrames)%nat
                 ∧ path f = framePath (index f)
                 ∧ grabRuns tool videoPath (time f) = true
                 ∧ snd result !! path f = Some Raw) (fst result)
  ∧ (∀ p, ¬ In p (map path (fst result)) → snd result !! p = files0 !! p)
  ∧ (available tool = false
     ∨ probe tool videoPath = None
     ∨ (∃ d, probe tool videoPath = Some d ∧ (d <= 0)%Q) →
     result = ([], files0)).
Proof.
  intros result. unfold result, extractVideoFrames, checkFFmpeg.
  destruct (available tool) eqn:Ha; simpl.
  2:{ split; [simpl; lia|]. split; [intros; simpl; lia|]. repeat split; auto. }
  destruct (probe tool videoPath) as [d|] eqn:Hp.
  2:{ split; [simpl; lia|]. split; [intros; simpl; lia|]. repeat split; auto. }
  destruct (Qle_bool d 0) eqn:Hd.
  { split; [simpl; lia|]. split; [intros; simpl; lia|]. repeat split; auto. }
  destruct (grabFrames tool videoPath outputDir baseName 0 (sampleTimes d maxFrames) files0)
    as [frames files1] eqn:Hgrab.
  apply grabFrames_spec in Hgrab as (Hlen & Hall & Hin & Hout).
  destruct (length_sampleTimes d maxFrames) as [Hmax Hlong]. simpl.
  split; [lia|]. split; [|split; [|split]].
  - intros d' [= <-] Hnot. specialize (Hlong Hnot). lia.
  - apply List.Forall_forall. intros f Hf.
    pose proof (proj1 (List.Forall_forall _ _) Hall f Hf) as (Hi & Hpath & _ & Hg).
    repeat split; auto; try lia. apply Hin. now apply in_map.
  - exact Hout.
  - intros [Hno|[Hno|(d' & [= <-] & Hle)]]; try discriminate.
    apply Qle_bool_iff in Hle. congruence.
Qed.

End Tool.

End ExtractFacts.

(** ** The capture phase *)

Module RunFacts.
Import Fs Review Capture Run.

Section Phase.
Context {P : Type} `{PageApi P}.
Variable messageOf : exn → string.
Variable config : Config.
Variable tool : Transcoder.Tool.
Variable artifactsDir : string.

Lemma appends_same {A} lo hi (m : M P A) :
  (∀ w, artifacts (snd (m w)) = artifacts w) → appendsOnly lo hi m.
Proof.
  intros Hsame w r w' Hrun. exists []. rewrite app_nil_r. split; [|constructor].
  specialize (Hsame w). now rewrite Hrun in Hsame.
Qed.

Lemma appends_ret {A} lo hi (a : A) : appendsOnly lo hi (mret a : M P A).
Proof. now apply appends_same. Qed.

Lemma appends_bind {A B} lo hi (m : M P A) (k : A → M P B) :
  appendsOnly lo hi m → (∀ a, appendsOnly lo hi (k a)) → appendsOnly lo hi (m ≫= k).
Proof.
  intros Hm Hk w r w' Hrun. unfold mbind, M_bind in Hrun.
  destruct (m w) as [[a|e] w1] eqn:Hmw.
  - destruct (Hm _ _ _ Hmw) as (added1 & Ha1 & Ht1).
    destruct (Hk a _ _ _ Hrun) as (added2 & Ha2 & Ht2).
    exists (added1 ++ added2)%list. rewrite Ha2, Ha1, app_assoc. split; [reflexivity|].
    apply Forall_app. now split.
  - injection Hrun as <- <-. now apply (Hm _ _ _ Hmw).
Qed.

Lemma appends_weaken {A} lo hi lo' hi' (m : M P A) :
  lo' <= lo → hi <= hi' → appendsOnly lo hi m → appendsOnly lo' hi' m.
Proof.
  intros Hlo Hhi Hm w r w' Hrun. destruct (Hm _ _ _ Hrun) as (added & Ha & Ht).
  exists added. split; [assumption|].
  eapply List.Forall_impl; [|exact Ht]. simpl. intros a Ha'. lia.
Qed.

Lemma appends_onPage lo hi f : appendsOnly lo hi (onPage f : M P unit).
Proof. apply appends_same. intros w. unfold onPage. now destruct (f (page w)). Qed.

Lemma appends_wait lo hi ms : appendsOnly lo hi (wait ms : M P unit).
Proof. now apply appends_same. Qed.

Lemma appends_capture lo hi path full : appendsOnly lo hi (capture path full : M P unit).
Proof.
  apply appends_same. intros w. unfold capture. now destruct (screenshot full (page w)).
Qed.

Lemma appends_push lo hi mk :
  (∀ t, lo <= Artifact.stepIndex (mk t) < hi) → appendsOnly lo hi (push mk : M P unit).
Proof.
  intros Hmk w r w' [= <- <-]. exists [mk (now w)]. split; [reflexivity|].
  constructor; [apply Hmk | constructor].
Qed.

Lemma appends_onFiles {A} lo hi (f : files → A * files) : appendsOnly lo hi (onFiles f : M P A).
Proof. apply appends_same. intros w. unfold onFiles. now destruct (f (fs w)). Qed.

Lemma appends_rethrow {A} lo hi prefix (m : M P A) :
  appendsOnly lo hi m → appendsOnly lo hi (rethrow messageOf prefix m).
Proof.
  intros Hm w r w' Hrun. unfold rethrow in Hrun.
  destruct (m w) as [[a|e] w1] eqn:Hmw; injection Hrun as <- <-; now apply (Hm _ _ _ Hmw).
Qed.

(** Routine steps of the proofs that a computation only appends. *)
Local Ltac appends :=
  repeat first
    [ apply appends_ret
    | apply appends_onPage
    | apply appends_wait
    | apply appends_capture
    | apply appends_onFiles
    | (apply appends_push; intros; simpl; lia)
    | (apply appends_same; reflexivity)
    | (apply appends_bind; [|intro]) ].

Local Ltac appends_cases :=
  repeat (match goal with
          | |- appendsOnly _ _ (if ?b then _ else _) => destruct b
          | |- appendsOnly _ _ (match ?x with _ => _ end) => destruct x
          end; appends).

Lemma appends_switchAction i step action :
  appendsOnly i (i + 1) (switchAction config artifactsDir i step action : M P _).
Proof.
  unfold switchAction.
  repeat match goal with |- context [if ?b then _ else _] => destruct b end; appends.
  destruct (Action.url action); appends.
Qed.

Lemma appends_runActions i step actions :
  appendsOnly i (i + 1) (runActions config artifactsDir i step actions : M P _).
Proof.
  induction actions as [|action rest IH]; simpl; appends.
  - apply appends_switchAction.
  - exact IH.
Qed.

Lemma appends_slideshowActions i step actions : ∀ k shots,
  appendsOnly i (i + 1)
    (slideshowActions config artifactsDir i step actions k shots : M P _).
Proof.
  induction actions as [|action rest IH]; intros k shots; simpl; appends.
  - apply appends_switchAction.
  - apply IH.
Qed.

Lemma appends_recordSlideshow i step :
  appendsOnly i (i + 1) (recordSlideshow config tool artifactsDir i step : M P _).
Proof.
  unfold recordSlideshow, stepUrl. appends.
  - destruct (Env.nonEmpty _); appends.
  - destruct (Step.actions step); appends. apply appends_slideshowActions.
  - appends_cases.
Qed.

Lemma appends_finalizeVideo i step latest :
  appendsOnly i (i + 1) (finalizeVideo config tool artifactsDir i step latest : M P _).
Proof.
  unfold finalizeVideo. destruct latest; appends. appends_cases.
Qed.

Lemma appends_recordVideo i step :
  appendsOnly i (i + 1) (recordVideo config tool artifactsDir i step : M P _).
Proof.
  unfold recordVideo, stepUrl. appends.
  - destruct (Env.nonEmpty _); appends.
  - destruct (Step.actions step); appends. apply appends_runActions.
  - apply appends_same. intros w. unfold closeRecording. now destruct (recording (page w)).
  - apply appends_finalizeVideo.
Qed.

Lemma appends_runStep i step :
  appendsOnly i (i + 1) (runStep config tool artifactsDir i step : M P _).
Proof.
  unfold runStep. appends.
  - destruct (Env.nonEmpty _); appends.
  - destruct (Step.record step).
    + destruct (String.eqb _ _); [apply appends_recordSlideshow | apply appends_recordVideo].
    + appends. destruct (Step.actions step); appends. apply appends_runActions.
Qed.

Lemma appends_runSteps steps : ∀ i,
  appendsOnly i (i + Z.of_nat (length steps))
    (runSteps config tool artifactsDir i steps : M P _).
Proof.
  induction steps as [|step rest IH]; intros i; [apply appends_ret|].
  change (runSteps config tool artifactsDir i (step :: rest))
    with (runStep config tool artifactsDir i step
            ≫= λ _, runSteps config tool artifactsDir (i + 1) rest).
  apply appends_bind; [|intro].
  - eapply appends_weaken; [| |apply appends_runStep]; simpl length; lia.
  - eapply appends_weaken; [| |apply IH]; simpl length; lia.
Qed.

Lemma appends_reviewUrl url :
  appendsOnly (-1) 0 (reviewUrl messageOf artifactsDir url : M P _).
Proof.
  unfold reviewUrl. destruct (Env.nonEmpty url); appends.
  - apply appends_rethrow. appends.
  - apply appends_rethrow. appends.
Qed.


(** Extra X8. The capture phase only ever appends to the artifact list,
    also when it ends with an exception: what was recorded before a
    failure stays recorded. Every artifact it appends carries the index of
    a configured step, or -1 for the single-URL screenshot. *)
Theorem artifacts_are_append_only url (w : World P) :
  let steps := default [] (Review.steps config) in
  ∃ added,
    artifacts (snd (capturePhase messageOf config tool artifactsDir url w))
    = (artifacts w ++ added)%list
    ∧ Forall (λ a, -1 <= Artifact.stepIndex a < Z.of_nat (length steps)) added.
Proof.
  intros steps.
  assert (Hphase : appendsOnly (-1) (Z.of_nat (length steps))
                     (capturePhase messageOf config tool artifactsDir url : M P _)).
  { unfold capturePhase, steps. appends.
    - eapply appends_weaken; [| |apply appends_reviewUrl]; lia.
    - destruct (Review.steps config) as [l|]; simpl; appends.
      eapply appends_weaken; [| |apply appends_runSteps]; lia. }
  destruct (capturePhase messageOf config tool artifactsDir url w) as [r w'] eqn:Hrun.
  exact (Hphase _ _ _ Hrun).
Qed.

(** Extra X9. Single-URL mode: when the page loads and the capture
    succeeds, exactly one artifact is appended - the screenshot named
    "Page Screenshot", of no step (index -1, no step name), stored as
    [review-screenshot.png] in the artifacts directory, where the file
    then is; otherwise nothing is appended and the exception raised says
    which of the two failed and why. Without steps this is the whole
    capture phase. *)
Theorem single_url_yields_one_screenshot url u (w : World P) :
  Env.nonEmpty url = Some u →
  let done := reviewUrl messageOf artifactsDir url w in
  let shot := join artifactsDir "review-screenshot.png" in
  match fst done with
  | Ok _ =>
      artifacts (snd done) = (artifacts w ++ [pageScreenshot shot (now w + 1000)])%list
      ∧ fs (snd done) !! shot = Some Raw
  | Throw e =>
      artifacts (snd done) = artifacts w
      ∧ ∃ cause, e = Error (("Failed to load URL " ++ u ++ ": ") ++ messageOf cause)
                 ∨ e = Error ("Failed to capture screenshot: " ++ messageOf cause)
  end
  ∧ (default [] (Review.steps config) = [] →
     capturePhase messageOf config tool artifactsDir url w = done).
Proof.
  intros Hurl done shot. split.
  - unfold done, reviewUrl. rewrite Hurl.
    unfold rethrow, mbind, M_bind, onPage, wait, capture, push.
    destruct (goto u (page w)) as [p1|e]; simpl.
    + destruct (screenshot true (waitForTimeout 1000 p1)) as [[]|e]; simpl.
      * split; [reflexivity|]. unfold writeRaw. apply lookup_insert_eq.
      * split; [reflexivity|]. exists e. now right.
    + split; [reflexivity|]. exists e. now left.
  - intros Hsteps. subst done. unfold capturePhase, mbind, M_bind.
    destruct (reviewUrl messageOf artifactsDir url w) as [[[]|e] w1]; [|reflexivity].
    destruct (Review.steps config) as [steps|]; simpl in Hsteps; [subst steps|]; reflexivity.
Qed.

End Phase.

Lemma single_url_yields_one_screenshot_witness :
  let done :=
    Run.capturePhase (λ _, EmptyString) (Samples.review "gif" []) Samples.noTool
      Samples.artifactsDir (Some "https://ex.test/") (Sim.world ∅) in
  fst done = Ok tt
  ∧ map (λ a, (Artifact.type a, Artifact.name a, Artifact.stepIndex a, Artifact.path a))
      (artifacts (snd done))
    = [(Artifact.screenshot, "Page Screenshot", -1,
        "review-reports/artifacts/review-screenshot.png")].
Proof.
  destruct (single_url_yields_one_screenshot (λ _, EmptyString)
              (Samples.review "gif" []) Samples.noTool Samples.artifactsDir
              (Some "https://ex.test/") "https://ex.test/" (Sim.world ∅) eq_refl)
    as [Hdone Hphase].
  cbv zeta. rewrite (Hphase eq_refl).
  split; [reflexivity|]. vm_compute. reflexivity.
Defined.

End RunFacts.

(** ** More on the recording strategies *)

Module StrategyFacts.
Import Fs Review Capture.

Section Interpreter.
Context {P : Type} `{PageApi P}.
Variable config : Config.
Variable tool : Transcoder.Tool.
Variable artifactsDir : string.

Local Abbreviation runActions := (runActions config artifactsDir).
Local Abbreviation recordSlideshow := (recordSlideshow config tool artifactsDir).
Local Abbreviation slidePath := (slidePath artifactsDir).
Local Abbreviation framesOf := (framesOf artifactsDir).
Local Abbreviation recorded := (recorded artifactsDir).
Local Abbreviation screenshotPath := (screenshotPath artifactsDir).

Lemma runActions_ok i step actions : ∀ (w : World P) w',
  runActions i step actions w = (Ok tt, w') →
  fs w' = writeAll (map screenshotPath (explicitShots actions)) (fs w)
  ∧ ∃ added, artifacts w' = (artifacts w ++ added)%list
             ∧ Forall2 (recorded i step) added (explicitShots actions).
Proof.
  induction actions as [|action rest IH]; intros w w'.
  - simpl. intros [= <-]. split; [reflexivity|]. exists []. rewrite app_nil_r.
    split; [reflexivity | constructor].
  - simpl. unfold mbind, M_bind.
    destruct (switchAction config artifactsDir i step action w) as [[r|e] w1] eqn:Hs;
      [|discriminate].
    apply CaptureFacts.switchAction_ok in Hs. intros Hrest.
    apply IH in Hrest as (Hfs & added & Harts & Hadded).
    unfold explicitShots. simpl.
    destruct (String.eqb (Action.type action) "screenshot").
    + destruct Hs as (_ & Hfs1 & Harts1). split.
      * simpl. rewrite Hfs, Hfs1. reflexivity.
      * eexists (_ :: added). rewrite Harts, Harts1, <- app_assoc. split; [reflexivity|].
        constructor; [eexists; reflexivity | exact Hadded].
    + destruct Hs as (_ & Hfs1 & Harts1). split.
      * rewrite Hfs, Hfs1. reflexivity.
      * exists added. rewrite Harts, Harts1. split; [reflexivity | exact Hadded].
Qed.

Lemma recorded_paths i step added shots :
  Forall2 (recorded i step) added shots →
  map Artifact.path added = map screenshotPath shots.
Proof.
  induction 1 as [|a action l l' [t ->] _ IH]; [reflexivity|].
  simpl. now rewrite IH.
Qed.

(** Extra X10. A step whose actions run to the end without recording (and
    likewise the actions of a full-video step) appends exactly one artifact
    per [screenshot] action, in the order of the actions, and writes
    exactly their files: no other action leaves an artifact or a file. *)
Theorem screenshots_follow_the_actions i step actions (w : World P) w' :
  runActions i step actions w = (Ok tt, w') →
  (∃ added, artifacts w' = (artifacts w ++ added)%list
            ∧ Forall2 (recorded i step) added (explicitShots actions)
            ∧ map Artifact.path added = map screenshotPath (explicitShots actions))
  ∧ (∀ p, In p (map screenshotPath (explicitShots actions)) → fs w' !! p = Some Raw)
  ∧ (∀ p, ¬ In p (map screenshotPath (explicitShots actions)) → fs w' !! p = fs w !! p).
Proof.
  intros Hrun. apply runActions_ok in Hrun as (Hfs & added & Harts & Hadded).
  split; [|split].
  - exists added. repeat split; try assumption. now apply (recorded_paths i step).
  - intros p Hp. rewrite Hfs. now apply CaptureFacts.lookup_writeAll_in.
  - intros p Hp. rewrite Hfs. now apply CaptureFacts.lookup_writeAll_out.
Qed.

Lemma createSlideshow_failed shots out (files0 files1 : files) :
  Transcoder.createSlideshowFromScreenshots tool shots artifactsDir out files0
  = (false, files1) →
  files1 = files0
  ∨ (Transcoder.available tool = true
     ∧ files1 = writeRaw (join artifactsDir "slideshow-concat.txt") files0).
Proof.
  unfold Transcoder.createSlideshowFromScreenshots, Transcoder.checkFFmpeg.
  destruct (Transcoder.available tool); simpl; [|intros [= <-]; now left].
  destruct shots as [|shot shots]; [intros [= <-]; now left|].
  destruct (negb (Transcoder.concatRuns tool _ _)); [|discriminate].
  intros [= <-]. right. split; reflexivity.
Qed.

(** Extra X11. When the slideshow cannot be assembled - the transcoder is
    missing or its run fails - a slideshow step still ends normally, but
    with no recording: only the explicit screenshots are in the artifact
    list, and since the clean-up is skipped every captured frame, numbered
    ones included, stays on disk. *)
Theorem failed_slideshow_keeps_frames i step (w : World P) w' :
  recordSlideshow i step w = (Ok None, w') →
  let actions := default [] (Step.actions step) in
  let frames := slidePath (fileStepName step) 0 :: framesOf step actions 1 in
  (∃ added, artifacts w' = (artifacts w ++ added)%list
            ∧ Forall2 (recorded i step) added (explicitShots actions))
  ∧ (∀ p, In p frames → fs w' !! p = Some Raw)
  ∧ (∀ p, ¬ In p frames → p ≠ join artifactsDir "slideshow-concat.txt" →
       fs w' !! p = fs w !! p).
Proof.
  intros Hrun actions frames.
  unfold Capture.recordSlideshow, mbind, M_bind in Hrun.
  destruct (stepUrl config step w) as [[u|e] w0] eqn:Hu; [|discriminate].
  apply CaptureFacts.stepUrl_pure in Hu. subst w0.
  unfold onPage at 1 in Hrun. destruct (goto u (page w)) as [p1|e]; [|discriminate].
  unfold wait at 1 in Hrun. unfold capture at 1 in Hrun. simpl in Hrun.
  destruct (screenshot false _); [|discriminate].
  set (w1 := mkWorld _ _ _ _) in Hrun.
  assert (Hloop : ∃ w2 added,
    (match Step.actions step with
     | Some acts =>
         slideshowActions config artifactsDir i step acts 1 [slidePath (fileStepName step) 0]
     | None => mret [slidePath (fileStepName step) 0]
     end) w1 = (Ok frames, w2)
    ∧ fs w2 = writeAll frames (fs w)
    ∧ artifacts w2 = (artifacts w ++ added)%list
    ∧ Forall2 (recorded i step) added (explicitShots actions)).
  { revert Hrun. unfold actions, frames.
    destruct (Step.actions step) as [acts|]; cbv beta iota; intros Hrun.
    - destruct (slideshowActions config artifactsDir i step acts 1 _ w1)
        as [[shots|e] w2] eqn:Hl.
      + apply CaptureFacts.slideshowActions_ok in Hl as (-> & Hfs & added & Harts & Hadded).
        exists w2, added. repeat split; assumption.
      + discriminate Hrun.
    - exists w1, []. rewrite app_nil_r. repeat split. constructor. }
  destruct Hloop as (w2 & added & Hl & Hfs & Harts & Hadded).
  rewrite Hl in Hrun. unfold frames at 1 in Hrun.
  unfold onFiles at 1 in Hrun.
  destruct (Transcoder.createSlideshowFromScreenshots tool _ _ _ (fs w2))
    as [[|] files1] eqn:Hc; [discriminate|].
  apply createSlideshow_failed in Hc. unfold mret, M_ret in Hrun.
  simpl in Hrun. injection Hrun as <-. simpl.
  split; [exists added; now split|].
  rewrite Hfs in Hc. split.
  - intros p Hp.
    destruct Hc as [->|[_ ->]]; [now apply CaptureFacts.lookup_writeAll_in|].
    unfold writeRaw at 1. rewrite lookup_insert. case_decide; [reflexivity|].
    now apply CaptureFacts.lookup_writeAll_in.
  - intros p Hp Hne.
    destruct Hc as [->|[_ ->]]; [now apply CaptureFacts.lookup_writeAll_out|].
    unfold writeRaw at 1. rewrite lookup_insert_ne by congruence.
    now apply CaptureFacts.lookup_writeAll_out.
Qed.

End Interpreter.

Lemma screenshots_follow_the_actions_witness :
  let w' :=
    snd (Capture.runActions (Samples.review "gif" []) Samples.artifactsDir 0 Samples.scenario
           (default [] (Step.actions Samples.scenario)) (Sim.world ∅)) in
  Forall (λ p, fs w' !! p = Some Raw)
    ["review-reports/artifacts/before.png"; "review-reports/artifacts/after.png"].
Proof.
  apply List.Forall_forall.
  apply (screenshots_follow_the_actions (Samples.review "gif" []) Samples.artifactsDir 0
           Samples.scenario (default [] (Step.actions Samples.scenario)) (Sim.world ∅)).
  vm_compute. reflexivity.
Defined.

Lemma failed_slideshow_keeps_frames_witness :
  let w' :=
    snd (Capture.recordSlideshow (Samples.review "slideshow" []) Samples.noTool
           Samples.artifactsDir 0 Samples.scenario (Sim.world ∅)) in
  Forall (λ p, fs w' !! p = Some Raw)
    [ "review-reports/artifacts/s-slide-000.png";
      "review-reports/artifacts/before.png";
      "review-reports/artifacts/s-slide-001.png";
      "review-reports/artifacts/s-slide-002.png";
      "review-reports/artifacts/after.png";
      "review-reports/artifacts/s-slide-003.png" ].
Proof.
  apply List.Forall_forall.
  apply (failed_slideshow_keeps_frames (Samples.review "slideshow" []) Samples.noTool
           Samples.artifactsDir 0 Samples.scenario (Sim.world ∅)).
  vm_compute. reflexivity.
Defined.

(** *** GIF conversion *)

Lemma startsWith_length p s :
  Str.startsWith p s = true → (String.length p <= String.length s)%nat.
Proof.
  revert s. induction p as [|c p IH]; intros s Hp; simpl; [lia|].
  destruct s as [|d s]; simpl in *; [discriminate|].
  apply andb_true_iff in Hp as [_ Hp]. apply IH in Hp. lia.
Qed.

Lemma length_substring s : ∀ n m,
  (n + m <= String.length s)%nat → String.length (String.substring n m s) = m.
Proof.
  induction s as [|c s IH]; intros n m Hlen; simpl in Hlen.
  - destruct n, m; simpl; lia.
  - destruct n as [|n]; simpl.
    + destruct m as [|m]; simpl; [reflexivity|]. rewrite (IH 0%nat m); lia.
    + apply IH. lia.
Qed.

(** Replacing the first occurrence changes the length by the difference
    of the two lengths. *)
Lemma replaceFirst_length old new s :
  Str.includes old s = true →
  (String.length (Transcoder.replaceFirst old new s) + String.length old
   = String.length s + String.length new)%nat.
Proof.
  induction s as [|c s IH]; intros Hin.
  - simpl in Hin. rewrite orb_false_r in Hin. destruct old; [|discriminate].
    simpl. rewrite CaptureFacts.length_append. simpl. lia.
  - change (Transcoder.replaceFirst old new (String c s))
      with (if Str.startsWith old (String c s)
            then new ++ String.substring (String.length old)
                          (String.length (String c s) - String.length old) (String c s)
            else String c (Transcoder.replaceFirst old new s)).
    destruct (Str.startsWith old (String c s)) eqn:Hs.
    + apply startsWith_length in Hs. rewrite CaptureFacts.length_append.
      rewrite length_substring by lia. lia.
    + simpl in Hin. rewrite Hs in Hin. simpl in Hin. apply IH in Hin. simpl. lia.
Qed.

Lemma palette_is_another_file gifPath :
  Str.includes ".gif" gifPath = true →
  Transcoder.replaceFirst ".gif" "-palette.png" gifPath ≠ gifPath.
Proof.
  intros Hin Heq. apply (replaceFirst_length ".gif" "-palette.png") in Hin.
  rewrite Heq in Hin. simpl in Hin. lia.
Qed.

Lemma webm_is_not_gif a : ∀ n, a ++ ".webm" ≠ n ++ ".gif".
Proof.
  induction a as [|x a IH]; intros n Heq.
  - change (".webm" = n ++ ".gif") in Heq.
    destruct n as [|c [|d n]]; [discriminate Heq | |].
    { change (String c EmptyString ++ ".gif") with (String c ".gif") in Heq.
      discriminate Heq. }
    apply (f_equal String.length) in Heq.
    change (String.length (String c (String d n) ++ ".gif"))
      with (S (S (String.length (n ++ ".gif")))) in Heq.
    rewrite CaptureFacts.length_append in Heq. simpl in Heq. lia.
  - destruct n as [|y n].
    + apply (f_equal String.length) in Heq.
      change (String.length (String x a ++ ".webm"))
        with (S (String.length (a ++ ".webm"))) in Heq.
      rewrite CaptureFacts.length_append in Heq. simpl in Heq. lia.
    + injection Heq as _ Heq. now apply IH in Heq.
Qed.

Lemma endsWith_suffix p s : Str.endsWith p s = true → ∃ a, s = a ++ p.
Proof.
  induction s as [|c s IH]; simpl; intros Hs.
  - rewrite orb_false_r in Hs. apply String.eqb_eq in Hs. subst. now exists EmptyString.
  - apply orb_true_iff in Hs as [Hs|Hs].
    + apply String.eqb_eq in Hs. subst. now exists EmptyString.
    + destruct (IH Hs) as [a ->]. now exists (String c a).
Qed.

Lemma fold_max_in (names : list string) g :
  fold_right (λ f best, match best with
                        | None => Some f
                        | Some g => if String.ltb g f then Some f else Some g
                        end) None names = Some g →
  In g names.
Proof.
  revert g. induction names as [|f names IH]; intros g; simpl; [discriminate|].
  destruct (fold_right _ None names) as [best|].
  - destruct (String.ltb best f); intros [= <-]; auto.
  - intros [= <-]. auto.
Qed.

Lemma ltb_trans a b c :
  String.ltb a b = true → String.ltb b c = true → String.ltb a c = true.
Proof.
  unfold String.ltb. intros Hab Hbc.
  destruct (String.compare a b) eqn:Eab; try discriminate.
  destruct (String.compare b c) eqn:Ebc; try discriminate.
  apply OrderedTypeEx.String_as_OT.cmp_lt in Eab, Ebc.
  pose proof (OrderedTypeEx.String_as_OT.lt_trans _ _ _ Eab Ebc) as Hac.
  apply OrderedTypeEx.String_as_OT.cmp_lt in Hac.
  unfold OrderedTypeEx.String_as_OT.cmp in Hac. now rewrite Hac.
Qed.

Lemma ltb_irrefl a : String.ltb a a = false.
Proof.
  unfold String.ltb. destruct (String.compare a a) eqn:E; try reflexivity.
  apply OrderedTypeEx.String_as_OT.cmp_lt in E.
  apply OrderedTypeEx.String_as_OT.lt_not_eq in E. now destruct E.
Qed.

Lemma fold_max_greatest (names : list string) g :
  fold_right (λ f best, match best with
                        | None => Some f
                        | Some g => if String.ltb g f then Some f else Some g
                        end) None names = Some g →
  ∀ f, In f names → String.ltb g f = false.
Proof.
  revert g. induction names as [|f0 names IH]; intros g; simpl; [discriminate|].
  destruct (fold_right _ None names) as [best|] eqn:Hbest.
  - destruct (String.ltb best f0) eqn:Hlt; intros [= <-] f [<-|Hin]; auto.
    + apply ltb_irrefl.
    + destruct (String.ltb f0 f) eqn:Hf; [|reflexivity].
      rewrite <- (IH best eq_refl f Hin). symmetry. now apply (ltb_trans best f0 f).
  - intros [= <-] f [<-|Hin]; [apply ltb_irrefl|].
    destruct names as [|f1 names]; [destruct Hin|]. simpl in Hbest.
    destruct (fold_right _ None names); [destruct (String.ltb s f1)|]; discriminate.
Qed.

Section Conversion.
Context {P : Type} `{PageApi P}.
Variable config : Config.
Variable tool : Transcoder.Tool.
Variable artifactsDir : string.

(** Extra X12. The recording that full-video mode attaches to a step is
    the entry of the artifacts directory with the greatest name among
    those ending in [.webm] - whichever step or run wrote it. *)
Theorem latest_video_is_the_greatest_name (files0 : files) latest :
  latestVideo artifactsDir files0 = Some latest →
  In latest (readdir artifactsDir files0)
  ∧ Str.endsWith ".webm" latest = true
  ∧ ∀ f, In f (readdir artifactsDir files0) → Str.endsWith ".webm" f = true →
         String.ltb latest f = false.
Proof.
  unfold latestVideo. intros Hmax. split; [|split].
  - apply fold_max_in in Hmax.
    now apply list_elem_of_In, list_elem_of_filter in Hmax as [_ Hin%list_elem_of_In].
  - apply fold_max_in in Hmax.
    apply list_elem_of_In, list_elem_of_filter in Hmax as [Hwebm _].
    now apply Is_true_true.
  - intros f Hin Hwebm. apply (fold_max_greatest _ _ Hmax).
    apply list_elem_of_In, list_elem_of_filter. split; [now rewrite Hwebm|].
    now apply list_elem_of_In.
Qed.

(** The recording [latestVideo] picks has a name ending in [.webm]. *)
Lemma latestVideo_webm (files0 : files) file :
  latestVideo artifactsDir files0 = Some file → Str.endsWith ".webm" file = true.
Proof.
  unfold latestVideo. intros Hmax. apply fold_max_in in Hmax.
  apply list_elem_of_In, list_elem_of_filter in Hmax as [Hwebm _].
  now apply Is_true_true.
Qed.

(** Extra X13. In full-video mode with the [gif] format, when the
    conversion of the recording that was found succeeds, the [gif]
    artifact that is appended names a file that is on disk, while the
    recording and the palette are gone: the artifact can be shown. *)
Theorem converted_gif_is_on_disk i step file (w : World P) :
  videoFormat config = "gif" →
  latestVideo artifactsDir (fs w) = Some file →
  let videoPath := join artifactsDir file in
  let gifPath := join artifactsDir (fileStepName step ++ ".gif") in
  fst (Transcoder.convertVideoToGif tool videoPath gifPath (fs w)) = true →
  let done := finalizeVideo config tool artifactsDir i step (Some file) w in
  artifacts (snd done)
  = (artifacts w ++ [artifactOf Artifact.gif (Step.name step) gifPath i step None (now w)])%list
  ∧ fs (snd done) !! gifPath = Some Raw
  ∧ fs (snd done) !! videoPath = None
  ∧ fs (snd done) !! Transcoder.replaceFirst ".gif" "-palette.png" gifPath = None.
Proof.
  intros Hgif Hlatest videoPath gifPath Hconverted done.
  assert (Hpalette : Transcoder.replaceFirst ".gif" "-palette.png" gifPath ≠ gifPath).
  { apply palette_is_another_file. unfold gifPath, join.
    apply StrFacts.includes_app_r, StrFacts.includes_app_r.
    change (fileStepName step ++ ".gif") with (fileStepName step ++ ".gif" ++ EmptyString).
    apply StrFacts.includes_around. }
  assert (Hvideo : videoPath ≠ gifPath).
  { intros Heq. apply CaptureFacts.join_inj in Heq.
    apply latestVideo_webm, endsWith_suffix in Hlatest as [a Ha].
    rewrite Ha in Heq. now apply webm_is_not_gif in Heq. }
  unfold done. rewrite (CaptureFacts.finalizeVideo_gif config tool artifactsDir i step file w Hgif).
  fold videoPath gifPath. rewrite Hconverted.
  revert Hconverted. unfold Transcoder.convertVideoToGif.
  destruct (negb (Transcoder.checkFFmpeg tool)); [discriminate|].
  destruct (negb (Transcoder.paletteRuns tool _ _)); [discriminate|].
  destruct (negb (Transcoder.gifRuns tool _ _ _)); [discriminate|].
  intros _. simpl. unfold unlink, writeRaw. split; [reflexivity|]. split; [|split].
  - rewrite lookup_delete_ne by congruence. rewrite lookup_delete_ne by congruence.
    apply lookup_insert_eq.
  - apply lookup_delete_eq.
  - rewrite lookup_delete. case_decide; [reflexivity|]. apply lookup_delete_eq.
Qed.

End Conversion.

Lemma latest_video_is_the_greatest_name_witness :
  String.ltb "b.webm" "a.webm" = false.
Proof.
  destruct (latest_video_is_the_greatest_name "out"
              {[ "out/a.webm" := Raw; "out/b.webm" := Raw; "out/c.png" := Raw ]} "b.webm")
    as (_ & _ & Hmax); [vm_compute; reflexivity|].
  apply Hmax; vm_compute; auto.
Defined.

Lemma converted_gif_is_on_disk_witness :
  let done :=
    Capture.finalizeVideo (Samples.review "gif" []) Samples.goodTool Samples.artifactsDir 0
      Samples.scenario (Some "page@recording.webm")
      (Sim.world {[ "review-reports/artifacts/page@recording.webm" := Raw ]}) in
  fs (snd done) !! "review-reports/artifacts/s.gif" = Some Raw
  ∧ fs (snd done) !! "review-reports/artifacts/page@recording.webm" = None.
Proof.
  destruct (converted_gif_is_on_disk (Samples.review "gif" []) Samples.goodTool
              Samples.artifactsDir 0 Samples.scenario "page@recording.webm"
              (Sim.world {[ "review-reports/artifacts/page@recording.webm" := Raw ]}))
    as (_ & Hgif & Hvideo & _); [reflexivity | vm_compute; reflexivity | reflexivity |].
  split; assumption.
Defined.

End StrategyFacts.

(** ** The description phase: what is sent and what it costs *)

Module GenerateFacts.
Import Review Describe.

Lemma nonEmpty_some v text : Env.nonEmpty v = Some text → v = Some text.
Proof.
  destruct v as [t|]; simpl; [|discriminate].
  destruct (Str.isEmpty t); [discriminate|]. now intros [= <-].
Qed.

Lemma nonEmpty_idem v : Env.nonEmpty (Env.nonEmpty v) = Env.nonEmpty v.
Proof.
  destruct v as [t|]; simpl; [|reflexivity].
  destruct (Str.isEmpty t) eqn:E; simpl; [reflexivity|]. now rewrite E.
Qed.

Lemma In_firstn {A} (x : A) n : ∀ l, In x (firstn n l) → In x l.
Proof.
  induction n as [|n IH]; intros [|y l]; simpl; try tauto.
  intros [->|Hin]; auto.
Qed.

Lemma readImages_parts files0 images part :
  In part (readImages files0 images) →
  In (snd part) images ∧ Fs.exists_ (snd part) files0 = true
  ∧ fst part = mimeType (snd part).
Proof.
  unfold readImages. induction images as [|img images IH]; simpl; [tauto|].
  destruct (Fs.exists_ img files0) eqn:E; simpl.
  - intros [<-|Hin]; [simpl; auto|]. destruct (IH Hin) as (? & ? & ?). auto.
  - intros Hin. destruct (IH Hin) as (? & ? & ?). auto.
Qed.

Lemma readImages_length files0 images :
  (length (readImages files0 images) <= length images)%nat.
Proof.
  unfold readImages, omap. induction images as [|img images IH]; simpl; [lia|].
  destruct (Fs.exists_ img files0); simpl; lia.
Qed.

(** The retry block consults the service on its one request only. *)
Lemma attempt_ext service1 service2 request s :
  (∀ n, service1 n request = service2 n request) →
  attempt service1 request s = attempt service2 request s.
Proof.
  intros Hsame. pose proof (DescribeFacts.attempt_cases service1 request s) as H1.
  pose proof (DescribeFacts.attempt_cases service2 request s) as H2.
  rewrite <- !Hsame in H2.
  destruct (service1 (calls s) request) as [text|error]; [congruence|].
  destruct (isRateLimit error); congruence.
Qed.

Section Requests.
Variable env : Env.ProcessEnv.
Variable files0 : Fs.files.
Variable config : Config.

(** Extra X14. Whatever list of image paths [generateAIDescription] is
    given, the requests that reach the service carry at least one image
    and at most the configured maximum (10 when none is set), every image
    is one of the given paths and a file that exists, typed by its
    extension, and the model is the configured one or [gpt-4o]: two services
    that agree on such requests cannot be told apart. *)
Theorem only_readable_images_are_sent (service1 service2 : Service)
    images clientRequest stepContext s :
  (∀ n r,
     model r = strOr (aiModel config) "gpt-4o" →
     imageParts r ≠ [] →
     (length (imageParts r) <= natOr (maxScreenshotsPerStep config) 10)%nat →
     (∀ part, In part (imageParts r) →
        In (snd part) images ∧ Fs.exists_ (snd part) files0 = true
        ∧ fst part = mimeType (snd part)) →
     service1 n r = service2 n r) →
  generateAIDescription env files0 service1 config images clientRequest stepContext s
  = generateAIDescription env files0 service2 config images clientRequest stepContext s.
Proof.
  intros Hsame. unfold generateAIDescription.
  destruct (Env.getAPIKey env); [|reflexivity].
  destruct (readImages files0 _) as [|part parts] eqn:Hparts; [reflexivity|].
  apply attempt_ext. intros n. apply Hsame; cbn [imageParts model].
  - reflexivity.
  - discriminate.
  - rewrite <- Hparts.
    etransitivity; [apply readImages_length|]. apply firstn_le_length.
  - intros p Hin. rewrite <- Hparts in Hin.
    apply readImages_parts in Hin as (Hin & Hex & Hmime).
    split; [|split]; try assumption. now apply In_firstn in Hin.
Qed.

End Requests.

Lemma only_readable_images_are_sent_witness :
  generateAIDescription Samples.directKey Samples.stored Examples.serviceUp
    (Samples.review "gif" []) ["review-reports/artifacts/before.png"; "missing.png"]
    EmptyString "Step: S" Samples.fresh
  = generateAIDescription Samples.directKey Samples.stored Examples.servicePicky
      (Samples.review "gif" []) ["review-reports/artifacts/before.png"; "missing.png"]
      EmptyString "Step: S" Samples.fresh.
Proof.
  apply (only_readable_images_are_sent Samples.directKey Samples.stored
           (Samples.review "gif" []) Examples.serviceUp Examples.servicePicky).
  intros n r _ Hparts _ _. unfold Examples.serviceUp, Examples.servicePicky.
  destruct (imageParts r); [contradiction|reflexivity].
Defined.

Section Budget.
Variable env : Env.ProcessEnv.
Variable files0 : Fs.files.
Variable service : Service.
Variable config : Config.
Variable artifacts : list Artifact.t.
Variable extractedFrames : list ExtractedFrame.

Local Abbreviation describeStep := (describeStep env files0 service config artifacts extractedFrames).
Local Abbreviation describeSteps := (describeSteps env files0 service config artifacts extractedFrames).
Local Abbreviation describeOverall := (describeOverall env files0 service config artifacts).
Local Abbreviation generate := (generateAIDescription env files0 service config).

Lemma generate_calls_lower images clientRequest stepContext s :
  (calls s <= calls (snd (generate images clientRequest stepContext s)))%nat.
Proof.
  unfold generateAIDescription.
  destruct (Env.getAPIKey env); [|simpl; lia].
  destruct (readImages files0 _); [simpl; lia|].
  pose proof (DescribeFacts.attempt_calls service
    {| model := strOr (aiModel config) "gpt-4o";
       prompt := buildPrompt clientRequest stepContext;
       imageParts := p :: l |} s). lia.
Qed.

Lemma describeStep_calls i step s :
  (calls s <= calls (snd (describeStep i step s)) <= calls s + 2)%nat.
Proof.
  unfold Describe.describeStep.
  destruct (isSome (manualOrNull step) && negb (forceAI config)); [simpl; lia|].
  destruct (Describe.stepImages _ _ _ i) as [|img images]; [simpl; lia|].
  unfold tryCatch, mbind, mret, G_bind, G_ret.
  pose proof (DescribeFacts.generate_calls env files0 service config (img :: images)
                (strOr (clientRequest config) EmptyString) ("Step: " ++ Step.name step) s).
  pose proof (generate_calls_lower (img :: images)
                (strOr (clientRequest config) EmptyString) ("Step: " ++ Step.name step) s).
  destruct (generateAIDescription _ _ _ _ _ _ _ s) as [[text|e] s']; simpl in *; lia.
Qed.

Lemma describeOverall_calls current s :
  (calls s <= calls (snd (describeOverall current s)) <= calls s + 2)%nat.
Proof.
  unfold Describe.describeOverall.
  destruct (Env.nonEmpty current); [simpl; lia|].
  destruct (firstn 5 _) as [|img images]; [simpl; lia|].
  unfold tryCatch, mbind, mret, G_bind, G_ret.
  pose proof (DescribeFacts.generate_calls env files0 service config (img :: images)
                (strOr (clientRequest config) EmptyString)
                ("Overall review: " ++ title config) s).
  pose proof (generate_calls_lower (img :: images)
                (strOr (clientRequest config) EmptyString)
                ("Overall review: " ++ title config) s).
  destruct (generateAIDescription _ _ _ _ _ _ _ s) as [[text|e] s']; simpl in *; lia.
Qed.

Lemma describeSteps_entries steps0 : ∀ n s,
  ∃ ds s', describeSteps (Z.of_nat n) steps0 s = (Ok ds, s')
    ∧ map stepIndex ds = map Z.of_nat (seq n (length steps0))
    ∧ map stepName ds = map Step.name steps0
    ∧ (calls s <= calls s' <= calls s + 2 * length steps0)%nat.
Proof.
  induction steps0 as [|step rest IH]; intros n s.
  - exists [], s. simpl. repeat split; lia.
  - destruct (DescribeFacts.describeStep_total env files0 service config artifacts
                extractedFrames (Z.of_nat n) step s) as (d & s1 & Hd & Hi & Hn).
    pose proof (describeStep_calls (Z.of_nat n) step s) as Hc. rewrite Hd in Hc.
    destruct (IH (S n) s1) as (ds & s2 & Hds & His & Hns & Hcs).
    exists (d :: ds), s2. simpl. unfold mbind, mret, G_bind, G_ret.
    rewrite Hd. replace (Z.of_nat n + 1) with (Z.of_nat (S n)) by lia. rewrite Hds.
    split; [reflexivity|]. simpl in *. rewrite Hi, His, Hn, Hns.
    repeat split; lia.
Qed.

Lemma descriptions_total s :
  ∃ d s',
    generateDescriptions env files0 service config artifacts extractedFrames s = (Ok d, s').
Proof.
  unfold generateDescriptions.
  assert (Hsteps : ∃ ds s1,
            match Review.steps config with
            | Some steps0 => describeSteps 0 steps0
            | None => mret []
            end s = (Ok ds, s1)).
  { destruct (Review.steps config) as [steps0|].
    - destruct (describeSteps_entries steps0 0 s) as (ds & s1 & Hds & _). eauto.
    - exists [], s. reflexivity. }
  destruct Hsteps as (ds & s1 & Hds).
  destruct (DescribeFacts.describeOverall_total env files0 service config artifacts
              (Env.nonEmpty (Review.description config)) s1) as (overall & s2 & Ho).
  unfold mbind, mret, G_bind, G_ret in *. rewrite Hds, Ho. eauto.
Qed.

(** Extra X15. The description phase always produces a bundle: one entry
    per configured step, in the order of the steps, carrying the step's
    position and name, whatever the service answers; and it calls the
    service at most twice per step plus twice for the overall
    description. *)
Theorem descriptions_follow_the_steps s :
  ∃ d s',
    generateDescriptions env files0 service config artifacts extractedFrames s = (Ok d, s')
    ∧ map stepName (steps d) = map Step.name (default [] (Review.steps config))
    ∧ map stepIndex (steps d)
      = map Z.of_nat (seq 0 (length (default [] (Review.steps config))))
    ∧ (calls s <= calls s'
       <= calls s + 2 * (length (default [] (Review.steps config)) + 1))%nat.
Proof.
  unfold generateDescriptions.
  assert (Hsteps : ∃ ds s1,
            match Review.steps config with
            | Some steps0 => describeSteps 0 steps0
            | None => mret []
            end s = (Ok ds, s1)
            ∧ map stepIndex ds
              = map Z.of_nat (seq 0 (length (default [] (Review.steps config))))
            ∧ map stepName ds = map Step.name (default [] (Review.steps config))
            ∧ (calls s <= calls s1
               <= calls s + 2 * length (default [] (Review.steps config)))%nat).
  { destruct (Review.steps config) as [steps0|]; simpl.
    - apply (describeSteps_entries steps0 0).
    - exists [], s. repeat split; simpl; lia. }
  destruct Hsteps as (ds & s1 & Hds & Hi & Hn & Hc).
  destruct (DescribeFacts.describeOverall_total env files0 service config artifacts
              (Env.nonEmpty (Review.description config)) s1) as (overall & s2 & Ho).
  pose proof (describeOverall_calls (Env.nonEmpty (Review.description config)) s1) as Hoc.
  rewrite Ho in Hoc. simpl in Hoc.
  unfold mbind, mret, G_bind, G_ret in *. rewrite Hds, Ho.
  eexists _, _. split; [reflexivity|]. simpl. repeat split; try assumption; lia.
Qed.

Lemma describeSteps_manual steps0 : ∀ i s,
  forceAI config = false →
  Forall (λ step, isSome (manualOrNull step) = true) steps0 →
  ∃ ds, describeSteps i steps0 s = (Ok ds, s)
        ∧ map stepText ds = map Step.description steps0.
Proof.
  intros i s Hforce Hall. revert i. induction Hall as [|step rest Hstep _ IH]; intros i.
  - now exists [].
  - destruct (IH (i + 1)) as (ds & Hds & Htexts).
    exists (entry i step (Step.description step) :: ds). simpl.
    unfold mbind, mret, G_bind, G_ret, Describe.describeStep.
    rewrite Hstep, Hforce. simpl. rewrite Hds. simpl. now rewrite Htexts.
Qed.

(** Extra X16. Without [forceAI], when every step and the review itself
    come with a description, the description phase makes no call to the
    service and takes no pause: the bundle carries the given texts. *)
Theorem manual_descriptions_cost_no_call steps0 s :
  forceAI config = false →
  Review.steps config = Some steps0 →
  Forall (λ step, isSome (manualOrNull step) = true) steps0 →
  isSome (Env.nonEmpty (Review.description config)) = true →
  ∃ d,
    generateDescriptions env files0 service config artifacts extractedFrames s = (Ok d, s)
    ∧ map stepText (steps d) = map Step.description steps0
    ∧ description d = Review.description config.
Proof.
  intros Hforce Hsteps Hall Hgiven.
  destruct (describeSteps_manual steps0 0 s Hforce Hall) as (ds & Hds & Htexts).
  unfold generateDescriptions. rewrite Hsteps.
  unfold mbind, mret, G_bind, G_ret. rewrite Hds.
  unfold Describe.describeOverall. rewrite nonEmpty_idem.
  destruct (Env.nonEmpty (Review.description config)) as [text|] eqn:E; [|discriminate].
  eexists. split; [reflexivity|]. simpl. split; [assumption|].
  symmetry. now apply nonEmpty_some.
Qed.

End Budget.

Lemma manual_descriptions_cost_no_call_witness :
  ∃ d,
    generateDescriptions Samples.directKey Samples.stored Samples.serviceDown
      Examples.handWritten Samples.captured [] Samples.fresh = (Ok d, Samples.fresh)
    ∧ map stepText (steps d) = [Some "The empty form."; Some "The confirmation."]
    ∧ description d = Some "Two screens.".
Proof.
  apply (manual_descriptions_cost_no_call Samples.directKey Samples.stored
           Samples.serviceDown Examples.handWritten Samples.captured []
           [Examples.described "Open form" "The empty form.";
            Examples.described "Submit" "The confirmation."] Samples.fresh).
  - reflexivity.
  - reflexivity.
  - repeat constructor.
  - reflexivity.
Defined.

End GenerateFacts.

(** ** After the capture: frames, cache and cleanup *)

Module PostFacts.
Import Js Fs Review Describe Post.

Lemma extract_spec tool videoPath outputDir baseName maxFrames (files0 : files)
    frames files1 :
  Transcoder.extractVideoFrames tool videoPath outputDir baseName maxFrames files0
  = (frames, files1) →
  (length frames <= maxFrames)%nat
  ∧ (∀ p, In p (map Transcoder.path frames) → files1 !! p = Some Raw)
  ∧ (∀ p, ¬ In p (map Transcoder.path frames) → files1 !! p = files0 !! p).
Proof.
  unfold Transcoder.extractVideoFrames.
  destruct (negb (Transcoder.checkFFmpeg tool)).
  { intros [= <- <-]. simpl. repeat split; auto; [lia | tauto]. }
  destruct (Transcoder.probe tool videoPath) as [d|].
  2:{ intros [= <- <-]. simpl. repeat split; auto; [lia | tauto]. }
  destruct (Qle_bool d 0).
  { intros [= <- <-]. simpl. repeat split; auto; [lia | tauto]. }
  intros Hgrab.
  apply ExtractFacts.grabFrames_spec in Hgrab as (Hlen & _ & Hin & Hout).
  pose proof (proj1 (ExtractFacts.length_sampleTimes d maxFrames)).
  repeat split; auto; lia.
Qed.

Lemma cleanupFrames_spec frames : ∀ (files0 : files),
  (∀ p, In p (map (λ f, Transcoder.path (frame f)) frames) →
        cleanupFrames frames files0 !! p = None)
  ∧ (∀ p, ¬ In p (map (λ f, Transcoder.path (frame f)) frames) →
          cleanupFrames frames files0 !! p = files0 !! p).
Proof.
  unfold cleanupFrames. induction frames as [|f frames IH]; intros files0; simpl.
  - split; [tauto | reflexivity].
  - destruct (IH (unlink (Transcoder.path (frame f)) files0)) as [Hin Hout]. split.
    + intros p Hp.
      destruct (in_dec string_dec p (map (λ f, Transcoder.path (frame f)) frames))
        as [Hp'|Hp']; [now apply Hin|].
      destruct Hp as [<-|Hp]; [|contradiction].
      rewrite Hout by assumption. apply lookup_delete_eq.
    + intros p Hp. rewrite Hout by tauto. apply lookup_delete_ne. tauto.
Qed.

Section Phase.
Variable stem : string → string.
Variable tool : Transcoder.Tool.
Variable env : Env.ProcessEnv.
Variable service : Service.
Variable nowIso : string.
Variable writable : bool.
Variable config : Config.

Local Abbreviation framePaths := (map (λ f : ExtractedFrame, Transcoder.path (frame f))).

Lemma framePaths_tag a frames :
  framePaths (map (tag a) frames) = map Transcoder.path frames.
Proof. rewrite map_map. reflexivity. Qed.

Lemma extractFrom_spec artifacts : ∀ (files0 : files) frames files1,
  extractFrom stem tool config artifacts files0 = (frames, files1) →
  (length frames <= 3 * length (List.filter isRecording artifacts))%nat
  ∧ Forall (λ f, ∃ a, In a artifacts ∧ isRecording a = true
                      ∧ frameStepIndex f = Artifact.stepIndex a
                      ∧ sourceArtifact f = Artifact.name a) frames
  ∧ (∀ p, In p (framePaths frames) → files1 !! p = Some Raw)
  ∧ (∀ p, ¬ In p (framePaths frames) → files1 !! p = files0 !! p).
Proof.
  induction artifacts as [|a rest IH]; intros files0 frames files1 Hrun; simpl in Hrun.
  - injection Hrun as <- <-. simpl. repeat split; auto; tauto.
  - destruct (isRecording a) eqn:Hrec.
    + destruct (Transcoder.extractVideoFrames _ _ _ _ _ _) as [taken filesA] eqn:Htaken.
      destruct (extractFrom stem tool config rest filesA) as [more filesB] eqn:Hmore.
      injection Hrun as <- <-.
      apply extract_spec in Htaken as (Hlen & Hin & Hout).
      apply IH in Hmore as (Hlen' & Hall & Hin' & Hout').
      simpl List.filter. rewrite Hrec. split; [|split; [|split]].
      * rewrite length_app, length_map. simpl. lia.
      * apply Forall_app. split.
        -- apply Forall_map. apply List.Forall_forall. intros f _.
           exists a. simpl. auto.
        -- eapply List.Forall_impl; [|exact Hall].
           intros f (b & Hb & ?). exists b. simpl. auto.
      * intros p Hp. rewrite map_app, framePaths_tag in Hp.
        destruct (in_dec string_dec p (framePaths more)) as [Hp'|Hp']; [now apply Hin'|].
        apply in_app_or in Hp as [Hp|Hp]; [|contradiction].
        rewrite Hout' by assumption. now apply Hin.
      * intros p Hp. rewrite map_app, framePaths_tag in Hp.
        rewrite Hout', Hout; [reflexivity| |]; intros Habs; apply Hp, in_or_app; auto.
    + apply IH in Hrun as (Hlen' & Hall & Hin' & Hout').
      simpl List.filter. rewrite Hrec. repeat split; auto.
      eapply List.Forall_impl; [|exact Hall].
      intros f (b & Hb & ?). exists b. simpl. auto.
Qed.

(** The description phase writes nothing but the cache file. *)
Lemma describePhase_files artifacts frames (files0 : files) s p :
  p ≠ Cache.configPath (outputDir config) →
  snd (fst (describePhase env service nowIso writable config artifacts frames files0 s)) !! p
  = files0 !! p.
Proof.
  intros Hp. unfold describePhase.
  destruct (aiEnabled config && _); [|reflexivity].
  destruct (Env.getAPIKey env); [|reflexivity].
  destruct (generateDescriptions _ _ _ _ _ _ _) as [[d|e] s']; [|reflexivity].
  simpl. unfold Cache.saveCachedDescriptions.
  destruct writable; [|reflexivity]. now apply lookup_insert_ne.
Qed.

(** Extra X17. Frames are extracted only from recordings, at most three
    per recording, each tagged with the step of its recording; they are
    on disk while the descriptions are generated and every one of them is
    deleted before the report is written. Apart from the frame files and
    the description cache, the phase after the capture leaves every file
    as it found it. *)
Theorem frames_are_temporary artifacts (files0 : files) s :
  let extracted := extractPhase stem tool config artifacts files0 in
  let final := afterCapture stem tool env service nowIso writable config artifacts files0 s in
  (length (fst extracted) <= 3 * length (List.filter isRecording artifacts))%nat
  ∧ Forall (λ f, (∃ a, In a artifacts ∧ isRecording a = true
                       ∧ frameStepIndex f = Artifact.stepIndex a
                       ∧ sourceArtifact f = Artifact.name a)
                 ∧ snd extracted !! Transcoder.path (frame f) = Some Raw
                 ∧ snd (fst final) !! Transcoder.path (frame f) = None) (fst extracted)
  ∧ (∀ p, ¬ In p (framePaths (fst extracted)) →
          p ≠ Cache.configPath (outputDir config) →
          snd (fst final) !! p = files0 !! p).
Proof.
  intros extracted final. unfold final, afterCapture. fold extracted.
  assert (Hspec : (length (fst extracted)
                   <= 3 * length (List.filter isRecording artifacts))%nat
                  ∧ Forall (λ f, ∃ a, In a artifacts ∧ isRecording a = true
                                      ∧ frameStepIndex f = Artifact.stepIndex a
                                      ∧ sourceArtifact f = Artifact.name a) (fst extracted)
                  ∧ (∀ p, In p (framePaths (fst extracted)) →
                          snd extracted !! p = Some Raw)
                  ∧ (∀ p, ¬ In p (framePaths (fst extracted)) →
                          snd extracted !! p = files0 !! p)).
  { unfold extracted, extractPhase. destruct (aiEnabled config).
    - destruct (extractFrom stem tool config artifacts files0) as [frames files1] eqn:E.
      now apply extractFrom_spec in E.
    - simpl. repeat split; auto; [lia | tauto]. }
  destruct extracted as [frames files1]. simpl in Hspec |- *.
  destruct Hspec as (Hlen & Hall & Hin & Hout).
  pose proof (describePhase_files artifacts frames files1 s) as Hkeep.
  destruct (describePhase env service nowIso writable config artifacts frames files1 s)
    as [[descriptions files2] s'].
  simpl in Hkeep |- *.
  destruct (cleanupFrames_spec frames files2) as [Hgone Hrest].
  split; [exact Hlen|]. split.
  - apply List.Forall_forall. intros f Hf.
    assert (Hp : In (Transcoder.path (frame f)) (framePaths frames))
      by (apply in_map_iff; eauto).
    split; [exact (proj1 (List.Forall_forall _ _) Hall f Hf)|]. split; auto.
  - intros p Hp Hcache. rewrite Hrest, Hkeep, Hout; auto.
Qed.

(** Extra X18. Nothing is generated, no call is made and no file is
    written when AI is switched off, when no API key is set, or when -
    without [forceAI] - the cache file holds any truthy JSON value; the
    report then gets what the cache holds, or nothing under
    [forceAI]. *)
Theorem generation_is_skipped artifacts frames (files0 : files) s :
  aiEnabled config = false
  ∨ Env.getAPIKey env = None
  ∨ (forceAI config = false
     ∧ truthy (Some (Cache.loadCachedDescriptions files0 (outputDir config))) = true) →
  describePhase env service nowIso writable config artifacts frames files0 s
  = (if forceAI config then JNull
     else Cache.loadCachedDescriptions files0 (outputDir config), files0, s).
Proof.
  intros Hwhy. unfold describePhase.
  destruct (aiEnabled config && _) eqn:Hgen; [|reflexivity].
  destruct (Env.getAPIKey env) as [info|] eqn:Hkey; [|reflexivity].
  apply andb_true_iff in Hgen as [Hai Hmiss].
  destruct Hwhy as [Hoff|[Hnone|[Hforce Hhit]]]; try congruence.
  rewrite Hforce in Hmiss. rewrite Hhit in Hmiss. discriminate.
Qed.

End Phase.

(** Extra X19. Once a run has generated descriptions and saved them, a
    later run on the same output directory without [forceAI] - whatever
    its steps, artifacts, credentials or service - makes no call and
    hands the report the saved bundle: the generated object plus
    [generatedAt], [model] and [apiKeyType]. The cache is keyed by the
    output directory alone. *)
Theorem second_run_reuses_the_bundle env service nowIso config artifacts frames
    (files0 : files) s info
    env' service' nowIso' writable' config' artifacts' frames' (files' : files) s' :
  let first := describePhase env service nowIso true config artifacts frames files0 s in
  aiEnabled config = true →
  Env.getAPIKey env = Some info →
  forceAI config = true
  ∨ truthy (Some (Cache.loadCachedDescriptions files0 (outputDir config))) = false →
  outputDir config' = outputDir config →
  forceAI config' = false →
  files' !! Cache.configPath (outputDir config)
  = snd (fst first) !! Cache.configPath (outputDir config) →
  ∃ d,
    fst (fst first) = JObj (toObj d)
    ∧ describePhase env' service' nowIso' writable' config' artifacts' frames' files' s'
      = (JObj (Cache.cacheData env nowIso (toObj d)), files', s').
Proof.
  intros first Hai Hkey Hmiss Hdir Hforce' Hsame.
  destruct (GenerateFacts.descriptions_total env files0 service config artifacts frames s)
    as (d & s1 & Hgen).
  assert (Hfirst : first
                   = (JObj (toObj d),
                      Cache.saveCachedDescriptions env nowIso true files0 (outputDir config)
                        (toObj d), s1)).
  { unfold first, describePhase. rewrite Hai, Hkey, Hgen.
    destruct Hmiss as [Hforce|Hmiss].
    - rewrite Hforce. simpl. reflexivity.
    - destruct (forceAI config); [reflexivity|]. rewrite Hmiss. reflexivity. }
  exists d. rewrite Hfirst in Hsame |- *. split; [reflexivity|].
  simpl in Hsame.
  assert (Hload : Cache.loadCachedDescriptions files' (outputDir config')
                  = JObj (Cache.cacheData env nowIso (toObj d))).
  { unfold Cache.loadCachedDescriptions. rewrite Hdir, Hsame.
    unfold Cache.saveCachedDescriptions. now rewrite lookup_insert_eq. }
  unfold describePhase. rewrite Hforce', Hload. simpl.
  rewrite andb_false_r. reflexivity.
Qed.

Lemma generation_is_skipped_witness :
  describePhase Samples.noKeys Examples.serviceUp "2024-01-01T00:00:00.000Z" true
    (Samples.review "gif" [Samples.firstStep]) Samples.captured [] Samples.stored
    Samples.fresh
  = (JNull, Samples.stored, Samples.fresh).
Proof.
  apply (generation_is_skipped Samples.noKeys Examples.serviceUp
           "2024-01-01T00:00:00.000Z" true (Samples.review "gif" [Samples.firstStep])
           Samples.captured [] Samples.stored Samples.fresh).
  right. left. reflexivity.
Defined.

Lemma second_run_reuses_the_bundle_witness :
  ∃ d,
    fst (fst (describePhase Samples.directKey Examples.serviceUp
                "2024-01-01T00:00:00.000Z" true (Samples.review "gif" [Samples.firstStep])
                Samples.captured [] Samples.stored Samples.fresh))
    = JObj (toObj d)
    ∧ describePhase Samples.noKeys Samples.serviceDown "2024-02-02T00:00:00.000Z" false
        (Samples.review "webm" [Samples.secondStep]) [] []
        (snd (fst (describePhase Samples.directKey Examples.serviceUp
                     "2024-01-01T00:00:00.000Z" true
                     (Samples.review "gif" [Samples.firstStep])
                     Samples.captured [] Samples.stored Samples.fresh)))
        Samples.fresh
      = (JObj (Cache.cacheData Samples.directKey "2024-01-01T00:00:00.000Z" (toObj d)),
         snd (fst (describePhase Samples.directKey Examples.serviceUp
                     "2024-01-01T00:00:00.000Z" true
                     (Samples.review "gif" [Samples.firstStep])
                     Samples.captured [] Samples.stored Samples.fresh)),
         Samples.fresh).
Proof.
  apply (second_run_reuses_the_bundle Samples.directKey Examples.serviceUp
           "2024-01-01T00:00:00.000Z" (Samples.review "gif" [Samples.firstStep])
           Samples.captured [] Samples.stored Samples.fresh
           {| Env.key := "sk-test"; Env.type := Env.direct |}).
  - reflexivity.
  - reflexivity.
  - right. vm_compute. reflexivity.
  - reflexivity.
  - reflexivity.
  - reflexivity.
Defined.

End PostFacts.

(** ** The report: grouping and sections *)

Module ReportFacts.
Import Report.

Lemma key_eqb_eq a b : key_eqb a b = true ↔ a = b.
Proof.
  destruct a as [i|], b as [j|]; simpl; split; try congruence; try discriminate.
  - intros Hij. apply Z.eqb_eq in Hij. now subst.
  - intros [= ->]. apply Z.eqb_refl.
Qed.

Lemma key_eqb_refl a : key_eqb a a = true.
Proof. now apply key_eqb_eq. Qed.

Lemma key_eqb_sym a b : key_eqb a b = key_eqb b a.
Proof.
  destruct (key_eqb a b) eqn:E.
  - apply key_eqb_eq in E. subst. symmetry. apply key_eqb_refl.
  - destruct (key_eqb b a) eqn:E'; [|reflexivity].
    apply key_eqb_eq in E'. subst. now rewrite key_eqb_refl in E.
Qed.

Lemma get_push k' k a m :
  get k' (push k a m)
  = if key_eqb k' k then Some (default [] (get k' m) ++ [a])%list else get k' m.
Proof.
  induction m as [|[k1 group] m IH]; simpl.
  - destruct (key_eqb k' k); reflexivity.
  - destruct (key_eqb k k1) eqn:E; simpl.
    + apply key_eqb_eq in E. subst k1. destruct (key_eqb k' k); reflexivity.
    + rewrite IH. destruct (key_eqb k' k1) eqn:E1; [|reflexivity].
      apply key_eqb_eq in E1. subst k1. rewrite key_eqb_sym, E. reflexivity.
Qed.

Lemma push_keys k a m :
  map fst (push k a m) = map fst m
  ∨ (¬ In k (map fst m) ∧ map fst (push k a m) = (map fst m ++ [k])%list).
Proof.
  induction m as [|[k1 group] m IH]; simpl.
  - right. split; [tauto | reflexivity].
  - destruct (key_eqb k k1) eqn:E; simpl; [now left|].
    destruct IH as [->|[Hout ->]]; [now left|].
    right. split; [|reflexivity]. intros [<-|Hin]; [|contradiction].
    now rewrite key_eqb_refl in E.
Qed.

Lemma byStep_snoc artifacts a :
  artifactsByStep (artifacts ++ [a]) = push (stepKey a) a (artifactsByStep artifacts).
Proof. unfold artifactsByStep. now rewrite fold_left_app. Qed.

Lemma keys_NoDup artifacts : List.NoDup (map fst (artifactsByStep artifacts)).
Proof.
  induction artifacts as [|a artifacts IH] using rev_ind; [constructor|].
  rewrite byStep_snoc.
  destruct (push_keys (stepKey a) a (artifactsByStep artifacts)) as [->|[Hout ->]];
    [assumption|].
  apply List.NoDup_app; [assumption | constructor; [tauto | constructor] |].
  intros k Hk [<-|[]]. contradiction.
Qed.

Lemma get_byStep artifacts k :
  get k (artifactsByStep artifacts)
  = match List.filter (λ a, key_eqb (stepKey a) k) artifacts with
    | [] => None
    | group => Some group
    end.
Proof.
  induction artifacts as [|a artifacts IH] using rev_ind; [reflexivity|].
  rewrite byStep_snoc, get_push, IH, List.filter_app. simpl.
  rewrite (key_eqb_sym k (stepKey a)).
  destruct (key_eqb (stepKey a) k);
    destruct (List.filter _ artifacts) as [|b group]; simpl;
    rewrite ?app_nil_r; reflexivity.
Qed.

Lemma In_get m : List.NoDup (map fst m) →
  ∀ k group, In (k, group) m ↔ get k m = Some group.
Proof.
  induction m as [|[k1 g1] m IH]; simpl; intros Hnd k group.
  - split; [tauto | discriminate].
  - inversion Hnd as [|? ? Hout Hnd']; subst.
    destruct (key_eqb k k1) eqn:E.
    + apply key_eqb_eq in E. subst k1. split.
      * intros [[= <-]|Hin]; [reflexivity|].
        exfalso. apply Hout. apply in_map_iff. now exists (k, group).
      * intros [= <-]. now left.
    + rewrite <- (IH Hnd'). split; [|tauto].
      intros [[= <- <-]|Hin]; [|assumption]. now rewrite key_eqb_refl in E.
Qed.

Lemma entries_byStep artifacts k group :
  In (k, group) (artifactsByStep artifacts)
  ↔ group ≠ [] ∧ group = List.filter (λ a, key_eqb (stepKey a) k) artifacts.
Proof.
  rewrite (In_get _ (keys_NoDup artifacts)), get_byStep.
  destruct (List.filter _ artifacts) as [|b rest]; split.
  - discriminate.
  - intros [Hne ->]. contradiction.
  - intros [= <-]. split; [discriminate | reflexivity].
  - intros [_ ->]. reflexivity.
Qed.

Lemma kinds_partition group :
  Permutation (screenshots group ++ videos group) group.
Proof.
  unfold screenshots, videos. induction group as [|a group IH]; simpl; [constructor|].
  unfold isScreenshot at 1, Post.isRecording at 1.
  destruct (Artifact.type a); simpl.
  - now constructor.
  - etransitivity; [symmetry; apply Permutation_middle|]. now constructor.
  - etransitivity; [symmetry; apply Permutation_middle|]. now constructor.
  - etransitivity; [symmetry; apply Permutation_middle|]. now constructor.
Qed.

(** Extra X20. In the report the screenshot count and the recording
    count add up to the total; [artifactsByStep] has one entry per key
    that occurs, never an empty one, and the entry of a key holds exactly
    the artifacts of that key in capture order: every artifact is in one
    entry and one only, and a step without artifacts has no entry, hence
    no section. *)
Theorem every_artifact_is_grouped_once artifacts :
  (length (screenshots artifacts) + length (videos artifacts) = length artifacts)%nat
  ∧ List.NoDup (map fst (artifactsByStep artifacts))
  ∧ (∀ k group,
       In (k, group) (artifactsByStep artifacts)
       ↔ group ≠ [] ∧ group = List.filter (λ a, key_eqb (stepKey a) k) artifacts)
  ∧ Permutation (concat (map snd (artifactsByStep artifacts))) artifacts.
Proof.
  split; [|split; [apply keys_NoDup | split; [apply entries_byStep|]]].
  - rewrite <- length_app. apply Permutation_length, kinds_partition.
  - induction artifacts as [|a artifacts IH] using rev_ind; [constructor|].
    rewrite byStep_snoc.
    etransitivity; [|apply Permutation_app_tail, IH].
    etransitivity; [|apply Permutation_app_comm]. simpl.
    generalize (artifactsByStep artifacts) as m. clear IH.
    induction m as [|[k1 g1] m IHm]; simpl; [constructor; constructor|].
    destruct (key_eqb (stepKey a) k1); simpl.
    + rewrite <- app_assoc. simpl. symmetry. apply Permutation_middle.
    + etransitivity; [apply Permutation_app_head, IHm|].
      symmetry. apply Permutation_middle.
Qed.





Section Capture.
Context {P : Type} `{Capture.PageApi P}.
Variable messageOf : exn → string.
Variable config : Review.Config.
Variable tool : Transcoder.Tool.
Variable artifactsDir : string.


End Capture.



End ReportFacts.
